(** * Lead capture form: validation schema and submission state machine

  A shallow embedding of [src/components/LeadCaptureForm.tsx]: the zod
  schema [formSchema], the component state ([formData], [errors],
  [isSubmitting], [isSubmitted]) and its handlers ([handleChange],
  [formatPhoneNumber], [handlePhoneChange], [handleSubmit]).

  JavaScript strings are sequences of UTF-16 code units; [length],
  [trim], [slice] and the regular expressions of the source (none has
  the [u] flag) all work on code units, so a string is a [list N].
  Nothing below needs the members of the list to be smaller than 65536,
  and every statement holds for every list. *)

From Stdlib Require Import NArith Ascii DecimalString.
From stdpp Require Import base decidable countable list option strings gmap fin_maps.

Local Open Scope N_scope.
Local Open Scope nat_scope.

(** ** JavaScript strings *)

Module Js.

(** A UTF-16 code unit, and a string of them. *)
Abbreviation char16 := N.
Abbreviation jsstring := (list N).

(** A string literal of the source, all of whose characters are ASCII. *)
Fixpoint lit (s : string) : jsstring :=
  match s with
  | EmptyString => []
  | String a s' => N_of_ascii a :: lit s'
  end.

Definition is_char (a : ascii) (c : char16) : bool := N.eqb c (N_of_ascii a).

Definition in_range (lo hi : ascii) (c : char16) : bool :=
  N.leb (N_of_ascii lo) c && N.leb c (N_of_ascii hi).

(** ECMAScript LineTerminator: LF, CR, LS, PS. *)
Definition is_line_terminator (c : char16) : bool :=
  N.eqb c 0x000A || N.eqb c 0x000D || N.eqb c 0x2028 || N.eqb c 0x2029.

(** ECMAScript WhiteSpace: TAB, VT, FF, ZWNBSP and the category Zs. *)
Definition is_white_space (c : char16) : bool :=
  N.eqb c 0x0009 || N.eqb c 0x000B || N.eqb c 0x000C || N.eqb c 0x0020
  || N.eqb c 0x00A0 || N.eqb c 0x1680
  || (N.leb 0x2000 c && N.leb c 0x200A)
  || N.eqb c 0x202F || N.eqb c 0x205F || N.eqb c 0x3000 || N.eqb c 0xFEFF.

(** What [String.prototype.trim] strips and what [\s] matches. *)
Definition is_space (c : char16) : bool :=
  is_white_space c || is_line_terminator c.

(** What [\d] matches (no [u] flag, no [i] folding involved). *)
Definition is_digit (c : char16) : bool := in_range "0" "9" c.

Fixpoint trimStart (s : jsstring) : jsstring :=
  match s with
  | [] => []
  | c :: s' => if is_space c then trimStart s' else s
  end.

Definition trimEnd (s : jsstring) : jsstring := rev (trimStart (rev s)).

Definition trim (s : jsstring) : jsstring := trimEnd (trimStart s).

(** [s.slice(0, n)] for [0 <= n]. *)
Definition slice0 (n : nat) (s : jsstring) : jsstring := take n s.

(** [s.replace(/[^...]/g, "")] for a negated character class: every code
    unit the class does not contain is a match and is replaced by the
    empty string. *)
Definition replace_outside_class (class : char16 -> bool) (s : jsstring) : jsstring :=
  filter (fun c => Is_true (class c)) s.

(** Decimal rendering of a number inside a template literal. *)
Definition number_to_string (n : nat) : jsstring :=
  lit (NilEmpty.string_of_uint (Nat.to_uint n)).

(** Truthiness of a string value. *)
Definition truthy (s : jsstring) : bool :=
  match s with [] => false | _ => true end.

End Js.

(** ** The part of zod 3 the schema uses

  zod is a dependency of the repository, not part of it.  The model
  follows [ZodString._parse], [ZodOptional._parse], [ZodObject._parse]
  and [safeParse] of zod 3 (the source reads [result.error.errors],
  which zod 3 provides): a string schema runs ALL its checks in the
  order they were chained, [trim] rewrites the data the later checks
  see, every failing check appends one issue to the issue list shared
  by the whole parse, and the parse succeeds when no issue was added. *)

Module Zod.
Import Js.

Inductive ZodIssueCode := invalid_type | invalid_string | too_small | too_big.

Inductive ParseStatus := valid | dirty | aborted.

Inductive ZodCheck :=
| check_trim
| check_min (value : nat) (message : option jsstring)
| check_max (value : nat) (message : option jsstring)
| check_email (message : option jsstring).

Inductive ZodType :=
| ZodString (checks : list ZodCheck)
| ZodOptional (innerType : ZodType).

(** The chained builders: each returns a schema with one check more. *)
Definition add_check (c : ZodCheck) (t : ZodType) : ZodType :=
  match t with
  | ZodString checks => ZodString (checks ++ [c])
  | ZodOptional _ => t
  end.

Module z.
Definition string : ZodType := ZodString [].
Definition trim : ZodType -> ZodType := add_check check_trim.
Definition min (n : nat) (message : option jsstring) : ZodType -> ZodType :=
  add_check (check_min n message).
Definition max (n : nat) (message : option jsstring) : ZodType -> ZodType :=
  add_check (check_max n message).
Definition email (message : option jsstring) : ZodType -> ZodType :=
  add_check (check_email message).
Definition optional (t : ZodType) : ZodType := ZodOptional t.
End z.

(** *** The e-mail shape

    zod 3, in its later releases, tests an e-mail with the regular
    expression (flag [i], written here with blanks between its parts)

      ^ (?!\.) (?!.*\.\.) ( [A-Z0-9_'+\-\.]* ) [A-Z0-9_+-] @
        ( [A-Z0-9] [A-Z0-9\-]* \. )+ [A-Z]{2,} $

    With [i] and without [u], [[A-Z]] matches exactly the 52 ASCII
    letters.  No class of the body contains [@], and no class of the
    domain contains [.], so the body matches in one way only: the local
    part is what precedes the first [@], and the domain splits at its
    dots. *)

Definition is_letter (c : char16) : bool := in_range "A" "Z" c || in_range "a" "z" c.
Definition is_alnum (c : char16) : bool := is_letter c || is_digit c.

(** [[A-Z0-9_'+\-\.]] *)
Definition local_char (c : char16) : bool :=
  is_alnum c || is_char "_" c || is_char "'" c || is_char "+" c
  || is_char "-" c || is_char "." c.

(** [[A-Z0-9_+-]] *)
Definition local_last (c : char16) : bool :=
  is_alnum c || is_char "_" c || is_char "+" c || is_char "-" c.

(** [[A-Z0-9\-]] *)
Definition label_char (c : char16) : bool := is_alnum c || is_char "-" c.

(** [(?!\.)]: the input does not start with a dot. *)
Definition starts_with_dot (s : jsstring) : bool :=
  match s with c :: _ => is_char "." c | [] => false end.

(** The second lookahead, (?! .* \.\. ): the dot of the pattern stops at
    a line terminator, so the two dots are looked for on the first line
    only. *)
Fixpoint dotdot_on_first_line (s : jsstring) : bool :=
  match s with
  | c :: ((d :: _) as s') =>
      if is_char "." c && is_char "." d then true
      else if is_line_terminator c then false
      else dotdot_on_first_line s'
  | _ => false
  end.

(** The text before the first occurrence of [sep] and the text after it. *)
Fixpoint split_first (sep : ascii) (s : jsstring) : option (jsstring * jsstring) :=
  match s with
  | [] => None
  | c :: s' =>
      if is_char sep c then Some ([], s')
      else match split_first sep s' with
           | Some (l, r) => Some (c :: l, r)
           | None => None
           end
  end.

(** The pieces of [s] between the occurrences of [sep]. *)
Fixpoint split_all (sep : ascii) (s : jsstring) : list jsstring :=
  match s with
  | [] => [[]]
  | c :: s' =>
      match split_all sep s' with
      | p :: ps => if is_char sep c then [] :: p :: ps else (c :: p) :: ps
      | [] => [[]]
      end
  end.

(** The local part, ( [A-Z0-9_'+\-\.]* ) [A-Z0-9_+-], against the whole of [l]. *)
Definition match_local (l : jsstring) : bool :=
  match last l with
  | Some c => local_last c && forallb local_char l
  | None => false
  end.

(** One label, [A-Z0-9] [A-Z0-9\-]* , against the whole of [l]. *)
Definition match_label (l : jsstring) : bool :=
  match l with
  | c :: r => is_alnum c && forallb label_char r
  | [] => false
  end.

(** The top-level domain, [A-Z]{2,} , against the whole of [l]. *)
Definition match_tld (l : jsstring) : bool :=
  Nat.leb 2 (length l) && forallb is_letter l.

(** The domain, ( label \. )+ [A-Z]{2,} , against the whole of [d]. *)
Definition match_domain (d : jsstring) : bool :=
  match rev (split_all "." d) with
  | tld :: (_ :: _) as labels => match_tld tld && forallb match_label labels
  | _ => false
  end.

Definition emailRegex_test (s : jsstring) : bool :=
  negb (starts_with_dot s) && negb (dotdot_on_first_line s)
  && match split_first "@" s with
     | Some (l, d) => match_local l && match_domain d
     | None => false
     end.

(** *** Issues and parsing *)

Section Parse.
(** The keys of the object being parsed. *)
Context {K : Type}.

Record ZodIssue := mkIssue {
  code : ZodIssueCode;
  path : list K;
  message : jsstring
}.

(** The default error map of zod 3 (English). *)
Definition defaultErrorMap_too_small (minimum : nat) : jsstring :=
  lit "String must contain at least " ++ number_to_string minimum ++ lit " character(s)".

Definition defaultErrorMap_too_big (maximum : nat) : jsstring :=
  lit "String must contain at most " ++ number_to_string maximum ++ lit " character(s)".

Definition defaultErrorMap_invalid_email : jsstring := lit "Invalid email".

Definition defaultErrorMap_required : jsstring := lit "Required".

(** The message given at the check, or else the default one. *)
Definition issue_message (given : option jsstring) (default : jsstring) : jsstring :=
  match given with Some m => m | None => default end.

(** One iteration of the loop over [this._def.checks]: the data, the
    status and the issue list after the check. *)
Definition run_check (pth : list K) (c : ZodCheck)
    (st : jsstring * ParseStatus * list ZodIssue) : jsstring * ParseStatus * list ZodIssue :=
  let '(data, status, issues) := st in
  match c with
  | check_trim => (Js.trim data, status, issues)
  | check_min value msg =>
      if length data <? value
      then (data, dirty,
            issues ++ [mkIssue too_small pth (issue_message msg (defaultErrorMap_too_small value))])
      else st
  | check_max value msg =>
      if value <? length data
      then (data, dirty,
            issues ++ [mkIssue too_big pth (issue_message msg (defaultErrorMap_too_big value))])
      else st
  | check_email msg =>
      if emailRegex_test data
      then st
      else (data, dirty,
            issues ++ [mkIssue invalid_string pth (issue_message msg defaultErrorMap_invalid_email)])
  end.

Definition run_checks (pth : list K) (checks : list ZodCheck)
    (st : jsstring * ParseStatus * list ZodIssue) : jsstring * ParseStatus * list ZodIssue :=
  foldl (fun acc c => run_check pth c acc) st checks.

(** [_parse] of a string or optional-string schema on a value that is a
    string ([Some]) or [undefined] ([None]); [issues] is the list shared
    by the whole parse.  The result is the status, the output value and
    the issue list. *)
Fixpoint parse (t : ZodType) (pth : list K) (input : option jsstring)
    (issues : list ZodIssue) : ParseStatus * option jsstring * list ZodIssue :=
  match t with
  | ZodString checks =>
      match input with
      | None => (aborted, None, issues ++ [mkIssue invalid_type pth defaultErrorMap_required])
      | Some data =>
          let '(data', status, issues') := run_checks pth checks (data, valid, issues) in
          (status, Some data', issues')
      end
  | ZodOptional innerType =>
      match input with
      | None => (valid, None, issues)
      | Some _ => parse innerType pth input issues
      end
  end.

(** [ParseStatus.mergeObjectSync]: aborted wins over dirty, dirty over valid. *)
Definition merge_status (a b : ParseStatus) : ParseStatus :=
  match a, b with
  | aborted, _ | _, aborted => aborted
  | dirty, _ | _, dirty => dirty
  | valid, valid => valid
  end.

(** [ZodObject._parse] on an object all of whose keys are in the shape:
    the members are parsed in the order of the shape, each under the
    one-element path of its key. *)
Fixpoint parse_object (shape : list (K * ZodType)) (get : K -> option jsstring)
    (issues : list ZodIssue) : ParseStatus * list (K * option jsstring) * list ZodIssue :=
  match shape with
  | [] => (valid, [], issues)
  | (key, t) :: shape' =>
      let '(status, value, issues1) := parse t [key] (get key) issues in
      let '(status', pairs, issues2) := parse_object shape' get issues1 in
      (merge_status status status', (key, value) :: pairs, issues2)
  end.

(** [safeParse]: the parsed members when the status is valid, and the
    collected issues ([error.errors]) otherwise; [success] is the
    [success] member of its result. *)
Definition safeParse (shape : list (K * ZodType)) (get : K -> option jsstring)
    : list (K * option jsstring) + list ZodIssue :=
  let '(status, pairs, issues) := parse_object shape get [] in
  match status with
  | valid => inl pairs
  | _ => inr issues
  end.

Definition success {A B : Type} (result : A + B) : bool :=
  match result with inl _ => true | inr _ => false end.

End Parse.

Arguments ZodIssue : clear implicits.

End Zod.

(** ** The component *)

Module LeadCaptureForm.
Import Js Zod.

Notation "x |> f" := (f x) (at level 50, left associativity, only parsing).

(** [keyof FormData]. *)
Inductive Field :=
| Name | Email | Company | Phone | CompanySize | AutomationGoal | CurrentWorkflow | Urgency.

#[global] Instance Field_eq_dec : EqDecision Field.
Proof. solve_decision. Defined.

Definition Field_to_nat (f : Field) : nat :=
  match f with
  | Name => 0 | Email => 1 | Company => 2 | Phone => 3
  | CompanySize => 4 | AutomationGoal => 5 | CurrentWorkflow => 6 | Urgency => 7
  end.

Definition Field_of_nat (n : nat) : option Field :=
  match n with
  | 0 => Some Name | 1 => Some Email | 2 => Some Company | 3 => Some Phone
  | 4 => Some CompanySize | 5 => Some AutomationGoal | 6 => Some CurrentWorkflow
  | 7 => Some Urgency | _ => None
  end.

#[global] Instance Field_countable : Countable Field.
Proof.
  refine (inj_countable Field_to_nat Field_of_nat _).
  intros []; reflexivity.
Defined.

(** Validation schema *)
Definition formSchema : list (Field * ZodType) :=
  [ (Name, z.string |> z.trim |> z.min 1 (Some (lit "Name is required")) |> z.max 100 None);
    (Email, z.string |> z.trim |> z.email (Some (lit "Please enter a valid email")) |> z.max 255 None);
    (Company, z.string |> z.trim |> z.min 1 (Some (lit "Company name is required")) |> z.max 100 None);
    (Phone, z.string |> z.trim |> z.max 20 None |> z.optional);
    (CompanySize, z.string |> z.min 1 (Some (lit "Please select company size")));
    (AutomationGoal,
      z.string |> z.trim |> z.min 1 (Some (lit "Please describe what you want to automate"))
               |> z.max 500 None);
    (CurrentWorkflow, z.string |> z.min 1 (Some (lit "Please select an option")));
    (Urgency, z.string |> z.min 1 (Some (lit "Please select urgency"))) ].

(** [z.infer<typeof formSchema>]: seven strings, and [phone], which the
    schema makes optional ([string | undefined]). *)
Record FormData := mkFormData {
  name : jsstring;
  email : jsstring;
  company : jsstring;
  phone : option jsstring;
  companySize : jsstring;
  automationGoal : jsstring;
  currentWorkflow : jsstring;
  urgency : jsstring
}.

(** [Partial<Record<keyof FormData, string>>] *)
Abbreviation FormErrors := (gmap Field jsstring).

(** [data[key]] *)
Definition get (key : Field) (data : FormData) : option jsstring :=
  match key with
  | Name => Some (name data)
  | Email => Some (email data)
  | Company => Some (company data)
  | Phone => phone data
  | CompanySize => Some (companySize data)
  | AutomationGoal => Some (automationGoal data)
  | CurrentWorkflow => Some (currentWorkflow data)
  | Urgency => Some (urgency data)
  end.

(** [{ ...prev, [key]: value }] *)
Definition set (key : Field) (value : jsstring) (prev : FormData) : FormData :=
  match key with
  | Name => mkFormData value (email prev) (company prev) (phone prev) (companySize prev)
              (automationGoal prev) (currentWorkflow prev) (urgency prev)
  | Email => mkFormData (name prev) value (company prev) (phone prev) (companySize prev)
              (automationGoal prev) (currentWorkflow prev) (urgency prev)
  | Company => mkFormData (name prev) (email prev) value (phone prev) (companySize prev)
              (automationGoal prev) (currentWorkflow prev) (urgency prev)
  | Phone => mkFormData (name prev) (email prev) (company prev) (Some value) (companySize prev)
              (automationGoal prev) (currentWorkflow prev) (urgency prev)
  | CompanySize => mkFormData (name prev) (email prev) (company prev) (phone prev) value
              (automationGoal prev) (currentWorkflow prev) (urgency prev)
  | AutomationGoal => mkFormData (name prev) (email prev) (company prev) (phone prev)
              (companySize prev) value (currentWorkflow prev) (urgency prev)
  | CurrentWorkflow => mkFormData (name prev) (email prev) (company prev) (phone prev)
              (companySize prev) (automationGoal prev) value (urgency prev)
  | Urgency => mkFormData (name prev) (email prev) (company prev) (phone prev)
              (companySize prev) (automationGoal prev) (currentWorkflow prev) value
  end.

(** The [value]s of the options of the three selects, placeholder first. *)
Definition companySizeOptions : list jsstring :=
  [lit ""; lit "1-10"; lit "11-50"; lit "51-200"; lit "201-500"; lit "500+"].

Definition workflowOptions : list jsstring :=
  [lit ""; lit "manually"; lit "using-tools"; lit "partially-automated"; lit "not-sure"].

Definition urgencyOptions : list jsstring :=
  [lit ""; lit "asap"; lit "this-month"; lit "exploring"].

(** The four [useState] cells of the component. *)
Record State := mkState {
  formData : FormData;
  errors : FormErrors;
  isSubmitting : bool;
  isSubmitted : bool
}.

Definition setFormData (f : FormData -> FormData) (s : State) : State :=
  mkState (f (formData s)) (errors s) (isSubmitting s) (isSubmitted s).

Definition setErrors (f : FormErrors -> FormErrors) (s : State) : State :=
  mkState (formData s) (f (errors s)) (isSubmitting s) (isSubmitted s).

Definition setIsSubmitting (b : bool) (s : State) : State :=
  mkState (formData s) (errors s) b (isSubmitted s).

Definition setIsSubmitted (b : bool) (s : State) : State :=
  mkState (formData s) (errors s) (isSubmitting s) b.

Definition initialState : State :=
  mkState (mkFormData (lit "") (lit "") (lit "") (Some (lit "")) (lit "") (lit "") (lit "") (lit ""))
          ∅ false false.

(** [errors[name]] as a condition: defined and not the empty string. *)
Definition has_error (errs : FormErrors) (key : Field) : bool :=
  match errs !! key with
  | Some m => truthy m
  | None => false
  end.

(** [handleChange] on an event whose target has the given [name] and
    [value].  Setting a key of [errors] to [undefined] is modelled by
    removing the key: every read of [errors] in the source is a
    truthiness test, which cannot tell the two apart. *)
Definition handleChange (e_name : Field) (e_value : jsstring) (s : State) : State :=
  let s1 := setFormData (fun prev => set e_name e_value prev) s in
  (* Clear error on change *)
  if has_error (errors s) e_name
  then setErrors (fun prev => delete e_name prev) s1
  else s1.

(** The class of the regular expression of [formatPhoneNumber] without
    its negation: digits, plus, minus, white space, parentheses. *)
Definition phone_class (c : char16) : bool :=
  is_digit c || is_char "+" c || is_char "-" c || is_space c
  || is_char "(" c || is_char ")" c.

Definition formatPhoneNumber (value : jsstring) : jsstring :=
  let cleaned := replace_outside_class phone_class value in
  slice0 20 cleaned.

Definition handlePhoneChange (e_value : jsstring) (s : State) : State :=
  let formatted := formatPhoneNumber e_value in
  setFormData (fun prev => set Phone formatted prev) s.

(** The loop [result.error.errors.forEach(...)]: a later issue of a field
    overwrites the message an earlier one stored. *)
Definition collect_fieldErrors (issues : list (ZodIssue Field)) : FormErrors :=
  foldl (fun fieldErrors err =>
           match head (path err) with
           | Some field => <[field := message err]> fieldErrors
           | None => fieldErrors
           end) ∅ issues.

(** What a call of the [async] function [handleSubmit] has done when it
    gives control back: it has returned, or it waits for a timer of [ms]
    milliseconds, after which [resume] runs on the state of that time. *)
Inductive Outcome :=
| Returned (s : State)
| Awaiting (ms : nat) (s : State) (resume : State -> State).

Definition handleSubmit_resume (s : State) : State :=
  s |> setIsSubmitting false |> setIsSubmitted true.

Definition handleSubmit (s : State) : Outcome :=
  let s1 := s |> setIsSubmitting true |> setErrors (fun _ => ∅) in
  (* Validate form *)
  match safeParse formSchema (fun key => get key (formData s)) with
  | inr issues =>
      let fieldErrors := collect_fieldErrors issues in
      Returned (s1 |> setErrors (fun _ => fieldErrors) |> setIsSubmitting false)
  | inl _ =>
      (* Simulate API submission *)
      Awaiting 1200 s1 handleSubmit_resume
  end.

(** *** The component as a transition system

    The handlers are attached to the elements of the form, and the form
    is rendered only while [isSubmitted] is false; the phone input is
    wired to [handlePhoneChange], the seven other controls to
    [handleChange].  A pending timer is a continuation waiting to run.
    (The submit button is disabled while [isSubmitting]; the model does
    not rely on it and lets a submit event arrive at any time the form is
    rendered.) *)

Record Component := mkComponent {
  state : State;
  timers : list (nat * (State -> State))
}.

Inductive Event :=
| ChangeEvent (target : Field) (value : jsstring)
| SubmitEvent
| TimerFired.

Definition onChange (target : Field) : jsstring -> State -> State :=
  match target with
  | Phone => handlePhoneChange
  | _ => handleChange target
  end.

Definition form_rendered (s : State) : bool := negb (isSubmitted s).

Definition step (c : Component) (ev : Event) : option Component :=
  match ev with
  | ChangeEvent target value =>
      if form_rendered (state c)
      then Some (mkComponent (onChange target value (state c)) (timers c))
      else None
  | SubmitEvent =>
      if form_rendered (state c)
      then match handleSubmit (state c) with
           | Returned s => Some (mkComponent s (timers c))
           | Awaiting ms s resume => Some (mkComponent s (timers c ++ [(ms, resume)]))
           end
      else None
  | TimerFired =>
      match timers c with
      | (_, resume) :: rest => Some (mkComponent (resume (state c)) rest)
      | [] => None
      end
  end.

Fixpoint run (evs : list Event) (c : Component) : option Component :=
  match evs with
  | [] => Some c
  | ev :: evs' =>
      match step c ev with
      | Some c' => run evs' c'
      | None => None
      end
  end.

Definition mount : Component := mkComponent initialState [].

End LeadCaptureForm.

Import Js Zod LeadCaptureForm.

(** * Vocabulary of the properties *)

(** ** The issues of a parse

    The issue list only grows, so what a schema adds to it can be read
    off independently of what the list held before. *)

Section ParseVocabulary.
Context {K : Type}.
Implicit Types (pth : list K) (issues : list (ZodIssue K)).

(** The issue a check raises on [data], if it fails. *)
Definition check_issues pth (c : ZodCheck) (data : jsstring) : list (ZodIssue K) :=
  match c with
  | check_trim => []
  | check_min value msg =>
      if length data <? value
      then [mkIssue too_small pth (issue_message msg (defaultErrorMap_too_small value))]
      else []
  | check_max value msg =>
      if value <? length data
      then [mkIssue too_big pth (issue_message msg (defaultErrorMap_too_big value))]
      else []
  | check_email msg =>
      if emailRegex_test data then []
      else [mkIssue invalid_string pth (issue_message msg defaultErrorMap_invalid_email)]
  end.

(** The data the next check sees. *)
Definition check_data (c : ZodCheck) (data : jsstring) : jsstring :=
  match c with check_trim => trim data | _ => data end.

Fixpoint checks_issues pth (checks : list ZodCheck) (data : jsstring) : list (ZodIssue K) :=
  match checks with
  | [] => []
  | c :: checks' => check_issues pth c data ++ checks_issues pth checks' (check_data c data)
  end.

Fixpoint checks_data (checks : list ZodCheck) (data : jsstring) : jsstring :=
  match checks with
  | [] => data
  | c :: checks' => checks_data checks' (check_data c data)
  end.

Definition status_after (status : ParseStatus) (new : list (ZodIssue K)) : ParseStatus :=
  match new with [] => status | _ => dirty end.

(** What a schema adds to the issue list. *)
Fixpoint type_issues (t : ZodType) pth (input : option jsstring) : list (ZodIssue K) :=
  match t, input with
  | ZodString checks, Some data => checks_issues pth checks data
  | ZodString _, None => [mkIssue invalid_type pth defaultErrorMap_required]
  | ZodOptional inner, Some _ => type_issues inner pth input
  | ZodOptional _, None => []
  end.

Fixpoint object_issues (shape : list (K * ZodType)) (get : K -> option jsstring)
    : list (ZodIssue K) :=
  match shape with
  | [] => []
  | (key, t) :: shape' => type_issues t [key] (get key) ++ object_issues shape' get
  end.

End ParseVocabulary.

(** ** Validation of one field of the form *)

Section FormVocabulary.

(** The schema [formSchema] gives to a key. *)
Definition schema_of (key : Field) : ZodType :=
  match list_find (fun entry => entry.1 = key) formSchema with
  | Some (_, (_, t)) => t
  | None => ZodString []
  end.

(** The issues validation raises for one field, in the order of its
    rules, and their messages. *)
Definition field_issues (key : Field) (data : FormData) : list (ZodIssue Field) :=
  type_issues (schema_of key) [key] (get key data).

Definition field_messages (key : Field) (data : FormData) : list jsstring :=
  message <$> field_issues key data.

(** [formSchema.safeParse(formData)] *)
Definition validate (data : FormData) :=
  safeParse formSchema (fun key => get key data).

(** The fields marked as required in the form: all but the phone. *)
Definition required (key : Field) : bool :=
  match key with Phone => false | _ => true end.

(** The change events of a list of edits. *)
Definition change_events (edits : list (Field * jsstring)) : list Event :=
  (fun edit => ChangeEvent edit.1 edit.2) <$> edits.

(** A state the component can be in: one some sequence of events leads
    to from the mounted component. *)
Definition reachable (c : Component) : Prop :=
  exists evs, run evs mount = Some c.

(** The first [n] code units of [value] that belong to [phone_class], in
    one pass over [value]. *)
Fixpoint retain_upto (n : nat) (value : jsstring) : jsstring :=
  match n, value with
  | 0, _ => []
  | _, [] => []
  | S n', c :: value' =>
      if phone_class c then c :: retain_upto n' value' else retain_upto n value'
  end.

End FormVocabulary.

(** ** The rules of the fields, written out *)

Section RuleVocabulary.

(** A non-empty rule with message [required_message] and a length limit,
    both applied to the trimmed value. *)
Definition trimmed_rules (required_message : jsstring) (limit : nat) (value : jsstring)
    : list jsstring :=
  (if length (trim value) <? 1 then [required_message] else [])
  ++ (if limit <? length (trim value) then [defaultErrorMap_too_big limit] else []).

(** The e-mail rules: the shape and the length limit, on the trimmed value. *)
Definition email_rules (value : jsstring) : list jsstring :=
  (if emailRegex_test (trim value) then [] else [lit "Please enter a valid email"])
  ++ (if 255 <? length (trim value) then [defaultErrorMap_too_big 255] else []).

(** The rule of a select: a non-empty value, as it is. *)
Definition select_rule (required_message : jsstring) (value : jsstring) : list jsstring :=
  match value with [] => [required_message] | _ => [] end.

(** The rule of the phone: none when it is undefined, and else a length
    limit on the trimmed value. *)
Definition phone_rule (value : option jsstring) : list jsstring :=
  match value with
  | Some v => if 20 <? length (trim v) then [defaultErrorMap_too_big 20] else []
  | None => []
  end.

End RuleVocabulary.

(** ** Sample inputs *)

Section Samples.

(** The valid input the specification gives as its example. *)
Definition jane : FormData :=
  mkFormData (lit "Jane Doe") (lit "jane@acme.com") (lit "Acme") (Some (lit ""))
             (lit "11-50") (lit "Automate invoicing") (lit "manually") (lit "asap").

Definition editing (data : FormData) : State := mkState data ∅ false false.

(** The example with values the selects do not offer. *)
Definition jane_off_list : FormData :=
  jane |> set CompanySize (lit "a dozen") |> set CurrentWorkflow (lit "by fax")
       |> set Urgency (lit "someday").

(** The example with an e-mail of 256 letters and no [@]. *)
Definition jane_long_email : FormData :=
  jane |> set Email (replicate 256 (N_of_ascii "a")).

(** The example without its name and without its urgency. *)
Definition jane_incomplete : FormData :=
  jane |> set Name (lit "") |> set Urgency (lit "").

(** A state whose [errors] holds a message under [phone] and one under
    [name]. *)
Definition phone_error_state : State :=
  mkState jane (<[Phone := defaultErrorMap_too_big 20]> (<[Name := lit "Name is required"]> ∅))
          false false.

End Samples.

(** ** Invariants of the reachable states *)

Section InvariantVocabulary.

(** The phone is a string of at most twenty code units of the phone class. *)
Definition phone_formatted (data : FormData) : Prop :=
  exists p, phone data = Some p
            /\ Forall (fun c => phone_class c = true) p
            /\ length p <= 20.

(** Every pending timer runs the second half of [handleSubmit]. *)
Definition timers_resume (c : Component) : Prop :=
  Forall (fun timer => timer.2 = handleSubmit_resume) (timers c).

Definition invariant (c : Component) : Prop :=
  timers_resume c
  /\ (isSubmitted (state c) = true -> isSubmitting (state c) = false)
  /\ phone_formatted (formData (state c))
  /\ errors (state c) !! Phone = None.

(** A session: the user fills the form in, types a phone number with an
    extension, submits, and the timer fires. *)
Definition session : list Event :=
  [ ChangeEvent Name (lit "Jane Doe");
    ChangeEvent Email (lit "jane@acme.com");
    ChangeEvent Company (lit "Acme");
    ChangeEvent Phone (lit "+1 (555) 123-4567 ext. 89, after 5 pm");
    SubmitEvent;
    ChangeEvent CompanySize (lit "11-50");
    ChangeEvent AutomationGoal (lit "Automate invoicing");
    ChangeEvent CurrentWorkflow (lit "manually");
    ChangeEvent Urgency (lit "asap");
    SubmitEvent;
    TimerFired ].

(** The component after the first five events of the session (a failed
    submit), and after the whole of it. *)
Definition after_failed_submit : Component := default mount (run (take 5 session) mount).
Definition after_session : Component := default mount (run session mount).

End InvariantVocabulary.

(** * Further vocabulary *)

Section MoreSamples.

(** A phone number as the placeholder of the input shows it. *)
Definition placeholder_phone : jsstring := lit "+1 (555) 123-4567".

(** Twenty code units of the phone class. *)
Definition full_phone : jsstring := lit "+44 (0)20 7946 0958 ".

End MoreSamples.

Section MoreInvariants.

(** Every message [errors] holds is a non-empty string. *)
Definition messages_nonempty (errs : FormErrors) : Prop :=
  forall key m, errs !! key = Some m -> m <> [].

(** While [isSubmitting] is set, a timer is pending. *)
Definition spinner_backed (c : Component) : Prop :=
  isSubmitting (state c) = true -> timers c <> [].

(** Two edits of the name, and one of the e-mail. *)
Definition sample_edits : list (Field * jsstring) :=
  [(Name, lit "J"); (Name, lit "Ja"); (Email, lit "j")].

(** A session in which a second submit event arrives before the timer
    of the first has fired (the transition system lets submit events
    arrive while [isSubmitting] is set), up to the firing of the first
    timer. *)
Definition double_submit : list Event :=
  take 10 session ++ [SubmitEvent; TimerFired].

Definition after_double_submit : Component := default mount (run double_submit mount).

End MoreInvariants.

(** * What the component renders

    The JSX of the source as a tree of elements.  An element has its tag,
    its attributes in the order of the source, and its children; an event
    handler is an attribute whose value names the handler.  A child
    written [{v && (...)}] contributes the element when [v] is a
    non-empty string and nothing otherwise; an array child contributes
    its members. *)

Module Dom.
Import Js.

Inductive Handler := On_handleChange | On_handlePhoneChange | On_handleSubmit.

Inductive AttrValue :=
| AStr (s : jsstring)
| AUndefined
| ABool (b : bool)
| ANum (n : nat)
| AHandler (h : Handler).

#[warnings="-register-all"]
Inductive Node :=
| Elem (tag : string) (attrs : list (string * AttrValue)) (children : list Node)
| Text (s : jsstring).

(** [name="literal"] *)
Definition sattr (name value : string) : string * AttrValue := (name, AStr (lit value)).

(** [className="literal"] *)
Definition cls (value : string) : string * AttrValue := sattr "className" value.

(** [name={handler}] *)
Definition hattr (name : string) (h : Handler) : string * AttrValue := (name, AHandler h).

(** [name={v}] for a value that is a string or undefined. *)
Definition oattr (name : string) (v : option jsstring) : string * AttrValue :=
  (name, match v with Some s => AStr s | None => AUndefined end).

(** The child [{v && k(v)}]. *)
Definition jsx_and (v : option jsstring) (k : jsstring -> Node) : list Node :=
  match v with
  | Some m => if truthy m then [k m] else []
  | None => []
  end.

(** The first attribute of the given name. *)
Fixpoint attr_of (name : string) (attrs : list (string * AttrValue)) : option AttrValue :=
  match attrs with
  | [] => None
  | (n, v) :: attrs' => if String.eqb n name then Some v else attr_of name attrs'
  end.

(** The elements of a tree, parents before children, in document order. *)
Fixpoint elements (n : Node) : list (string * list (string * AttrValue) * list Node) :=
  match n with
  | Text _ => []
  | Elem tag attrs children => (tag, attrs, children) :: flat_map elements children
  end.

(** The text a node shows: the texts in it, in document order, one after
    the other. *)
Fixpoint text_of (n : Node) : jsstring :=
  match n with
  | Text s => s
  | Elem _ _ children =>
      (fix texts (l : list Node) : jsstring :=
         match l with
         | [] => []
         | [x] => text_of x
         | x :: l' => text_of x ++ texts l'
         end) children
  end.

End Dom.

Module Render.
Import Js Zod LeadCaptureForm Dom.

(** The option arrays of the source, with their labels. *)
Definition en_dash : jsstring := [0x2013%N].

Definition companySizeOptionItems : list (jsstring * jsstring) :=
  [ (lit "", lit "Select company size");
    (lit "1-10", lit "1" ++ en_dash ++ lit "10 employees");
    (lit "11-50", lit "11" ++ en_dash ++ lit "50 employees");
    (lit "51-200", lit "51" ++ en_dash ++ lit "200 employees");
    (lit "201-500", lit "201" ++ en_dash ++ lit "500 employees");
    (lit "500+", lit "500+ employees") ].

Definition workflowOptionItems : list (jsstring * jsstring) :=
  [ (lit "", lit "Select current approach");
    (lit "manually", lit "Manually");
    (lit "using-tools", lit "Using tools");
    (lit "partially-automated", lit "Partially automated");
    (lit "not-sure", lit "Not sure") ].

Definition urgencyOptionItems : list (jsstring * jsstring) :=
  [ (lit "", lit "Select urgency");
    (lit "asap", lit "ASAP");
    (lit "this-month", lit "This month");
    (lit "exploring", lit "Exploring options") ].

(** [items.map((option) => <option key=... value=...>{option.label}</option>)] *)
Definition option_elements (items : list (jsstring * jsstring)) : list Node :=
  (fun option => Elem "option" [("key", AStr option.1); ("value", AStr option.1)]
                      [Text option.2]) <$> items.

Definition error_border : jsstring :=
  lit "border-destructive focus:border-destructive focus:ring-destructive/20".

(** The template literals of the class names. *)
Definition input_class (base : string) (errs : FormErrors) (key : Field) : string * AttrValue :=
  ("className",
   AStr (lit base ++ lit " " ++ (if has_error errs key then error_border else lit ""))).

Definition select_class (errs : FormErrors) (key : Field) (value : jsstring)
    : string * AttrValue :=
  ("className",
   AStr (lit "form-select " ++ (if has_error errs key then error_border else lit "")
         ++ lit " " ++ (if negb (truthy value) then lit "text-muted-foreground" else lit ""))).

(** The paragraph under a control that shows its error. *)
Definition error_paragraph (class : string) (m : jsstring) : Node :=
  Elem "p" [cls class] [Text m].

Definition required_star : Node := Elem "span" [cls "text-destructive"] [Text (lit "*")].

(** The view that replaces the form once [isSubmitted] is set. *)
Definition submitted_view : Node :=
  Elem "div" [cls "text-center py-12 px-4 animate-fade-in-up"]
    [ Elem "div" [cls "inline-flex items-center justify-center w-16 h-16 rounded-full bg-accent mb-6"]
        [ Elem "Check" [cls "w-8 h-8 text-primary animate-check-bounce"] [] ];
      Elem "h2" [cls "text-2xl font-semibold text-foreground mb-3"]
        [ Text (lit "Thanks for reaching out!") ];
      Elem "p" [cls "text-muted-foreground max-w-md mx-auto mb-4"]
        [ Text (lit "We'll review your workflow and reach out within 24 hours.") ];
      Elem "p" [cls "text-sm text-form-helper"]
        [ Text (lit "If we need clarification, we may follow up by email.") ] ].

Definition spinner : Node :=
  Elem "span" [cls "inline-flex items-center gap-2"]
    [ Elem "svg" [cls "animate-spin h-5 w-5"; sattr "xmlns" "http://www.w3.org/2000/svg";
                  sattr "fill" "none"; sattr "viewBox" "0 0 24 24"]
        [ Elem "circle" [cls "opacity-25"; sattr "cx" "12"; sattr "cy" "12"; sattr "r" "10";
                         sattr "stroke" "currentColor"; sattr "strokeWidth" "4"] [];
          Elem "path" [cls "opacity-75"; sattr "fill" "currentColor";
                       sattr "d" "M4 12a8 8 0 018-8V0C5.373 0 0 5.373 0 12h4zm2 5.291A7.962 7.962 0 014 12H0c0 3.042 1.135 5.824 3 7.938l3-2.647z"] [] ];
      Text (lit "Submitting...") ].

(** The eight controls of the form and its submit button. *)
Definition name_control (s : State) : Node :=
  Elem "input" [sattr "type" "text"; sattr "id" "name"; sattr "name" "name";
                ("value", AStr (name (formData s))); hattr "onChange" On_handleChange;
                input_class "form-input" (errors s) Name;
                sattr "placeholder" "Your full name"; sattr "autoComplete" "name"] [].

Definition email_control (s : State) : Node :=
  Elem "input" [sattr "type" "email"; sattr "id" "email"; sattr "name" "email";
                ("value", AStr (email (formData s))); hattr "onChange" On_handleChange;
                input_class "form-input" (errors s) Email;
                sattr "placeholder" "you@company.com"; sattr "autoComplete" "email"] [].

Definition company_control (s : State) : Node :=
  Elem "input" [sattr "type" "text"; sattr "id" "company"; sattr "name" "company";
                ("value", AStr (company (formData s))); hattr "onChange" On_handleChange;
                input_class "form-input" (errors s) Company;
                sattr "placeholder" "Your company name";
                sattr "autoComplete" "organization"] [].

Definition phone_control (s : State) : Node :=
  Elem "input" [sattr "type" "tel"; sattr "id" "phone"; sattr "name" "phone";
                oattr "value" (phone (formData s)); hattr "onChange" On_handlePhoneChange;
                cls "form-input"; sattr "placeholder" "+1 (555) 123-4567";
                sattr "autoComplete" "tel"] [].

Definition companySize_control (s : State) : Node :=
  Elem "select" [sattr "id" "companySize"; sattr "name" "companySize";
                 ("value", AStr (companySize (formData s)));
                 hattr "onChange" On_handleChange;
                 select_class (errors s) CompanySize (companySize (formData s))]
    (option_elements companySizeOptionItems).

Definition automationGoal_control (s : State) : Node :=
  Elem "textarea" [sattr "id" "automationGoal"; sattr "name" "automationGoal";
                   ("value", AStr (automationGoal (formData s)));
                   hattr "onChange" On_handleChange; ("rows", ANum 3);
                   input_class "form-input resize-none" (errors s) AutomationGoal;
                   sattr "placeholder"
                     "Describe the workflow or task you'd like to automate..."] [].

Definition currentWorkflow_control (s : State) : Node :=
  Elem "select" [sattr "id" "currentWorkflow"; sattr "name" "currentWorkflow";
                 ("value", AStr (currentWorkflow (formData s)));
                 hattr "onChange" On_handleChange;
                 select_class (errors s) CurrentWorkflow (currentWorkflow (formData s))]
    (option_elements workflowOptionItems).

Definition urgency_control (s : State) : Node :=
  Elem "select" [sattr "id" "urgency"; sattr "name" "urgency";
                 ("value", AStr (urgency (formData s)));
                 hattr "onChange" On_handleChange;
                 select_class (errors s) Urgency (urgency (formData s))]
    (option_elements urgencyOptionItems).

Definition submit_button (s : State) : Node :=
  Elem "button" [sattr "type" "submit"; ("disabled", ABool (isSubmitting s));
                 cls "btn-primary"]
    [ if isSubmitting s then spinner else Text (lit "Submit") ].

(** The form, as rendered while [isSubmitted] is false. *)
Definition form_view (s : State) : Node :=
  let errors := errors s in
  Elem "form" [hattr "onSubmit" On_handleSubmit; cls "space-y-0"; ("noValidate", ABool true)]
    [ (* Name *)
      Elem "div" [cls "form-field"]
        ([ Elem "label" [sattr "htmlFor" "name"; cls "form-label"]
             [Text (lit "Name "); required_star];
           name_control s ]
         ++ jsx_and (errors !! Name) (error_paragraph "text-xs text-destructive mt-1.5"));
      (* Email *)
      Elem "div" [cls "form-field"]
        ([ Elem "label" [sattr "htmlFor" "email"; cls "form-label"]
             [Text (lit "Email "); required_star];
           email_control s ]
         ++ jsx_and (errors !! Email) (error_paragraph "text-xs text-destructive mt-1.5"));
      (* Company *)
      Elem "div" [cls "form-field"]
        ([ Elem "label" [sattr "htmlFor" "company"; cls "form-label"]
             [Text (lit "Company "); required_star];
           company_control s ]
         ++ jsx_and (errors !! Company) (error_paragraph "text-xs text-destructive mt-1.5"));
      (* Phone (Optional) *)
      Elem "div" [cls "form-field"]
        [ Elem "label" [sattr "htmlFor" "phone"; cls "form-label"]
            [Text (lit "Phone Number ");
             Elem "span" [cls "text-muted-foreground font-normal"] [Text (lit "(optional)")]];
          phone_control s ];
      (* Company Size *)
      Elem "div" [cls "form-field"]
        ([ Elem "label" [sattr "htmlFor" "companySize"; cls "form-label"]
             [Text (lit "Company Size "); required_star];
           companySize_control s ]
         ++ jsx_and (errors !! CompanySize) (error_paragraph "text-xs text-destructive mt-1.5"));
      (* Automation Goal *)
      Elem "div" [cls "form-field"]
        ([ Elem "label" [sattr "htmlFor" "automationGoal"; cls "form-label"]
             [Text (lit "What are you looking to automate? "); required_star];
           automationGoal_control s;
           Elem "p" [cls "form-helper"]
             [Text (lit "1" ++ en_dash ++ lit "2 sentences is enough.")] ]
         ++ jsx_and (errors !! AutomationGoal) (error_paragraph "text-xs text-destructive mt-1"));
      (* Current Workflow *)
      Elem "div" [cls "form-field"]
        ([ Elem "label" [sattr "htmlFor" "currentWorkflow"; cls "form-label"]
             [Text (lit "How do you currently handle this workflow? "); required_star];
           currentWorkflow_control s ]
         ++ jsx_and (errors !! CurrentWorkflow)
              (error_paragraph "text-xs text-destructive mt-1.5"));
      (* Urgency *)
      Elem "div" [cls "form-field"]
        ([ Elem "label" [sattr "htmlFor" "urgency"; cls "form-label"]
             [Text (lit "How soon do you need this? "); required_star];
           urgency_control s ]
         ++ jsx_and (errors !! Urgency) (error_paragraph "text-xs text-destructive mt-1.5"));
      (* Submit Button *)
      Elem "div" [cls "pt-4"] [ submit_button s ] ].

(** What [LeadCaptureForm] returns. *)
Definition render (s : State) : Node :=
  if isSubmitted s then submitted_view else form_view s.

(** [pages/Index.tsx]: the page around the form.  The paragraph of the
    header holds, between "workflow" and "we'll", the three characters
    U+00E2, U+20AC, U+201D, as the source file does. *)
Definition Index (s : State) : Node :=
  Elem "main" [cls "min-h-screen bg-background flex items-center justify-center px-4 py-12 sm:py-16"]
    [ Elem "div" [cls "w-full max-w-xl"]
        [ (* Header *)
          Elem "header" [cls "text-center mb-10"]
            [ Elem "h1" [cls "text-3xl sm:text-4xl font-bold text-foreground tracking-tight mb-3"]
                [Text (lit "Get AI Automation Tailored to Your Business")];
              Elem "p" [cls "text-muted-foreground text-lg"]
                [Text (lit "Tell us a bit about your workflow " ++ [0xE2%N; 0x20AC%N; 0x201D%N]
                       ++ lit " we'll review it and reach out within 24 hours.")] ];
          (* Form Card *)
          Elem "article" [cls "bg-card rounded-xl shadow-soft p-6 sm:p-10"]
            [ render s ];
          (* Footer *)
          Elem "footer" [cls "text-center mt-8"]
            [ Elem "p" [cls "text-sm text-muted-foreground"]
                [Text (lit "Your information is secure and will never be shared.")] ] ] ].

End Render.

(** * The page as the user drives it

    An event reaches a handler through the element that carries it in
    the tree just rendered: a change event through the control of the
    given [name] (for a select, with the value of one of its options), a
    submit event through the form, by a submit button of the form that
    is not disabled. *)

Module Ui.
Import Js Zod LeadCaptureForm Dom Render.

Abbreviation Element := (string * list (string * AttrValue) * list Node)%type.

Definition tag_of (e : Element) : string := e.1.1.
Definition attrs_of (e : Element) : list (string * AttrValue) := e.1.2.
Definition children_of (e : Element) : list Node := e.2.

Definition has_name (name : jsstring) (e : Element) : bool :=
  match attr_of "name" (attrs_of e) with
  | Some (AStr n) => bool_decide (n = name)
  | _ => false
  end.

(** The control of the given name: the first element of the tree whose
    [name] attribute it is. *)
Definition find_control (tree : Node) (name : jsstring) : option Element :=
  List.find (has_name name) (elements tree).

(** The [name] attributes of the source, which are the keys of FormData. *)
Definition field_name (key : Field) : string :=
  match key with
  | Name => "name" | Email => "email" | Company => "company" | Phone => "phone"
  | CompanySize => "companySize" | AutomationGoal => "automationGoal"
  | CurrentWorkflow => "currentWorkflow" | Urgency => "urgency"
  end.

Definition all_fields : list Field :=
  [Name; Email; Company; Phone; CompanySize; AutomationGoal; CurrentWorkflow; Urgency].

(** [name as keyof FormData], for a name that is a key. *)
Definition field_of_name (name : jsstring) : option Field :=
  List.find (fun key => bool_decide (lit (field_name key) = name)) all_fields.

(** The [value]s of the [option] children of a select. *)
Definition option_values (children : list Node) : list jsstring :=
  omap (fun n => match n with
                 | Elem tag attrs _ =>
                     if String.eqb tag "option"
                     then match attr_of "value" attrs with Some (AStr v) => Some v | _ => None end
                     else None
                 | Text _ => None
                 end) children.

(** The values a change event of a control can carry, bounded from
    above: one of its options for a select, any text for the other
    controls.  What a browser further takes out of the text of an input
    (line breaks, and for the type [email] the white space around the
    value) is not modelled, so an input may carry here texts that it
    never delivers on the page. *)
Definition can_carry (e : Element) (value : jsstring) : bool :=
  if String.eqb (tag_of e) "select"
  then bool_decide (value ∈ option_values (children_of e))
  else true.

(** A change event on the control named [name], carrying [value]: the
    handler in its [onChange] attribute runs on an event whose target
    has that name and that value. *)
Definition fire_change (tree : Node) (name value : jsstring) (s : State) : option State :=
  match find_control tree name with
  | Some e =>
      if can_carry e value
      then match attr_of "onChange" (attrs_of e) with
           | Some (AHandler On_handleChange) =>
               match field_of_name name with
               | Some key => Some (handleChange key value s)
               | None => None
               end
           | Some (AHandler On_handlePhoneChange) => Some (handlePhoneChange value s)
           | _ => None
           end
      else None
  | None => None
  end.

Definition is_form (e : Element) : bool :=
  String.eqb (tag_of e) "form"
  && match attr_of "onSubmit" (attrs_of e) with Some (AHandler _) => true | _ => false end.

Definition is_enabled_submit_button (e : Element) : bool :=
  String.eqb (tag_of e) "button"
  && match attr_of "type" (attrs_of e) with
     | Some (AStr t) => bool_decide (t = lit "submit")
     | _ => false
     end
  && match attr_of "disabled" (attrs_of e) with Some (ABool true) => false | _ => true end.

(** A click on the submit button: the form is submitted when it has a
    submit button that is not disabled, and its [onSubmit] handler runs. *)
Definition fire_submit (tree : Node) (s : State) : option Outcome :=
  match List.find is_form (elements tree) with
  | Some form =>
      if existsb is_enabled_submit_button (flat_map elements (children_of form))
      then match attr_of "onSubmit" (attrs_of form) with
           | Some (AHandler On_handleSubmit) => Some (handleSubmit s)
           | _ => None
           end
      else None
  | None => None
  end.

Inductive UiEvent :=
| UiChange (name value : jsstring)
| UiSubmit
| UiTimer.

Definition ui_step (c : Component) (ev : UiEvent) : option Component :=
  match ev with
  | UiChange name value =>
      match fire_change (Index (state c)) name value (state c) with
      | Some s => Some (mkComponent s (timers c))
      | None => None
      end
  | UiSubmit =>
      match fire_submit (Index (state c)) (state c) with
      | Some (Returned s) => Some (mkComponent s (timers c))
      | Some (Awaiting ms s resume) => Some (mkComponent s (timers c ++ [(ms, resume)]))
      | None => None
      end
  | UiTimer =>
      match timers c with
      | (_, resume) :: rest => Some (mkComponent (resume (state c)) rest)
      | [] => None
      end
  end.

Fixpoint ui_run (evs : list UiEvent) (c : Component) : option Component :=
  match evs with
  | [] => Some c
  | ev :: evs' =>
      match ui_step c ev with
      | Some c' => ui_run evs' c'
      | None => None
      end
  end.

Definition ui_reachable (c : Component) : Prop :=
  exists evs, ui_run evs mount = Some c.

(** The event of the transition system that a user event amounts to. *)
Definition event_of (ev : UiEvent) : option Event :=
  match ev with
  | UiChange name value =>
      match field_of_name name with
      | Some key => Some (ChangeEvent key value)
      | None => None
      end
  | UiSubmit => Some SubmitEvent
  | UiTimer => Some TimerFired
  end.

(** The values the selects offer, by key; any text for the other keys. *)
Definition offered (key : Field) (value : jsstring) : bool :=
  match key with
  | CompanySize => bool_decide (value ∈ companySizeOptions)
  | CurrentWorkflow => bool_decide (value ∈ workflowOptions)
  | Urgency => bool_decide (value ∈ urgencyOptions)
  | _ => true
  end.

(** The message shown for a key: the one [errors] holds, when it is not
    the empty string. *)
Definition shown_error (errs : FormErrors) (key : Field) : option jsstring :=
  match errs !! key with
  | Some m => if truthy m then Some m else None
  | None => None
  end.

Fixpoint starts_with (prefix s : jsstring) : bool :=
  match prefix, s with
  | [], _ => true
  | p :: prefix', c :: s' => N.eqb p c && starts_with prefix' s'
  | _ :: _, [] => false
  end.

(** The text of an error paragraph: a [p] in the destructive colour. *)
Definition error_text (n : Node) : option jsstring :=
  match n with
  | Elem tag attrs children =>
      if String.eqb tag "p"
      then match attr_of "className" attrs with
           | Some (AStr c) =>
               if starts_with (lit "text-xs text-destructive") c
               then Some (text_of n) else None
           | _ => None
           end
      else None
  | Text _ => None
  end.

Definition name_attr (e : Element) : option jsstring :=
  match attr_of "name" (attrs_of e) with Some (AStr n) => Some n | _ => None end.

(** A block of the form: for an element of class [form-field], the names
    of the controls in it and the error texts directly under it. *)
Definition block_of (e : Element) : option (list jsstring * list jsstring) :=
  match attr_of "className" (attrs_of e) with
  | Some (AStr c) =>
      if bool_decide (c = lit "form-field")
      then Some (omap name_attr (flat_map elements (children_of e)),
                 omap error_text (children_of e))
      else None
  | _ => None
  end.

Definition field_blocks (tree : Node) : list (list jsstring * list jsstring) :=
  omap block_of (elements tree).

(** The [value] attribute of the control of the given name. *)
Definition control_value (tree : Node) (name : jsstring) : option AttrValue :=
  match find_control tree name with
  | Some e => attr_of "value" (attrs_of e)
  | None => None
  end.

(** The element at the root of a node. *)
Definition root (n : Node) : list Element :=
  match n with Elem tag attrs children => [(tag, attrs, children)] | Text _ => [] end.

Definition has_any_name (e : Element) : bool :=
  match name_attr e with Some _ => true | None => false end.

Definition is_button (e : Element) : bool := String.eqb (tag_of e) "button".

(** The submit button is in the tree and disabled. *)
Definition submit_disabled (tree : Node) : bool :=
  existsb (fun e => String.eqb (tag_of e) "button"
                    && match attr_of "disabled" (attrs_of e) with
                       | Some (ABool true) => true
                       | _ => false
                       end) (elements tree).

(** A user session: typing, choosing, a submit that fails, completing the
    form, a submit that passes, and the timer. *)
Definition ui_session : list UiEvent :=
  [ UiChange (lit "name") (lit "Jane Doe");
    UiChange (lit "email") (lit "jane@acme.com");
    UiChange (lit "company") (lit "Acme");
    UiChange (lit "phone") (lit "+1 (555) 123-4567 ext. 89");
    UiChange (lit "companySize") (lit "11-50");
    UiSubmit;
    UiChange (lit "automationGoal") (lit "Automate invoicing");
    UiChange (lit "currentWorkflow") (lit "manually");
    UiChange (lit "urgency") (lit "asap");
    UiSubmit;
    UiTimer ].

Definition ui_after (n : nat) : Component := default mount (ui_run (take n ui_session) mount).

(** What holds of the timers on the page: none is pending and
    [isSubmitting] is clear (and nothing is shown as an error once the
    component is submitted), or exactly one is, of 1200 ms, and the
    component is submitting with no error shown. *)
Definition single_flight (c : Component) : Prop :=
  (timers c = [] /\ isSubmitting (state c) = false
   /\ (isSubmitted (state c) = true -> errors (state c) = ∅))
  \/ (timers c = [(1200, handleSubmit_resume)] /\ isSubmitting (state c) = true
      /\ isSubmitted (state c) = false /\ errors (state c) = ∅).

(** The three selects hold values that their option lists offer. *)
Definition selects_offered (data : FormData) : Prop :=
  companySize data ∈ companySizeOptions
  /\ currentWorkflow data ∈ workflowOptions
  /\ urgency data ∈ urgencyOptions.

(** What is shown under the control of a key: its error when the key is
    not the phone, and never anything under the phone. *)
Definition shown_under (errs : FormErrors) (key : Field) : list jsstring :=
  match key with
  | Phone => []
  | _ => option_list (shown_error errs key)
  end.

(** The value attribute that shows a stored value. *)
Definition value_attr (v : option jsstring) : AttrValue :=
  match v with Some s => AStr s | None => AUndefined end.

End Ui.


(** ** What a submit records *)

Section SubmitVocabulary.

(** The state [handleSubmit] leaves: the one it returns with when
    validation fails, and the one it waits in when validation passes. *)
Definition submitted_state (s : State) : State :=
  match handleSubmit s with
  | Returned s' => s'
  | Awaiting _ s1 _ => s1
  end.

(** [errors[key]] once [handleSubmit] has run. *)
Definition submit_error (s : State) (key : Field) : option jsstring :=
  errors (submitted_state s) !! key.

(** [handleSubmit] passed validation and went on to its wait. *)
Definition submit_accepted (s : State) : bool :=
  match handleSubmit s with
  | Awaiting _ _ _ => true
  | Returned _ => false
  end.

(** The three selects. *)
Definition is_select (key : Field) : bool :=
  match key with
  | CompanySize | CurrentWorkflow | Urgency => true
  | _ => false
  end.

(** The message of the [min(1, ...)] rule of a select, from [formSchema]. *)
Definition select_message (key : Field) : jsstring :=
  match key with
  | CompanySize => lit "Please select company size"
  | CurrentWorkflow => lit "Please select an option"
  | Urgency => lit "Please select urgency"
  | _ => []
  end.

(** The four fields whose schema starts with [trim()]: the message a
    blank value yields and the length limit, from [formSchema]. *)
Definition trimmed_field (key : Field) : option (jsstring * nat) :=
  match key with
  | Name => Some (lit "Name is required", 100)
  | Email => Some (lit "Please enter a valid email", 255)
  | Company => Some (lit "Company name is required", 100)
  | AutomationGoal => Some (lit "Please describe what you want to automate", 500)
  | _ => None
  end.

(** A string of white space only. *)
Definition blank (v : jsstring) : Prop := Forall (fun c => is_space c = true) v.

End SubmitVocabulary.

(** ** Character sets, spelled out

    The sets below are written as the characters themselves, not through
    the classes of the regular expressions of the code, so that the
    classes can be compared with them. *)

Section CharacterSets.

Definition ascii_letters : jsstring :=
  lit "ABCDEFGHIJKLMNOPQRSTUVWXYZabcdefghijklmnopqrstuvwxyz".

Definition ascii_digits : jsstring := lit "0123456789".

(** TAB, LF, VT, FF, CR, SPACE, NBSP, OGHAM SPACE MARK, EN QUAD to HAIR
    SPACE, LS, PS, NNBSP, MMSP, IDEOGRAPHIC SPACE, ZWNBSP. *)
Definition white_space_units : jsstring :=
  [0x0009; 0x000A; 0x000B; 0x000C; 0x000D; 0x0020; 0x00A0; 0x1680;
   0x2000; 0x2001; 0x2002; 0x2003; 0x2004; 0x2005; 0x2006; 0x2007; 0x2008; 0x2009; 0x200A;
   0x2028; 0x2029; 0x202F; 0x205F; 0x3000; 0xFEFF]%N.

(** What the phone field retains: digits, plus, minus, parentheses and
    white space. *)
Definition phone_characters : jsstring := ascii_digits ++ lit "+-()" ++ white_space_units.

Definition phone_character (c : char16) : bool := bool_decide (c ∈ phone_characters).

(** The subsequence of the phone characters of [value], cut after twenty. *)
Definition phone_subsequence (value : jsstring) : jsstring :=
  take 20 (filter (fun c => phone_character c = true) value).

End CharacterSets.

(** ** E-mail addresses *)

Section EmailVocabulary.

(** *** A well-formed address

    The e-mail control of the form is an [input] of type [email]; what
    such a control takes for a well-formed address is the valid e-mail
    address of the HTML standard: a local part of one or more letters,
    digits, dots and the printable characters below, an [@], and one or
    more labels separated by dots, each of 1 to 63 letters, digits and
    hyphens that neither starts nor ends with a hyphen. *)

Definition html_local_units : jsstring :=
  ascii_letters ++ ascii_digits ++ lit ".!#$%&'*+/=?^_`{|}~-".

Definition html_label (l : jsstring) : bool :=
  match head l, last l with
  | Some c, Some d =>
      bool_decide (c ∈ ascii_letters ++ ascii_digits)
      && bool_decide (d ∈ ascii_letters ++ ascii_digits)
      && forallb (fun x => bool_decide (x ∈ ascii_letters ++ ascii_digits ++ lit "-")) l
      && (length l <=? 63)
  | _, _ => false
  end.

Definition html_valid_email (s : jsstring) : bool :=
  match split_first "@" s with
  | Some (l, d) =>
      match l with [] => false | _ => forallb (fun x => bool_decide (x ∈ html_local_units)) l end
      && forallb html_label (split_all "." d)
  | None => false
  end.

(** *** The shape the e-mail rule accepts, in words

    [local@label.label. ... .tld]: the local part is made of letters,
    digits and [_ ' + - .] and ends with a letter, a digit or one of
    [_ + -]; every label is made of letters, digits and hyphens and starts
    with a letter or a digit, and there is at least one; the last piece
    is two or more letters; the address does not start with a dot and
    nowhere has two dots in a row. *)

Definition local_shape (l : jsstring) : Prop :=
  Forall (fun c => c ∈ ascii_letters ++ ascii_digits ++ lit "_'+-.") l
  /\ exists c, last l = Some c /\ c ∈ ascii_letters ++ ascii_digits ++ lit "_+-".

Definition label_shape (l : jsstring) : Prop :=
  Forall (fun c => c ∈ ascii_letters ++ ascii_digits ++ lit "-") l
  /\ exists c, head l = Some c /\ c ∈ ascii_letters ++ ascii_digits.

Definition tld_shape (t : jsstring) : Prop :=
  Forall (fun c => c ∈ ascii_letters) t /\ 2 <= length t.

(** The pieces of a text put together again, the separator between them. *)
Fixpoint join (sep : char16) (pieces : list jsstring) : jsstring :=
  match pieces with
  | [] => []
  | [p] => p
  | p :: pieces' => p ++ sep :: join sep pieces'
  end.

(** The labels, each followed by its dot. *)
Definition dotted (labels : list jsstring) : jsstring :=
  concat ((fun l => l ++ lit ".") <$> labels).

Definition email_shape (s : jsstring) : Prop :=
  exists (l : jsstring) (labels : list jsstring) (tld : jsstring),
    s = l ++ lit "@" ++ dotted labels ++ tld
    /\ local_shape l
    /\ labels <> [] /\ Forall label_shape labels
    /\ tld_shape tld
    /\ head s <> Some (N_of_ascii ".")
    /\ forall a b : jsstring, s <> a ++ lit ".." ++ b.

End EmailVocabulary.

(** ** More sample inputs *)

Section RevisionSamples.

(** The example with every select left at its placeholder. *)
Definition jane_unselected : FormData :=
  jane |> set CompanySize (lit "") |> set CurrentWorkflow (lit "") |> set Urgency (lit "").

(** A telephone number followed by a remark. *)
Definition phone_with_remark : jsstring := lit "+1 (555) 123-4567 ext. 89, after 5 pm".

(** Two addresses that are well formed and that the rule turns down. *)
Definition ampersand_address : jsstring := lit "first&last@acme.com".
Definition apostrophe_address : jsstring := lit "jane'@acme.com".

(** A name of 100 letters between 30 blanks and 50 blanks. *)
Definition padded_both_ends : jsstring :=
  replicate 30 (N_of_ascii " ") ++ replicate 100 (N_of_ascii "n")
  ++ replicate 50 (N_of_ascii " ").

(** An address between a tab and two blanks. *)
Definition padded_address : jsstring :=
  [N_of_ascii "009"] ++ lit "jane@acme.com" ++ lit "  ".

End RevisionSamples.

(** * Properties *)

(** ** Trimming *)

Section TrimFacts.

Lemma trimStart_length (s : jsstring) : length (trimStart s) <= length s.
Proof.
  induction s as [|c s IH]; simpl; [lia|].
  destruct (is_space c); simpl; lia.
Qed.

Lemma trim_length (s : jsstring) : length (trim s) <= length s.
Proof.
  unfold trim, trimEnd. rewrite length_rev.
  etrans; [apply trimStart_length|]. rewrite length_rev. apply trimStart_length.
Qed.

Lemma trimStart_all_space (s : jsstring) :
  forallb is_space s = true -> trimStart s = [].
Proof.
  induction s as [|c s IH]; simpl; [done|].
  intros [Hc Hs]%andb_true_iff. rewrite Hc. auto.
Qed.

Lemma trim_all_space (s : jsstring) : forallb is_space s = true -> trim s = [].
Proof.
  intros H. unfold trim. rewrite (trimStart_all_space s H). reflexivity.
Qed.

Lemma trimStart_first (c : char16) (s : jsstring) :
  is_space c = false -> trimStart (c :: s) = c :: s.
Proof. intros H. simpl. by rewrite H. Qed.

(** A string that neither starts nor ends with white space is its own
    trimmed form. *)
Lemma trim_id (s : jsstring) :
  (forall c, head s = Some c -> is_space c = false) ->
  (forall c, last s = Some c -> is_space c = false) ->
  trim s = s.
Proof.
  intros Hh Hl. unfold trim, trimEnd.
  assert (trimStart s = s) as ->.
  { destruct s as [|c s]; [done|]. apply trimStart_first, Hh. done. }
  destruct (rev s) as [|c r] eqn:E.
  - apply (f_equal (@rev N)) in E. rewrite rev_involutive in E. by subst.
  - rewrite trimStart_first.
    + rewrite <- E. apply rev_involutive.
    + apply Hl. rewrite <- (rev_involutive s), E. simpl.
      rewrite last_snoc. done.
Qed.

End TrimFacts.


(** ** The issues of a parse *)

Section ParseFacts.
Context {K : Type}.
Implicit Types (pth : list K) (issues : list (ZodIssue K)).
Implicit Types (shape : list (K * ZodType)) (get : K -> option jsstring).

Lemma run_check_spec pth c data status issues :
  run_check pth c (data, status, issues)
  = (check_data c data, status_after status (check_issues pth c data),
     issues ++ check_issues pth c data).
Proof.
  destruct c as [|v m|v m|m]; simpl.
  - by rewrite app_nil_r.
  - destruct (length data <? v); simpl; by rewrite ?app_nil_r.
  - destruct (v <? length data); simpl; by rewrite ?app_nil_r.
  - destruct (emailRegex_test data); simpl; by rewrite ?app_nil_r.
Qed.

Lemma status_after_app status (a b : list (ZodIssue K)) :
  status_after (status_after status a) b = status_after status (a ++ b).
Proof. destruct a, b; simpl; try reflexivity. Qed.

Lemma run_checks_spec pth checks : forall data status issues,
  status <> aborted ->
  run_checks pth checks (data, status, issues)
  = (checks_data checks data, status_after status (checks_issues pth checks data),
     issues ++ checks_issues pth checks data).
Proof.
  induction checks as [|c checks IH]; intros data status issues Hst.
  - simpl. by rewrite app_nil_r.
  - change (run_checks pth (c :: checks) (data, status, issues))
      with (run_checks pth checks (run_check pth c (data, status, issues))).
    rewrite run_check_spec, IH.
    + simpl. by rewrite status_after_app, app_assoc.
    + destruct (check_issues pth c data); simpl; [done | discriminate].
Qed.

(** The status a parse reports is [valid] exactly when it added no issue,
    and the issues it adds come after those already there. *)
Lemma parse_spec t pth input issues :
  exists status value,
    parse t pth input issues = (status, value, issues ++ type_issues t pth input)
    /\ (status = valid <-> type_issues t pth input = []).
Proof.
  induction t as [checks|inner IH]; destruct input as [data|]; simpl.
  - rewrite run_checks_spec by discriminate.
    eexists _, _. split; [reflexivity|].
    destruct (checks_issues pth checks data); simpl; split; congruence.
  - eexists _, _. split; [reflexivity|]. split; congruence.
  - exact IH.
  - eexists _, _. rewrite app_nil_r. split; [reflexivity|]. done.
Qed.

Lemma merge_status_valid (a b : ParseStatus) :
  merge_status a b = valid <-> a = valid /\ b = valid.
Proof. destruct a, b; simpl; split; (intros [??] || intros ?); (done || congruence). Qed.

Lemma parse_object_spec shape get : forall issues,
  exists status pairs,
    parse_object shape get issues = (status, pairs, issues ++ object_issues shape get)
    /\ (status = valid <-> object_issues shape get = []).
Proof.
  induction shape as [|[key t] shape IH]; intros issues; simpl.
  - eexists _, _. rewrite app_nil_r. done.
  - destruct (parse_spec t [key] (get key) issues) as (st1 & v1 & -> & Hst1).
    destruct (IH (issues ++ type_issues t [key] (get key))) as (st2 & ps & -> & Hst2).
    eexists _, _. rewrite app_assoc. split; [reflexivity|].
    rewrite merge_status_valid, Hst1, Hst2.
    split.
    + intros [-> ->]. done.
    + intros [??]%app_eq_nil. done.
Qed.

(** [safeParse] succeeds exactly when no member raises an issue, and
    otherwise reports the issues of the members in the order of the
    shape. *)
Lemma safeParse_spec shape get :
  match safeParse shape get with
  | inl _ => object_issues shape get = []
  | inr issues => issues = object_issues shape get /\ issues <> []
  end.
Proof.
  unfold safeParse.
  destruct (parse_object_spec shape get []) as (st & ps & -> & Hst). simpl.
  destruct st.
  - by apply Hst.
  - split; [done|]. intros H. apply Hst in H. discriminate.
  - split; [done|]. intros H. apply Hst in H. discriminate.
Qed.

Lemma type_issues_path t pth input :
  Forall (fun i => path i = pth) (type_issues t pth input).
Proof.
  induction t as [checks|inner IH]; destruct input as [data|]; simpl; auto.
  revert data. induction checks as [|c checks IHc]; intros data; simpl; [constructor|].
  apply Forall_app. split; [|apply IHc].
  destruct c as [|v m|v m|m]; simpl; repeat case_match; repeat constructor.
Qed.

End ParseFacts.

(** ** Phone formatting *)

Section PhoneFacts.

Lemma formatPhoneNumber_retain (value : jsstring) :
  formatPhoneNumber value = retain_upto 20 value.
Proof.
  unfold formatPhoneNumber, slice0, replace_outside_class.
  generalize 20 as n. intros n. revert n.
  induction value as [|c value IH]; intros n.
  - destruct n; reflexivity.
  - rewrite filter_cons. destruct n as [|n].
    + by rewrite take_0.
    + case_decide as Hc.
      * apply Is_true_true in Hc. simpl. rewrite Hc. by rewrite IH.
      * apply Is_true_false in Hc. simpl. rewrite Hc. apply IH.
Qed.

Lemma retain_upto_allowed (n : nat) (value : jsstring) :
  Forall (fun c => phone_class c = true) (retain_upto n value).
Proof.
  revert n. induction value as [|c value IH]; intros [|n]; simpl; try constructor.
  destruct (phone_class c) eqn:E; [constructor; auto | apply IH].
Qed.

Lemma retain_upto_length (n : nat) (value : jsstring) :
  length (retain_upto n value) <= n.
Proof.
  revert n. induction value as [|c value IH]; intros [|n]; simpl; try lia.
  destruct (phone_class c); simpl.
  - specialize (IH n). lia.
  - apply IH.
Qed.

Lemma retain_upto_sublist (n : nat) (value : jsstring) :
  retain_upto n value `sublist_of` value.
Proof.
  revert n. induction value as [|c value IH]; intros [|n]; simpl.
  - constructor.
  - constructor.
  - apply sublist_nil_l.
  - destruct (phone_class c).
    + apply sublist_skip, IH.
    + apply sublist_cons, IH.
Qed.

(** When fewer than twenty code units are kept, none that is allowed was
    dropped. *)
Lemma retain_upto_all (n : nat) (value : jsstring) :
  length (retain_upto n value) < n ->
  retain_upto n value = filter (fun c => Is_true (phone_class c)) value.
Proof.
  revert n. induction value as [|c value IH]; intros [|n]; simpl; try lia; try done.
  rewrite filter_cons. case_decide as Hc.
  - apply Is_true_true in Hc. rewrite Hc. simpl. intros H. f_equal. apply IH. lia.
  - apply Is_true_false in Hc. rewrite Hc. apply IH.
Qed.

Example formatPhoneNumber_placeholder :
  formatPhoneNumber (lit "+1 (555) 123-4567") = lit "+1 (555) 123-4567".
Proof. reflexivity. Qed.

Example formatPhoneNumber_strips_and_cuts :
  formatPhoneNumber (lit "tel: 0044-20-7946-0958 / 0044-20-7946-0959")
  = lit " 0044-20-7946-0958  ".
Proof. reflexivity. Qed.

End PhoneFacts.

(** ** Validation of the form, field by field *)

Section ValidationFacts.
Implicit Types (data : FormData) (key : Field).

Lemma object_issues_formSchema data :
  object_issues formSchema (fun key => get key data)
  = field_issues Name data ++ field_issues Email data ++ field_issues Company data
    ++ field_issues Phone data ++ field_issues CompanySize data
    ++ field_issues AutomationGoal data ++ field_issues CurrentWorkflow data
    ++ field_issues Urgency data ++ [].
Proof. reflexivity. Qed.

Lemma all_fields_nil data :
  object_issues formSchema (fun key => get key data) = []
  <-> forall key, field_issues key data = [].
Proof.
  rewrite object_issues_formSchema. split.
  - intros H key. repeat (apply app_eq_nil in H as [? H]). by destruct key.
  - intros H. by rewrite !H.
Qed.

(** Validation succeeds exactly when no field raises an issue. *)
Lemma validate_success data :
  success (validate data) = true <-> forall key, field_issues key data = [].
Proof.
  unfold validate. rewrite <- all_fields_nil.
  pose proof (safeParse_spec formSchema (fun key => get key data)) as H.
  destruct (safeParse _ _) as [pairs|issues]; simpl.
  - done.
  - destruct H as [-> H]. split; [discriminate | done].
Qed.

Lemma validate_failure data issues :
  validate data = inr issues ->
  issues = object_issues formSchema (fun key => get key data).
Proof.
  unfold validate.
  pose proof (safeParse_spec formSchema (fun key => get key data)) as H.
  intros E. rewrite E in H. apply H.
Qed.

(** What the loop over the issues leaves under a key: the message of the
    last issue of that key, or what was there before. *)
Lemma collect_lookup (issues : list (ZodIssue Field)) key : forall (m : FormErrors),
  foldl (fun fieldErrors err =>
           match head (path err) with
           | Some field => <[field := message err]> fieldErrors
           | None => fieldErrors
           end) m issues !! key
  = match last (filter (fun i => head (path i) = Some key) issues) with
    | Some i => Some (message i)
    | None => m !! key
    end.
Proof.
  induction issues as [|i issues IH]; intros m; [done|].
  simpl. rewrite IH, filter_cons. case_decide as Hi.
  - rewrite last_cons. destruct (last (filter _ issues)); [done|].
    rewrite Hi. by rewrite lookup_insert_eq.
  - destruct (last (filter _ issues)); [done|].
    destruct (head (path i)) as [field|]; [|done].
    rewrite lookup_insert_ne; [done|]. congruence.
Qed.

Lemma filter_field_issues key key' data :
  filter (fun i => head (path i) = Some key) (field_issues key' data)
  = if decide (key' = key) then field_issues key' data else [].
Proof.
  pose proof (type_issues_path (schema_of key') [key'] (get key' data)) as H.
  fold (field_issues key' data) in H.
  induction H as [|i l Hi _ IH]; [by case_decide|].
  rewrite filter_cons, IH, Hi. simpl.
  destruct (decide (key' = key)) as [->|Hne].
  - by rewrite decide_True.
  - rewrite decide_False; [done|]. congruence.
Qed.

Lemma filter_object_issues key data :
  filter (fun i => head (path i) = Some key)
         (object_issues formSchema (fun key => get key data))
  = field_issues key data.
Proof.
  rewrite object_issues_formSchema, !filter_app, !filter_field_issues.
  destruct key; simpl; by rewrite ?app_nil_r.
Qed.

(** The message recorded for a key is the last message validation has
    for it. *)
Lemma collect_fieldErrors_lookup data key :
  collect_fieldErrors (object_issues formSchema (fun key => get key data)) !! key
  = last (field_messages key data).
Proof.
  unfold collect_fieldErrors. rewrite collect_lookup, filter_object_issues.
  unfold field_messages. rewrite fmap_last.
  destruct (last (field_issues key data)); [done|]. apply lookup_empty.
Qed.

End ValidationFacts.

(** ** The rules of each field *)

Section FieldFacts.
Implicit Types (data : FormData) (key : Field).

#[local] Arguments lit : simpl never.
#[local] Arguments trim : simpl never.
#[local] Arguments Nat.ltb : simpl never.
#[local] Arguments defaultErrorMap_too_big : simpl never.
#[local] Arguments emailRegex_test : simpl never.

Lemma schema_of_Name :
  schema_of Name
  = ZodString [check_trim; check_min 1 (Some (lit "Name is required")); check_max 100 None].
Proof. reflexivity. Qed.

Lemma schema_of_Email :
  schema_of Email
  = ZodString [check_trim; check_email (Some (lit "Please enter a valid email"));
               check_max 255 None].
Proof. reflexivity. Qed.

Lemma schema_of_Company :
  schema_of Company
  = ZodString [check_trim; check_min 1 (Some (lit "Company name is required"));
               check_max 100 None].
Proof. reflexivity. Qed.

Lemma schema_of_Phone :
  schema_of Phone = ZodOptional (ZodString [check_trim; check_max 20 None]).
Proof. reflexivity. Qed.

Lemma schema_of_CompanySize :
  schema_of CompanySize = ZodString [check_min 1 (Some (lit "Please select company size"))].
Proof. reflexivity. Qed.

Lemma schema_of_AutomationGoal :
  schema_of AutomationGoal
  = ZodString [check_trim;
               check_min 1 (Some (lit "Please describe what you want to automate"));
               check_max 500 None].
Proof. reflexivity. Qed.

Lemma schema_of_CurrentWorkflow :
  schema_of CurrentWorkflow = ZodString [check_min 1 (Some (lit "Please select an option"))].
Proof. reflexivity. Qed.

Lemma schema_of_Urgency :
  schema_of Urgency = ZodString [check_min 1 (Some (lit "Please select urgency"))].
Proof. reflexivity. Qed.

Ltac unfold_field lem :=
  unfold field_messages, field_issues; rewrite lem; simpl;
  rewrite ?app_nil_r, ?fmap_app.

Lemma ltb_1_length (v : jsstring) : (length v <? 1) = match v with [] => true | _ => false end.
Proof. by destruct v. Qed.

Lemma field_messages_Name data :
  field_messages Name data = trimmed_rules (lit "Name is required") 100 (name data).
Proof. unfold_field schema_of_Name. unfold trimmed_rules. by repeat case_match. Qed.

Lemma field_messages_Email data :
  field_messages Email data = email_rules (email data).
Proof. unfold_field schema_of_Email. unfold email_rules. by repeat case_match. Qed.

Lemma field_messages_Company data :
  field_messages Company data
  = trimmed_rules (lit "Company name is required") 100 (company data).
Proof. unfold_field schema_of_Company. unfold trimmed_rules. by repeat case_match. Qed.

Lemma field_messages_Phone data :
  field_messages Phone data = phone_rule (phone data).
Proof.
  unfold field_messages, field_issues. rewrite schema_of_Phone.
  unfold phone_rule. simpl. destruct (phone data) as [v|]; simpl; [|done].
  rewrite app_nil_r. by case_match.
Qed.

Lemma field_messages_CompanySize data :
  field_messages CompanySize data
  = select_rule (lit "Please select company size") (companySize data).
Proof.
  unfold_field schema_of_CompanySize. rewrite ltb_1_length.
  unfold select_rule. by destruct (companySize data).
Qed.

Lemma field_messages_AutomationGoal data :
  field_messages AutomationGoal data
  = trimmed_rules (lit "Please describe what you want to automate") 500 (automationGoal data).
Proof. unfold_field schema_of_AutomationGoal. unfold trimmed_rules. by repeat case_match. Qed.

Lemma field_messages_CurrentWorkflow data :
  field_messages CurrentWorkflow data
  = select_rule (lit "Please select an option") (currentWorkflow data).
Proof.
  unfold_field schema_of_CurrentWorkflow. rewrite ltb_1_length.
  unfold select_rule. by destruct (currentWorkflow data).
Qed.

Lemma field_messages_Urgency data :
  field_messages Urgency data = select_rule (lit "Please select urgency") (urgency data).
Proof.
  unfold_field schema_of_Urgency. rewrite ltb_1_length.
  unfold select_rule. by destruct (urgency data).
Qed.

Lemma field_messages_nil key data :
  field_messages key data = [] <-> field_issues key data = [].
Proof. unfold field_messages. split; [apply fmap_nil_inv | by intros ->]. Qed.

(** The two rules of a trimmed field exclude each other. *)
Lemma trimmed_rules_cases (msg : jsstring) (limit : nat) (v : jsstring) :
  1 <= limit ->
  trimmed_rules msg limit v
  = if length (trim v) <? 1 then [msg]
    else if limit <? length (trim v) then [defaultErrorMap_too_big limit] else [].
Proof.
  intros Hl. unfold trimmed_rules.
  destruct (length (trim v) <? 1) eqn:E1; [|done].
  apply Nat.ltb_lt in E1.
  destruct (limit <? length (trim v)) eqn:E2; [|done].
  apply Nat.ltb_lt in E2. lia.
Qed.

End FieldFacts.

(** ** The handlers *)

Section HandlerFacts.
Implicit Types (data : FormData) (key : Field) (s : State).

Lemma get_set_eq key (v : jsstring) data : get key (set key v data) = Some v.
Proof. by destruct key. Qed.

Lemma get_set_ne key key' (v : jsstring) data :
  key' <> key -> get key' (set key v data) = get key' data.
Proof. by destruct key, key'. Qed.

(** What [handleSubmit] does when validation fails. *)
Lemma handleSubmit_invalid s :
  success (validate (formData s)) = false ->
  handleSubmit s
  = Returned (mkState (formData s)
                (collect_fieldErrors (object_issues formSchema (fun key => get key (formData s))))
                false (isSubmitted s)).
Proof.
  intros H. unfold handleSubmit. fold (validate (formData s)).
  destruct (validate (formData s)) as [pairs|issues] eqn:E; [discriminate|].
  by rewrite (validate_failure _ _ E).
Qed.

(** What [handleSubmit] does when validation passes. *)
Lemma handleSubmit_valid s :
  success (validate (formData s)) = true ->
  handleSubmit s
  = Awaiting 1200 (mkState (formData s) ∅ true (isSubmitted s)) handleSubmit_resume.
Proof.
  intros H. unfold handleSubmit. fold (validate (formData s)).
  by destruct (validate (formData s)) as [pairs|issues] eqn:E; [|discriminate].
Qed.

Lemma run_app (evs evs' : list Event) (c : Component) :
  run (evs ++ evs') c = match run evs c with Some c1 => run evs' c1 | None => None end.
Proof.
  revert c. induction evs as [|ev evs IH]; intros c; simpl; [done|].
  destruct (step c ev); [apply IH | done].
Qed.

(** A change event adds no error, and touches neither flag. *)
Lemma onChange_no_error key (value : jsstring) s :
  errors s = ∅ ->
  errors (onChange key value s) = ∅
  /\ isSubmitting (onChange key value s) = isSubmitting s
  /\ isSubmitted (onChange key value s) = isSubmitted s.
Proof.
  intros He. destruct key; simpl; try done;
    unfold handleChange, has_error; rewrite He, lookup_empty; done.
Qed.

(** While the form is rendered and shows no error, any number of edits
    goes through and leaves the errors empty, the flags and the pending
    timers as they are. *)
Lemma edits_keep_errors_empty (edits : list (Field * jsstring)) : forall c : Component,
  isSubmitted (state c) = false -> errors (state c) = ∅ ->
  exists c', run (change_events edits) c = Some c'
    /\ errors (state c') = ∅
    /\ isSubmitting (state c') = isSubmitting (state c)
    /\ isSubmitted (state c') = false
    /\ timers c' = timers c.
Proof.
  induction edits as [|[key value] edits IH]; intros c Hsub He.
  - exists c. done.
  - cbn [change_events fmap list_fmap run step fst snd]. unfold form_rendered.
    rewrite Hsub. cbn [negb].
    destruct (onChange_no_error key value (state c) He) as (He' & Hing & Hed).
    destruct (IH (mkComponent (onChange key value (state c)) (timers c)))
      as (c' & Hrun & H1 & H2 & H3 & H4).
    + cbn [state]. congruence.
    + done.
    + exists c'. split; [exact Hrun|]. cbn [state timers] in *.
      repeat split; congruence.
Qed.


End HandlerFacts.

Section ChangeExamples.

(** Outside the reachable states: in a state whose [errors] holds a
    message under [phone] (no reachable state does), a change event of
    the phone input leaves that message in place; [handlePhoneChange]
    never touches [errors]. *)
Remark phone_change_keeps_error :
  has_error (errors phone_error_state) Phone = true
  /\ errors (onChange Phone (lit "555 0100") phone_error_state) !! Phone
     = Some (defaultErrorMap_too_big 20)
  /\ get Phone (formData (onChange Phone (lit "call 555") phone_error_state))
     = Some (lit " 555").
Proof. vm_compute. auto. Qed.

End ChangeExamples.

(** ** The selects *)

Section SelectFacts.
Implicit Types (data : FormData).

(** C1, as stated, fails: a form whose three selects hold values that are
    not among the options passes validation, with no issue for any of
    the three fields, and its submit goes on to the wait. *)
Lemma off_list_values_accepted :
  success (validate jane_off_list) = true
  /\ handleSubmit (editing jane_off_list)
     = Awaiting 1200 (mkState jane_off_list ∅ true false) handleSubmit_resume
  /\ field_messages CompanySize jane_off_list = []
  /\ field_messages CurrentWorkflow jane_off_list = []
  /\ field_messages Urgency jane_off_list = []
  /\ companySize jane_off_list <> []
  /\ (companySize jane_off_list ∉ companySizeOptions)
  /\ (currentWorkflow jane_off_list ∉ workflowOptions)
  /\ (urgency jane_off_list ∉ urgencyOptions).
Proof.
  repeat split; try (vm_compute; (reflexivity || discriminate)).
  all: rewrite list_elem_of_In; vm_compute; intuition discriminate.
Qed.

End SelectFacts.

(** ** The e-mail shape *)

Section EmailFacts.

Lemma trimStart_elem (c : char16) (s : jsstring) : c ∈ trimStart s -> c ∈ s.
Proof.
  induction s as [|d s IH]; simpl; [done|].
  destruct (is_space d); [|done]. intros H. right. auto.
Qed.

Lemma trim_elem (c : char16) (s : jsstring) : c ∈ trim s -> c ∈ s.
Proof.
  unfold trim, trimEnd. intros H. apply trimStart_elem.
  rewrite list_elem_of_In in *. apply in_rev in H.
  rewrite <- list_elem_of_In in H. apply trimStart_elem in H.
  rewrite list_elem_of_In in H. by apply in_rev.
Qed.

Lemma is_char_eq (a : ascii) (c : char16) : is_char a c = true <-> c = N_of_ascii a.
Proof. unfold is_char. apply N.eqb_eq. Qed.

Lemma split_first_spec (sep : ascii) (s l r : jsstring) :
  split_first sep s = Some (l, r) -> s = l ++ N_of_ascii sep :: r.
Proof.
  revert l. induction s as [|c s IH]; intros l; simpl; [done|].
  destruct (is_char sep c) eqn:E.
  - apply is_char_eq in E. intros [= <- <-]. by subst.
  - destruct (split_first sep s) as [[l' r']|]; [|done].
    intros [= <- <-]. simpl. f_equal. by apply IH.
Qed.

Lemma split_first_None (sep : ascii) (s : jsstring) :
  N_of_ascii sep ∉ s -> split_first sep s = None.
Proof.
  induction s as [|c s IH]; simpl; [done|].
  intros H. destruct (is_char sep c) eqn:E.
  - apply is_char_eq in E. subst. exfalso. apply H. left.
  - rewrite IH; [done|]. intros ?. apply H. by right.
Qed.

Lemma split_all_nonempty (sep : ascii) (s : jsstring) : split_all sep s <> [].
Proof.
  destruct s as [|c s]; simpl; [done|].
  destruct (split_all sep s); [done|]. by destruct (is_char sep c).
Qed.

(** The last piece of a split is a suffix of the text, and the whole
    text when it is the only piece. *)
Lemma split_all_last_piece (sep : ascii) (s : jsstring) : forall ps p,
  split_all sep s = ps ++ [p] -> (exists pre, s = pre ++ p) /\ (ps = [] -> s = p).
Proof.
  induction s as [|c s IH]; intros ps p; simpl.
  - destruct ps as [|x ps]; simpl.
    + intros [= <-]. split; [by exists [] | done].
    + intros [= _ H]. by destruct ps.
  - pose proof (split_all_nonempty sep s) as Hne.
    destruct (split_all sep s) as [|p0 ps0]; [done|].
    destruct (is_char sep c).
    + destruct ps as [|x ps]; simpl; [intros [= _ H]; done|].
      intros [= <- H]. destruct (IH _ _ H) as [[pre ->] _].
      split; [by exists (c :: pre) | done].
    + destruct ps as [|x ps]; simpl.
      * intros [= <- ->]. destruct (IH [] p0 eq_refl) as [_ Hs].
        rewrite (Hs eq_refl). split; [by exists [] | done].
      * intros [= <- ->]. destruct (IH (p0 :: ps) p eq_refl) as [[pre ->] _].
        split; [by exists (c :: pre) | done].
Qed.

Ltac char_facts :=
  unfold local_char, local_last, label_char, is_alnum, is_letter, is_digit, is_space,
    is_white_space, is_line_terminator, in_range, is_char in *;
  simpl N_of_ascii in *;
  repeat match goal with
    | H : _ = true |- _ =>
        rewrite ?orb_true_iff, ?andb_true_iff, ?N.eqb_eq, ?N.leb_le in H
    end.

Lemma local_char_not_space (c : char16) : local_char c = true -> is_space c = false.
Proof.
  intros H. apply not_true_is_false. intros Hs. char_facts. lia.
Qed.

Lemma is_letter_not_space (c : char16) : is_letter c = true -> is_space c = false.
Proof.
  intros H. apply not_true_is_false. intros Hs. char_facts. lia.
Qed.

Lemma emailRegex_test_empty : emailRegex_test [] = false.
Proof. reflexivity. Qed.

(** A text without [@] does not have the e-mail shape. *)
Lemma emailRegex_test_needs_at (s : jsstring) :
  N_of_ascii "@" ∉ s -> emailRegex_test s = false.
Proof.
  intros H. unfold emailRegex_test. rewrite (split_first_None "@" s H).
  apply andb_false_r.
Qed.

(** A text of the e-mail shape neither starts nor ends with white space. *)
Lemma emailRegex_test_trimmed (s : jsstring) :
  emailRegex_test s = true -> trim s = s.
Proof.
  unfold emailRegex_test. intros [_ H]%andb_true_iff.
  destruct (split_first "@" s) as [[l d]|] eqn:E; [|done].
  apply split_first_spec in E. subst s.
  apply andb_true_iff in H as [Hl Hd].
  unfold match_local in Hl. destruct (last l) as [cl|] eqn:El; [|done].
  apply andb_true_iff in Hl as [_ Hl]. rewrite forallb_forall in Hl.
  unfold match_domain in Hd.
  destruct (rev (split_all "." d)) as [|tld labels] eqn:Er; [done|].
  destruct labels as [|lab labels]; [done|].
  apply andb_true_iff in Hd as [Htld _].
  unfold match_tld in Htld. apply andb_true_iff in Htld as [Hlen Hletters].
  apply Nat.leb_le in Hlen. rewrite forallb_forall in Hletters.
  apply (f_equal (@rev jsstring)) in Er. rewrite rev_involutive in Er.
  change (rev (tld :: lab :: labels)) with (rev (lab :: labels) ++ [tld]) in Er.
  destruct (split_all_last_piece "." d _ _ Er) as [[pre ->] _].
  apply trim_id.
  - destruct l as [|c l]; [done|]. simpl. intros ? [= <-].
    apply local_char_not_space, Hl. by left.
  - intros c Hc.
    destruct (last tld) as [ct|] eqn:Et.
    2:{ apply last_None in Et. subst tld. simpl in Hlen. lia. }
    assert (c = ct) as ->.
    { apply last_Some in Et as [tld' ->].
      rewrite (app_assoc pre tld' [ct]) in Hc.
      change (N_of_ascii "@" :: (pre ++ tld') ++ [ct])
        with ((N_of_ascii "@" :: pre ++ tld') ++ [ct]) in Hc.
      rewrite app_assoc, last_snoc in Hc. congruence. }
    apply is_letter_not_space, Hletters.
    apply last_Some in Et as [tld' ->]. apply in_or_app. right. by left.
Qed.

End EmailFacts.

(** ** Rules applied to the trimmed value *)

Section TrimmedRules.
Implicit Types (data : FormData).

Lemma trimmed_rules_blank (msg : jsstring) (limit : nat) (v : jsstring) :
  forallb is_space v = true -> trimmed_rules msg limit v = [msg].
Proof.
  intros H. unfold trimmed_rules. rewrite (trim_all_space v H). simpl.
  by destruct limit.
Qed.

Lemma trimmed_rules_pass (msg : jsstring) (limit : nat) (v : jsstring) :
  trim v <> [] -> length (trim v) <= limit -> trimmed_rules msg limit v = [].
Proof.
  intros Hne Hlen. unfold trimmed_rules.
  destruct (trim v) as [|c t] eqn:E; [done|].
  replace (length (c :: t) <? 1) with false by (symmetry; apply Nat.ltb_ge; simpl; lia).
  replace (limit <? length (c :: t)) with false by (symmetry; apply Nat.ltb_ge; lia).
  done.
Qed.

Lemma email_rules_nil (v : jsstring) :
  email_rules v = [] <-> emailRegex_test (trim v) = true /\ length (trim v) <= 255.
Proof.
  unfold email_rules. destruct (emailRegex_test (trim v)); simpl.
  - destruct (255 <? length (trim v)) eqn:E.
    + apply Nat.ltb_lt in E. split; [done|]. intros [_ ?]. lia.
    + apply Nat.ltb_ge in E. done.
  - split; [done|]. intros [? _]. done.
Qed.

End TrimmedRules.

(** ** Submission *)

Section SubmitFacts.
Implicit Types (data : FormData) (key : Field) (s : State).

(** Only the e-mail has two rules that can fail together. *)
Lemma field_messages_at_most_one key data :
  key <> Email -> length (field_messages key data) <= 1.
Proof.
  intros Hk. destruct key; try done.
  - rewrite field_messages_Name, trimmed_rules_cases by lia. repeat case_match; simpl; lia.
  - rewrite field_messages_Company, trimmed_rules_cases by lia. repeat case_match; simpl; lia.
  - rewrite field_messages_Phone. unfold phone_rule. repeat case_match; simpl; lia.
  - rewrite field_messages_CompanySize. unfold select_rule. repeat case_match; simpl; lia.
  - rewrite field_messages_AutomationGoal, trimmed_rules_cases by lia. repeat case_match; simpl; lia.
  - rewrite field_messages_CurrentWorkflow. unfold select_rule. repeat case_match; simpl; lia.
  - rewrite field_messages_Urgency. unfold select_rule. repeat case_match; simpl; lia.
Qed.

Lemma validate_failure_iff data :
  success (validate data) = false <-> exists key, field_messages key data <> [].
Proof.
  split.
  - intros H.
    destruct (decide (Forall (fun key => field_messages key data = [])
                [Name; Email; Company; Phone; CompanySize; AutomationGoal;
                 CurrentWorkflow; Urgency])) as [Hall|Hex].
    + assert (success (validate data) = true); [|congruence].
      apply validate_success. intros key. apply field_messages_nil.
      rewrite Forall_forall in Hall. apply Hall. destruct key; set_solver.
    + apply not_Forall_Exists in Hex; [|apply _].
      apply Exists_exists in Hex as (key & _ & Hkey). by exists key.
  - intros [key Hkey]. apply not_true_is_false. intros H.
    apply Hkey, field_messages_nil. by apply validate_success.
Qed.

(** C2 (amended). For every FormData value for which validation fails and
    for every field with at least one failing rule, the message recorded
    for that field in FormErrors is the message of the LAST failing rule
    of that field.  For every field but the e-mail at most one rule
    fails, so that this is also the first; for an e-mail whose trimmed
    form is longer than 255 characters and lacks the e-mail shape, the
    first failing message is the e-mail-shape message and the recorded
    one is the length message. *)
Theorem last_message_recorded s :
  success (validate (formData s)) = false ->
  exists s', handleSubmit s = Returned s'
    /\ forall key, field_messages key (formData s) <> [] ->
         errors s' !! key = last (field_messages key (formData s))
         /\ (key <> Email -> errors s' !! key = head (field_messages key (formData s)))
         /\ (key = Email ->
             emailRegex_test (trim (email (formData s))) = false ->
             255 < length (trim (email (formData s))) ->
             head (field_messages key (formData s)) = Some (lit "Please enter a valid email")
             /\ errors s' !! key = Some (defaultErrorMap_too_big 255)).
Proof.
  intros Hfail. rewrite (handleSubmit_invalid s Hfail). eexists. split; [reflexivity|].
  intros key Hkey. cbn [errors]. rewrite collect_fieldErrors_lookup.
  split; [done|]. split.
  - intros Hne. pose proof (field_messages_at_most_one key (formData s) Hne) as Hlen.
    destruct (field_messages key (formData s)) as [|m [|m' l]]; simpl in *; (done || lia).
  - intros -> Hsh Hlen. rewrite field_messages_Email. unfold email_rules.
    rewrite Hsh. apply Nat.ltb_lt in Hlen. rewrite Hlen. done.
Qed.

Lemma last_message_recorded_witness :
  success (validate jane_long_email) = false
  /\ exists s', handleSubmit (editing jane_long_email) = Returned s'
       /\ errors s' !! Email = Some (defaultErrorMap_too_big 255).
Proof.
  split; [reflexivity|].
  destruct (last_message_recorded (editing jane_long_email)) as (s' & Hs & Hrec);
    [reflexivity|].
  exists s'. split; [exact Hs|].
  destruct (Hrec Email) as (_ & _ & Hlong); [vm_compute; discriminate|].
  apply Hlong; [reflexivity | reflexivity | vm_compute; lia].
Defined.

(** C2, as stated, fails: for an e-mail of 256 letters without [@] the
    first failing rule is the e-mail shape, and the message recorded is
    that of the length limit. *)
Lemma first_message_overwritten :
  head (field_messages Email jane_long_email) = Some (lit "Please enter a valid email")
  /\ handleSubmit (editing jane_long_email)
     = Returned (mkState jane_long_email
                   {[ Email := lit "String must contain at most 255 character(s)" ]}
                   false false)
  /\ lit "String must contain at most 255 character(s)" <> lit "Please enter a valid email".
Proof.
  split; [reflexivity|]. split; [vm_compute; reflexivity | vm_compute; discriminate].
Qed.

(** An empty required field has exactly one message, which is not empty. *)
Lemma empty_required_message key data :
  required key = true -> get key data = Some [] ->
  exists m, field_messages key data = [m] /\ m <> [].
Proof.
  intros Hr Hg. destruct key; try done; simpl in Hg; injection Hg as Hg.
  - rewrite field_messages_Name, Hg. eexists. split; [reflexivity | vm_compute; discriminate].
  - rewrite field_messages_Email, Hg. eexists. split; [reflexivity | vm_compute; discriminate].
  - rewrite field_messages_Company, Hg. eexists. split; [reflexivity | vm_compute; discriminate].
  - rewrite field_messages_CompanySize, Hg.
    eexists. split; [reflexivity | vm_compute; discriminate].
  - rewrite field_messages_AutomationGoal, Hg.
    eexists. split; [reflexivity | vm_compute; discriminate].
  - rewrite field_messages_CurrentWorkflow, Hg.
    eexists. split; [reflexivity | vm_compute; discriminate].
  - rewrite field_messages_Urgency, Hg.
    eexists. split; [reflexivity | vm_compute; discriminate].
Qed.

(** C3. When some required fields are empty and every other field is
    valid, [handleSubmit] returns without waiting, with a non-empty
    message under exactly the empty required fields (none under an empty
    phone), [isSubmitting] false again, [isSubmitted] still false and
    the form data as it was. *)
Theorem empty_required_fields_reported s :
  isSubmitted s = false ->
  (forall key, required key = true ->
     get key (formData s) = Some [] \/ field_messages key (formData s) = []) ->
  field_messages Phone (formData s) = [] ->
  (exists key, required key = true /\ get key (formData s) = Some []) ->
  exists s', handleSubmit s = Returned s'
    /\ (forall key,
          match errors s' !! key with
          | Some m => m <> [] /\ required key = true /\ get key (formData s) = Some []
          | None => ~ (required key = true /\ get key (formData s) = Some [])
          end)
    /\ (phone (formData s) = Some [] -> errors s' !! Phone = None)
    /\ isSubmitting s' = false
    /\ isSubmitted s' = false
    /\ formData s' = formData s.
Proof.
  intros Hsub Hfields Hphone (key0 & Hr0 & He0).
  assert (success (validate (formData s)) = false) as Hfail.
  { apply validate_failure_iff. exists key0.
    destruct (empty_required_message key0 _ Hr0 He0) as (m & -> & _). done. }
  rewrite (handleSubmit_invalid s Hfail). eexists. split; [reflexivity|].
  cbn [errors isSubmitting isSubmitted formData].
  assert (errors_phone :
    collect_fieldErrors (object_issues formSchema (fun key => get key (formData s))) !! Phone
    = None).
  { rewrite collect_fieldErrors_lookup, Hphone. done. }
  split; [|by repeat split].
  intros key. rewrite collect_fieldErrors_lookup.
  destruct (required key) eqn:Hr.
  - destruct (Hfields key Hr) as [He|Hv].
    + destruct (empty_required_message key _ Hr He) as (m & -> & Hm). done.
    + rewrite Hv. simpl. intros [_ He].
      destruct (empty_required_message key _ Hr He) as (m & Hm & _). congruence.
  - destruct key; try done. rewrite Hphone. simpl. intros [? _]. done.
Qed.

Lemma empty_required_fields_reported_witness :
  exists s', handleSubmit (editing jane_incomplete) = Returned s'
    /\ errors s' !! Name = Some (lit "Name is required")
    /\ errors s' !! Urgency = Some (lit "Please select urgency")
    /\ errors s' !! Phone = None
    /\ errors s' !! Email = None
    /\ isSubmitting s' = false /\ isSubmitted s' = false.
Proof.
  destruct (empty_required_fields_reported (editing jane_incomplete))
    as (s' & Hs & Herr & Hph & H1 & H2 & _).
  - reflexivity.
  - intros key _. destruct key; vm_compute; auto.
  - reflexivity.
  - exists Name. split; reflexivity.
  - exists s'. split; [exact Hs|].
    rewrite handleSubmit_invalid in Hs by reflexivity. injection Hs as <-.
    repeat split; reflexivity.
Defined.

(** C4. When validation passes, [handleSubmit] sets [isSubmitting],
    clears the errors and waits for a timer of 1200 ms; when the timer
    fires, [isSubmitting] is cleared and [isSubmitted] set, and the
    errors are still empty: from the editing state the component goes to
    submitting and then to submitted, with no errors, also when fields
    are edited while the timer runs. *)
Theorem valid_submission s :
  success (validate (formData s)) = true ->
  exists s1, handleSubmit s = Awaiting 1200 s1 handleSubmit_resume
    /\ (isSubmitting s1 = true /\ isSubmitted s1 = isSubmitted s
        /\ errors s1 = ∅ /\ formData s1 = formData s)
    /\ (isSubmitting (handleSubmit_resume s1) = false
        /\ isSubmitted (handleSubmit_resume s1) = true
        /\ errors (handleSubmit_resume s1) = ∅
        /\ formData (handleSubmit_resume s1) = formData s)
    /\ (isSubmitted s = false ->
        run [SubmitEvent] (mkComponent s []) = Some (mkComponent s1 [(1200, handleSubmit_resume)])
        /\ run [SubmitEvent; TimerFired] (mkComponent s [])
           = Some (mkComponent (mkState (formData s) ∅ false true) [])
        /\ forall edits, exists c',
             run (SubmitEvent :: change_events edits ++ [TimerFired]) (mkComponent s [])
             = Some c'
             /\ errors (state c') = ∅
             /\ isSubmitting (state c') = false
             /\ isSubmitted (state c') = true
             /\ timers c' = []).
Proof.
  intros Hok. eexists. split; [by apply handleSubmit_valid|].
  split; [done|]. split; [done|].
  intros Hsub.
  assert (step (mkComponent s []) SubmitEvent
          = Some (mkComponent (mkState (formData s) ∅ true (isSubmitted s))
                              [(1200, handleSubmit_resume)])) as Hstep.
  { cbn [step state timers]. rewrite (handleSubmit_valid s Hok).
    unfold form_rendered. by rewrite Hsub. }
  split; [|split].
  - cbn [run]. by rewrite Hstep.
  - cbn [run]. rewrite Hstep. simpl. by rewrite Hsub.
  - intros edits. cbn [run]. rewrite Hstep, run_app.
    destruct (edits_keep_errors_empty edits
                (mkComponent (mkState (formData s) ∅ true (isSubmitted s))
                             [(1200, handleSubmit_resume)]))
      as (c1 & -> & He & Hing & Hed & Ht); [done | done |].
    cbn [run step]. rewrite Ht. cbn [timers] in *.
    eexists. split; [reflexivity|]. cbn [state timers]. unfold handleSubmit_resume.
    simpl. done.
Qed.

Lemma valid_submission_witness :
  success (validate jane) = true
  /\ run [SubmitEvent] (mkComponent (editing jane) [])
     = Some (mkComponent (mkState jane ∅ true false) [(1200, handleSubmit_resume)])
  /\ run [SubmitEvent; TimerFired] (mkComponent (editing jane) [])
     = Some (mkComponent (mkState jane ∅ false true) []).
Proof.
  split; [reflexivity|].
  destruct (valid_submission (editing jane)) as (s1 & Hs & _ & _ & Hrun); [reflexivity|].
  rewrite handleSubmit_valid in Hs by reflexivity. injection Hs as <-.
  destruct (Hrun eq_refl) as (H1 & H2 & _). split; [exact H1 | exact H2].
Defined.

End SubmitFacts.

(** ** The reachable states *)

Section ReachableFacts.
Implicit Types (data : FormData) (key : Field) (s : State) (c : Component).

Lemma formatPhoneNumber_formatted (value : jsstring) data :
  phone_formatted (set Phone (formatPhoneNumber value) data).
Proof.
  exists (formatPhoneNumber value). split; [done|].
  rewrite formatPhoneNumber_retain.
  split; [apply retain_upto_allowed | apply retain_upto_length].
Qed.

Lemma phone_formatted_valid data :
  phone_formatted data -> field_messages Phone data = [].
Proof.
  intros (p & Hp & _ & Hlen). rewrite field_messages_Phone, Hp. simpl.
  pose proof (trim_length p).
  replace (20 <? length (trim p)) with false; [done|].
  symmetry. apply Nat.ltb_ge. lia.
Qed.

(** The handlers never reset [isSubmitted]. *)
Lemma handlers_keep_isSubmitted :
  (forall key (value : jsstring) s, isSubmitted (onChange key value s) = isSubmitted s)
  /\ (forall s, match handleSubmit s with
                | Returned s' => isSubmitted s' = isSubmitted s
                | Awaiting _ s1 resume =>
                    isSubmitted s1 = isSubmitted s /\ forall s2, isSubmitted (resume s2) = true
                end).
Proof.
  split.
  - intros key value s. destruct key; simpl; try done;
      unfold handleChange; by case_match.
  - intros s. destruct (success (validate (formData s))) eqn:E.
    + by rewrite (handleSubmit_valid s E).
    + by rewrite (handleSubmit_invalid s E).
Qed.

Lemma onChange_invariant key (value : jsstring) s :
  phone_formatted (formData s) -> errors s !! Phone = None ->
  phone_formatted (formData (onChange key value s))
  /\ errors (onChange key value s) !! Phone = None
  /\ isSubmitting (onChange key value s) = isSubmitting s.
Proof.
  intros Hp He.
  destruct (decide (key = Phone)) as [->|Hne].
  - simpl. split; [apply formatPhoneNumber_formatted | done].
  - assert (onChange key value s = handleChange key value s) as -> by by destruct key.
    unfold handleChange.
    assert (phone (set key value (formData s)) = phone (formData s)) as Hsame
      by by destruct key.
    destruct (has_error (errors s) key); simpl.
    + split; [unfold phone_formatted; by rewrite Hsame|].
      split; [|done]. by rewrite lookup_delete_ne.
    + split; [unfold phone_formatted; by rewrite Hsame | done].
Qed.

Lemma step_invariant c ev c' : invariant c -> step c ev = Some c' -> invariant c'.
Proof.
  intros (Ht & Hf & Hp & He). destruct ev as [key value| |]; cbn [step].
  - unfold form_rendered. destruct (isSubmitted (state c)) eqn:Hsub; [done|].
    intros H. apply (inj Some) in H. subst c'.
    destruct (onChange_invariant key value _ Hp He) as (Hp' & He' & _).
    repeat split; try done. cbn [state].
    rewrite (proj1 handlers_keep_isSubmitted), Hsub. done.
  - unfold form_rendered. destruct (isSubmitted (state c)) eqn:Hsub; [done|]. cbn [negb].
    destruct (success (validate (formData (state c)))) eqn:E.
    + rewrite (handleSubmit_valid _ E). intros H. apply (inj Some) in H. subst c'.
      repeat split; cbn [state errors formData isSubmitting isSubmitted timers]; try done.
      * apply Forall_app. split; [done|]. by constructor.
      * rewrite Hsub. done.
    + rewrite (handleSubmit_invalid _ E). intros H. apply (inj Some) in H. subst c'.
      split; [done|]. split; [done|]. split; [done|].
      cbn [state errors]. rewrite collect_fieldErrors_lookup, (phone_formatted_valid _ Hp).
      done.
  - destruct (timers c) as [|[ms resume] rest] eqn:Et; [done|].
    intros H. apply (inj Some) in H. subst c'. unfold timers_resume in Ht. rewrite Et in Ht.
    apply Forall_cons in Ht as [Hr Hrest]. simpl in Hr. subst resume.
    repeat split; simpl; done.
Qed.

Lemma run_invariant evs : forall c c', invariant c -> run evs c = Some c' -> invariant c'.
Proof.
  induction evs as [|ev evs IH]; intros c c' Hinv; simpl.
  - by intros [= <-].
  - destruct (step c ev) as [c1|] eqn:E; [|done].
    apply IH. by apply (step_invariant c ev).
Qed.

Lemma mount_invariant : invariant mount.
Proof.
  split; [constructor|]. split; [done|]. split; [|done].
  exists []. split; [done|]. split; [constructor | simpl; lia].
Qed.

Lemma reachable_invariant c : reachable c -> invariant c.
Proof. intros [evs H]. exact (run_invariant evs mount c mount_invariant H). Qed.

(** Once submitted, no event sequence leads to a state that is not. *)
Lemma submitted_is_final evs : forall c c',
  invariant c -> isSubmitted (state c) = true -> run evs c = Some c' ->
  isSubmitted (state c') = true.
Proof.
  induction evs as [|ev evs IH]; intros c c' Hinv Hsub; simpl.
  - by intros [= <-].
  - destruct (step c ev) as [c1|] eqn:E; [|done].
    apply IH; [by apply (step_invariant c ev)|].
    destruct Hinv as (Ht & _).
    destruct ev as [key value| |]; simpl in E.
    + unfold form_rendered in E. by rewrite Hsub in E.
    + unfold form_rendered in E. by rewrite Hsub in E.
    + destruct (timers c) as [|[ms resume] rest] eqn:Et; [done|].
      injection E as <-. unfold timers_resume in Ht. rewrite Et in Ht.
      apply Forall_cons in Ht as [Hr _]. simpl in Hr. by subst resume.
Qed.

(** C5. In every state reachable from the mounted component by change
    events, submit events and timers firing, [isSubmitting] and
    [isSubmitted] are not both true, and once [isSubmitted] is true it
    is true in every state that follows; no handler ever sets it back to
    false. *)
Theorem submitted_exclusive_and_final c :
  reachable c ->
  ~ (isSubmitting (state c) = true /\ isSubmitted (state c) = true)
  /\ (forall evs c', run evs c = Some c' ->
        isSubmitted (state c) = true -> isSubmitted (state c') = true)
  /\ (forall key (value : jsstring), isSubmitted (onChange key value (state c))
                                     = isSubmitted (state c))
  /\ match handleSubmit (state c) with
     | Returned s' => isSubmitted s' = isSubmitted (state c)
     | Awaiting _ s1 resume =>
         isSubmitted s1 = isSubmitted (state c) /\ forall s2, isSubmitted (resume s2) = true
     end.
Proof.
  intros Hr. pose proof (reachable_invariant c Hr) as Hinv.
  split.
  { destruct Hinv as (_ & Hf & _). intros [H1 H2]. rewrite (Hf H2) in H1. done. }
  split.
  { intros evs c' Hrun Hsub. by apply (submitted_is_final evs c c'). }
  split.
  { intros key value. apply handlers_keep_isSubmitted. }
  apply handlers_keep_isSubmitted.
Qed.

Lemma submitted_exclusive_and_final_witness :
  reachable after_session
  /\ isSubmitted (state after_session) = true
  /\ isSubmitting (state after_session) = false
  /\ ~ (isSubmitting (state after_session) = true /\ isSubmitted (state after_session) = true).
Proof.
  split; [exists session; reflexivity|].
  split; [reflexivity|]. split; [reflexivity|].
  apply (submitted_exclusive_and_final after_session).
  exists session. reflexivity.
Defined.

(** Outside the reachable states the two flags can meet: [handleSubmit]
    itself, run on a submitted state with valid data, sets
    [isSubmitting].  The form is not rendered in such a state, so that no
    submit event can arrive there. *)
Remark handleSubmit_when_submitted :
  handleSubmit (mkState jane ∅ false true)
  = Awaiting 1200 (mkState jane ∅ true true) handleSubmit_resume
  /\ step (mkComponent (mkState jane ∅ false true) []) SubmitEvent = None.
Proof. split; reflexivity. Qed.

(** C9. In every reachable state the stored phone is a string of digits,
    [+], [-], white space and parentheses of length at most 20; the phone
    rule raises no issue on it, and [errors] holds nothing under
    [phone]. *)
Theorem phone_always_formatted c :
  reachable c ->
  (exists p, phone (formData (state c)) = Some p
             /\ Forall (fun ch => is_digit ch = true \/ ch = N_of_ascii "+"
                                  \/ ch = N_of_ascii "-" \/ is_space ch = true
                                  \/ ch = N_of_ascii "(" \/ ch = N_of_ascii ")") p
             /\ length p <= 20)
  /\ field_messages Phone (formData (state c)) = []
  /\ errors (state c) !! Phone = None.
Proof.
  intros Hr. destruct (reachable_invariant c Hr) as (_ & _ & Hp & He).
  split; [|split; [by apply phone_formatted_valid | done]].
  destruct Hp as (p & Hp & Hall & Hlen). exists p. split; [done|]. split; [|done].
  eapply Forall_impl; [exact Hall|].
  intros ch. unfold phone_class, is_char.
  rewrite !orb_true_iff, !N.eqb_eq. tauto.
Qed.

Lemma phone_always_formatted_witness :
  reachable after_failed_submit
  /\ phone (formData (state after_failed_submit)) = Some (lit "+1 (555) 123-4567  8")
  /\ field_messages Phone (formData (state after_failed_submit)) = []
  /\ errors (state after_failed_submit) !! Phone = None
  /\ errors (state after_failed_submit) !! Urgency = Some (lit "Please select urgency").
Proof.
  split; [exists (take 5 session); reflexivity|].
  split; [reflexivity|].
  destruct (phone_always_formatted after_failed_submit) as (_ & Hv & He);
    [exists (take 5 session); reflexivity|].
  split; [exact Hv|]. split; [exact He|]. reflexivity.
Defined.

End ReachableFacts.

(** * Further properties of the code *)

(** ** More on phone formatting *)

Section PhoneExtras.

Lemma filter_phone_class_id (value : jsstring) :
  Forall (fun c => phone_class c = true) value ->
  filter (fun c => Is_true (phone_class c)) value = value.
Proof.
  induction 1 as [|c value Hc _ IH]; [done|].
  rewrite filter_cons_True; [by rewrite IH|]. rewrite Hc. exact I.
Qed.

Lemma formatPhoneNumber_fixed (value : jsstring) :
  Forall (fun c => phone_class c = true) value ->
  length value <= 20 ->
  formatPhoneNumber value = value.
Proof.
  intros Hall Hlen. unfold formatPhoneNumber, slice0, replace_outside_class.
  rewrite (filter_phone_class_id value Hall). by apply take_ge.
Qed.

(** X2. A text of at most twenty code units, all of them digits, [+],
    [-], white space or parentheses, is returned as it is. *)
Theorem formatPhoneNumber_formatted_id (value : jsstring) :
  Forall (fun c => phone_class c = true) value ->
  length value <= 20 ->
  formatPhoneNumber value = value.
Proof.
  intros Hall Hlen. unfold formatPhoneNumber, slice0, replace_outside_class.
  rewrite (filter_phone_class_id value Hall). by apply take_ge.
Qed.

Lemma formatPhoneNumber_formatted_id_witness :
  Forall (fun c => phone_class c = true) placeholder_phone
  /\ length placeholder_phone <= 20
  /\ formatPhoneNumber placeholder_phone = placeholder_phone.
Proof.
  assert (Forall (fun c => phone_class c = true) placeholder_phone) as Hall.
  { apply Forall_forall. intros c Hc. apply list_elem_of_In in Hc.
    vm_compute in Hc. intuition (subst; reflexivity). }
  assert (length placeholder_phone <= 20) as Hlen by (vm_compute; lia).
  split; [exact Hall|]. split; [exact Hlen|].
  exact (formatPhoneNumber_formatted_id placeholder_phone Hall Hlen).
Defined.

(** X1. Formatting is idempotent: formatting a formatted phone number
    changes nothing. *)
Theorem formatPhoneNumber_idempotent (value : jsstring) :
  formatPhoneNumber (formatPhoneNumber value) = formatPhoneNumber value.
Proof.
  apply formatPhoneNumber_fixed; rewrite formatPhoneNumber_retain.
  - apply retain_upto_allowed.
  - apply retain_upto_length.
Qed.

(** X3. A code unit outside the phone class has no influence on the
    result, wherever it stands in the input. *)
Theorem formatPhoneNumber_ignores_disallowed (before after : jsstring) (c : char16) :
  phone_class c = false ->
  formatPhoneNumber (before ++ c :: after) = formatPhoneNumber (before ++ after).
Proof.
  intros Hc. unfold formatPhoneNumber, slice0, replace_outside_class.
  rewrite !filter_app, filter_cons_False; [done|]. rewrite Hc. intros [].
Qed.

Lemma formatPhoneNumber_ignores_disallowed_witness :
  phone_class (N_of_ascii "x") = false
  /\ formatPhoneNumber (lit "555" ++ N_of_ascii "x" :: lit "0100")
     = formatPhoneNumber (lit "555" ++ lit "0100").
Proof.
  split; [reflexivity|].
  apply (formatPhoneNumber_ignores_disallowed (lit "555") (lit "0100") (N_of_ascii "x")).
  reflexivity.
Defined.

(** X4. Once twenty code units are kept, nothing that follows in the
    input changes the result: typing on at the end of a full phone field
    has no effect. *)
Theorem formatPhoneNumber_full (value more : jsstring) :
  length (formatPhoneNumber value) = 20 ->
  formatPhoneNumber (value ++ more) = formatPhoneNumber value.
Proof.
  unfold formatPhoneNumber, slice0, replace_outside_class.
  rewrite length_take, filter_app. intros Hlen.
  apply take_app_le. lia.
Qed.

Lemma formatPhoneNumber_full_witness :
  length (formatPhoneNumber full_phone) = 20
  /\ formatPhoneNumber (full_phone ++ lit "12345") = formatPhoneNumber full_phone.
Proof.
  split; [reflexivity|].
  apply (formatPhoneNumber_full full_phone (lit "12345")). reflexivity.
Defined.

End PhoneExtras.

(** ** More on the change handlers *)

Section ChangeExtras.
Implicit Types (data : FormData) (key : Field) (s : State) (c : Component).

Lemma set_set key (v1 v2 : jsstring) data : set key v2 (set key v1 data) = set key v2 data.
Proof. by destruct key. Qed.

Lemma set_commute key1 key2 (v1 v2 : jsstring) data :
  key1 <> key2 -> set key1 v1 (set key2 v2 data) = set key2 v2 (set key1 v1 data).
Proof. by destruct key1, key2. Qed.

Lemma has_error_delete_eq (errs : FormErrors) key : has_error (delete key errs) key = false.
Proof. unfold has_error. by rewrite lookup_delete_eq. Qed.

Lemma has_error_delete_ne (errs : FormErrors) key key' :
  key <> key' -> has_error (delete key errs) key' = has_error errs key'.
Proof. intros H. unfold has_error. by rewrite lookup_delete_ne. Qed.

(** X5. [handleChange], in every state and for every key: the new value
    is stored under the key as it was typed (untrimmed), all other values
    stay, the errors of all other keys stay, the key's own error is
    removed when it is a non-empty message and left alone otherwise, and
    both flags stay. *)
Theorem handleChange_frame key (value : jsstring) s :
  get key (formData (handleChange key value s)) = Some value
  /\ (forall key', key' <> key ->
        get key' (formData (handleChange key value s)) = get key' (formData s)
        /\ errors (handleChange key value s) !! key' = errors s !! key')
  /\ errors (handleChange key value s) !! key
     = (if has_error (errors s) key then None else errors s !! key)
  /\ isSubmitting (handleChange key value s) = isSubmitting s
  /\ isSubmitted (handleChange key value s) = isSubmitted s.
Proof.
  unfold handleChange. destruct (has_error (errors s) key) eqn:E; cbn.
  - split; [apply get_set_eq|]. split; [|by rewrite lookup_delete_eq].
    intros key' Hne. split; [by apply get_set_ne | by rewrite lookup_delete_ne].
  - split; [apply get_set_eq|]. split; [|done].
    intros key' Hne. split; [by apply get_set_ne | done].
Qed.

Lemma onChange_errors key (value : jsstring) s :
  errors (onChange key value s) = errors s
  \/ errors (onChange key value s) = delete key (errors s).
Proof.
  destruct key; simpl; try (by left);
    unfold handleChange; destruct (has_error _ _); simpl; auto.
Qed.

Lemma onChange_flags key (value : jsstring) s :
  isSubmitting (onChange key value s) = isSubmitting s
  /\ isSubmitted (onChange key value s) = isSubmitted s.
Proof.
  destruct key; simpl; try done; unfold handleChange; by destruct (has_error _ _).
Qed.

(** X6. Editing never produces an error: after any sequence of change
    events the errors are a part of what they were, and the flags and
    the pending timers are the same. *)
Theorem edits_only_remove_errors (edits : list (Field * jsstring)) : forall c c',
  run (change_events edits) c = Some c' ->
  errors (state c') ⊆ errors (state c)
  /\ isSubmitting (state c') = isSubmitting (state c)
  /\ isSubmitted (state c') = isSubmitted (state c)
  /\ timers c' = timers c.
Proof.
  induction edits as [|[key value] edits IH]; intros c c'.
  - intros H. apply (inj Some) in H. by subst c'.
  - cbn [change_events fmap list_fmap run step fst snd].
    destruct (form_rendered (state c)); [|done].
    intros Hrun. apply IH in Hrun as (Hsub & Hing & Hed & Ht). cbn [state timers] in *.
    split.
    + etrans; [exact Hsub|].
      destruct (onChange_errors key value (state c)) as [-> | ->];
        [done | apply delete_subseteq].
    + destruct (onChange_flags key value (state c)) as [H1 H2].
      rewrite Hing, Hed, Ht. done.
Qed.

Lemma edits_only_remove_errors_witness :
  exists c', run (change_events sample_edits) after_failed_submit = Some c'
    /\ errors (state c') ⊆ errors (state after_failed_submit)
    /\ errors (state c') !! Name = None
    /\ errors (state after_failed_submit) !! Name = None
    /\ errors (state c') !! Urgency = Some (lit "Please select urgency").
Proof.
  destruct (run (change_events sample_edits) after_failed_submit) as [c'|] eqn:E;
    [|vm_compute in E; discriminate].
  exists c'. split; [reflexivity|].
  split; [exact (proj1 (edits_only_remove_errors sample_edits _ _ E))|].
  vm_compute in E. apply (inj Some) in E. subst c'.
  repeat split; reflexivity.
Defined.

(** X7. The last edit of a field wins: two change events of the same
    field in a row have the effect of the second alone. *)
Theorem onChange_overwrite key (v1 v2 : jsstring) s :
  onChange key v2 (onChange key v1 s) = onChange key v2 s.
Proof.
  destruct (decide (key = Phone)) as [->|Hne].
  - unfold onChange, handlePhoneChange, setFormData.
    cbn [formData errors isSubmitting isSubmitted]. by rewrite set_set.
  - assert (forall v s0, onChange key v s0 = handleChange key v s0) as Hh
      by (intros; by destruct key).
    rewrite !Hh. unfold handleChange, setFormData, setErrors.
    destruct (has_error (errors s) key) eqn:E;
      cbn [formData errors isSubmitting isSubmitted].
    + rewrite has_error_delete_eq. by rewrite set_set.
    + rewrite E. by rewrite set_set.
Qed.

(** X8. Edits of two different fields commute. *)
Theorem onChange_commute key1 key2 (v1 v2 : jsstring) s :
  key1 <> key2 ->
  onChange key1 v1 (onChange key2 v2 s) = onChange key2 v2 (onChange key1 v1 s).
Proof.
  intros Hne.
  assert (forall key v s0, key <> Phone -> onChange key v s0 = handleChange key v s0) as Hh
    by (intros key ? ? ?; by destruct key).
  assert (forall key v s0, errors (handlePhoneChange v s0) = errors s0
            /\ has_error (errors (handlePhoneChange v s0)) key = has_error (errors s0) key)
    as Hp by done.
  destruct (decide (key1 = Phone)) as [->|H1]; destruct (decide (key2 = Phone)) as [->|H2];
    [done | | |].
  - rewrite !(Hh key2) by done. unfold onChange, handleChange, handlePhoneChange,
      setFormData, setErrors. cbn [formData errors isSubmitting isSubmitted].
    destruct (has_error (errors s) key2); cbn [formData errors isSubmitting isSubmitted];
      f_equal; by apply set_commute.
  - rewrite !(Hh key1) by done. unfold onChange, handleChange, handlePhoneChange,
      setFormData, setErrors. cbn [formData errors isSubmitting isSubmitted].
    destruct (has_error (errors s) key1); cbn [formData errors isSubmitting isSubmitted];
      f_equal; by apply set_commute.
  - rewrite !(Hh key1), !(Hh key2) by done. unfold handleChange, setFormData, setErrors.
    destruct (has_error (errors s) key1) eqn:E1, (has_error (errors s) key2) eqn:E2;
      cbn [formData errors isSubmitting isSubmitted];
      rewrite ?has_error_delete_ne, ?E1, ?E2 by done;
      cbn [formData errors isSubmitting isSubmitted];
      f_equal; try (by apply set_commute).
    apply delete_delete.
Qed.

Lemma onChange_commute_witness :
  Name <> Phone
  /\ onChange Name (lit "Jane") (onChange Phone (lit "555 x") phone_error_state)
     = onChange Phone (lit "555 x") (onChange Name (lit "Jane") phone_error_state).
Proof.
  split; [discriminate|]. apply onChange_commute. discriminate.
Defined.

End ChangeExtras.

(** ** More on validation and submission *)

Section SubmitExtras.
Implicit Types (data : FormData) (key : Field) (s : State) (c : Component).

Lemma trimmed_rules_nil (msg : jsstring) (limit : nat) (v : jsstring) :
  trimmed_rules msg limit v = [] <-> 1 <= length (trim v) <= limit.
Proof.
  unfold trimmed_rules.
  destruct (length (trim v) <? 1) eqn:E1; destruct (limit <? length (trim v)) eqn:E2;
    simpl; rewrite ?Nat.ltb_lt, ?Nat.ltb_ge in *; split; (done || lia).
Qed.

Lemma select_rule_nil (msg : jsstring) (v : jsstring) : select_rule msg v = [] <-> v <> [].
Proof. unfold select_rule. destruct v; split; done. Qed.

Lemma phone_rule_nil (p : option jsstring) :
  phone_rule p = [] <-> forall v, p = Some v -> length (trim v) <= 20.
Proof.
  unfold phone_rule. destruct p as [v|].
  - destruct (20 <? length (trim v)) eqn:E; rewrite ?Nat.ltb_lt, ?Nat.ltb_ge in E.
    + split; [done|]. intros H. specialize (H v eq_refl). lia.
    + split; [|done]. intros _ ? [= <-]. done.
  - split; done.
Qed.

(** X9. The exact acceptance criterion of the form: validation succeeds
    exactly when the trimmed name and the trimmed company have 1 to 100
    code units, the trimmed goal 1 to 500, the trimmed e-mail has the
    e-mail shape and at most 255, the trimmed phone (when there is one)
    at most 20, and the three selects are not empty. *)
Theorem validate_accepts_iff data :
  success (validate data) = true
  <-> 1 <= length (trim (name data)) <= 100
      /\ (emailRegex_test (trim (email data)) = true /\ length (trim (email data)) <= 255)
      /\ 1 <= length (trim (company data)) <= 100
      /\ (forall p, phone data = Some p -> length (trim p) <= 20)
      /\ companySize data <> []
      /\ 1 <= length (trim (automationGoal data)) <= 500
      /\ currentWorkflow data <> []
      /\ urgency data <> [].
Proof.
  rewrite validate_success.
  rewrite <- (trimmed_rules_nil (lit "Name is required")),
          <- (trimmed_rules_nil (lit "Company name is required")),
          <- (trimmed_rules_nil (lit "Please describe what you want to automate")),
          <- email_rules_nil, <- phone_rule_nil,
          <- (select_rule_nil (lit "Please select company size")),
          <- (select_rule_nil (lit "Please select an option")),
          <- (select_rule_nil (lit "Please select urgency")).
  rewrite <- field_messages_Name, <- field_messages_Email, <- field_messages_Company,
          <- field_messages_Phone, <- field_messages_CompanySize,
          <- field_messages_AutomationGoal, <- field_messages_CurrentWorkflow,
          <- field_messages_Urgency.
  split.
  - intros H. repeat split; apply field_messages_nil, H.
  - intros (?&?&?&?&?&?&?&?) key. apply field_messages_nil. by destruct key.
Qed.

Lemma defaultErrorMap_too_big_nonempty (n : nat) : defaultErrorMap_too_big n <> [].
Proof. unfold defaultErrorMap_too_big. simpl. discriminate. Qed.

(** No message of the schema is the empty string. *)
Lemma field_messages_nonempty key data (m : jsstring) :
  m ∈ field_messages key data -> m <> [].
Proof.
  assert (forall msg limit v, msg <> [] -> m ∈ trimmed_rules msg limit v -> m <> []) as Ht.
  { intros msg limit v Hmsg. unfold trimmed_rules.
    intros [H|H]%elem_of_app; repeat case_match;
      apply list_elem_of_singleton in H || apply elem_of_nil in H; try done; subst;
      [done | apply defaultErrorMap_too_big_nonempty]. }
  assert (forall msg v, msg <> [] -> m ∈ select_rule msg v -> m <> []) as Hs.
  { intros msg v Hmsg. unfold select_rule. destruct v; [|by intros ?%elem_of_nil].
    intros ->%list_elem_of_singleton. done. }
  destruct key.
  - rewrite field_messages_Name. by apply Ht.
  - rewrite field_messages_Email. unfold email_rules.
    intros [H|H]%elem_of_app; repeat case_match;
      apply list_elem_of_singleton in H || apply elem_of_nil in H; try done; subst;
      [done | apply defaultErrorMap_too_big_nonempty].
  - rewrite field_messages_Company. by apply Ht.
  - rewrite field_messages_Phone. unfold phone_rule. repeat case_match;
      try (by intros ?%elem_of_nil).
    intros ->%list_elem_of_singleton. apply defaultErrorMap_too_big_nonempty.
  - rewrite field_messages_CompanySize. by apply Hs.
  - rewrite field_messages_AutomationGoal. by apply Ht.
  - rewrite field_messages_CurrentWorkflow. by apply Hs.
  - rewrite field_messages_Urgency. by apply Hs.
Qed.

Lemma collect_messages_nonempty data :
  messages_nonempty (collect_fieldErrors (object_issues formSchema (fun key => get key data))).
Proof.
  intros key m. rewrite collect_fieldErrors_lookup. intros Hl.
  apply (field_messages_nonempty key data).
  apply last_Some in Hl as [l' ->]. apply elem_of_app. right. by left.
Qed.

(** X10. After a failed submit, for every invalid form: [errors] has an
    entry exactly for the fields with a failing rule, every entry is a
    non-empty message of that field, and there is at least one entry. *)
Theorem failed_submit_errors s :
  success (validate (formData s)) = false ->
  exists s', handleSubmit s = Returned s'
    /\ (forall key, errors s' !! key = None <-> field_messages key (formData s) = [])
    /\ (forall key m, errors s' !! key = Some m ->
          m <> [] /\ m ∈ field_messages key (formData s))
    /\ errors s' <> ∅.
Proof.
  intros Hfail. rewrite (handleSubmit_invalid s Hfail). eexists. split; [reflexivity|].
  cbn [errors].
  split; [|split].
  - intros key. rewrite collect_fieldErrors_lookup. apply last_None.
  - intros key m Hl. split; [by apply (collect_messages_nonempty (formData s) key)|].
    rewrite collect_fieldErrors_lookup in Hl.
    apply last_Some in Hl as [l' ->]. apply elem_of_app. right. by left.
  - apply validate_failure_iff in Hfail as [key Hkey]. intros He.
    apply Hkey. apply last_None. rewrite <- collect_fieldErrors_lookup, He.
    apply lookup_empty.
Qed.

Lemma failed_submit_errors_witness :
  success (validate jane_long_email) = false
  /\ exists s', handleSubmit (editing jane_long_email) = Returned s'
       /\ errors s' !! Name = None
       /\ errors s' <> ∅.
Proof.
  split; [reflexivity|].
  destruct (failed_submit_errors (editing jane_long_email)) as (s' & Hs & Hnone & _ & Hne);
    [reflexivity|].
  exists s'. split; [exact Hs|]. split; [|exact Hne].
  apply Hnone. reflexivity.
Defined.

(** X11. Submitting an unchanged invalid form again changes nothing: the
    state a failed submit returns is a fixed point of [handleSubmit]. *)
Theorem handleSubmit_resubmit s s' :
  handleSubmit s = Returned s' -> handleSubmit s' = Returned s'.
Proof.
  destruct (success (validate (formData s))) eqn:E.
  - by rewrite (handleSubmit_valid s E).
  - rewrite (handleSubmit_invalid s E). intros H. injection H as <-.
    by rewrite handleSubmit_invalid.
Qed.

Lemma handleSubmit_resubmit_witness :
  exists s', handleSubmit (editing jane_incomplete) = Returned s'
    /\ handleSubmit s' = Returned s'.
Proof.
  destruct (handleSubmit (editing jane_incomplete)) as [s'|ms s1 k] eqn:E;
    [|vm_compute in E; discriminate].
  exists s'. split; [reflexivity|]. exact (handleSubmit_resubmit _ _ E).
Defined.

(** X12. What [handleSubmit] does depends on the form data and on
    [isSubmitted] only: the errors shown before and the old value of
    [isSubmitting] leave no trace. *)
Theorem handleSubmit_forgets_errors s (errs : FormErrors) (submitting : bool) :
  handleSubmit (mkState (formData s) errs submitting (isSubmitted s)) = handleSubmit s.
Proof.
  destruct (success (validate (formData s))) eqn:E.
  - by rewrite (handleSubmit_valid s E), handleSubmit_valid.
  - by rewrite (handleSubmit_invalid s E), handleSubmit_invalid.
Qed.

End SubmitExtras.

(** ** More on the reachable states *)

Section ReachableExtras.
Implicit Types (data : FormData) (key : Field) (s : State) (c : Component).

Lemma step_more_invariants c ev c' :
  invariant c -> messages_nonempty (errors (state c)) /\ spinner_backed c ->
  step c ev = Some c' ->
  messages_nonempty (errors (state c')) /\ spinner_backed c'.
Proof.
  intros (Ht & Hf & _) [Hm Hs]. unfold spinner_backed in *.
  destruct ev as [key value| |]; cbn [step].
  - destruct (form_rendered (state c)); [|done].
    intros H. apply (inj Some) in H. subst c'. cbn [state timers]. split.
    + intros key' m Hl. apply (Hm key').
      destruct (onChange_errors key value (state c)) as [He|He]; rewrite He in Hl; [done|].
      apply lookup_delete_Some in Hl. tauto.
    + by rewrite (proj1 (onChange_flags key value (state c))).
  - destruct (form_rendered (state c)); [|done].
    destruct (success (validate (formData (state c)))) eqn:E.
    + rewrite (handleSubmit_valid _ E). intros H. apply (inj Some) in H. subst c'.
      cbn [state errors timers]. split.
      * intros key' m. by rewrite lookup_empty.
      * intros _. by destruct (timers c).
    + rewrite (handleSubmit_invalid _ E). intros H. apply (inj Some) in H. subst c'.
      cbn [state errors timers isSubmitting]. split; [|done].
      apply collect_messages_nonempty.
  - destruct (timers c) as [|[ms resume] rest] eqn:Et; [done|].
    intros H. apply (inj Some) in H. subst c'.
    unfold timers_resume in Ht. rewrite Et in Ht.
    apply Forall_cons in Ht as [Hr _]. cbn [snd] in Hr. subst resume.
    cbn [state timers]. split; [exact Hm | done].
Qed.

Lemma run_more_invariants evs : forall c c',
  invariant c -> messages_nonempty (errors (state c)) /\ spinner_backed c ->
  run evs c = Some c' ->
  messages_nonempty (errors (state c')) /\ spinner_backed c'.
Proof.
  induction evs as [|ev evs IH]; intros c c' Hinv Hmore; cbn [run].
  - intros H. apply (inj Some) in H. by subst c'.
  - destruct (step c ev) as [c1|] eqn:E; [|done].
    apply IH; [by apply (step_invariant c ev) | by apply (step_more_invariants c ev)].
Qed.

Lemma reachable_more_invariants c :
  reachable c -> messages_nonempty (errors (state c)) /\ spinner_backed c.
Proof.
  intros [evs H]. apply (run_more_invariants evs mount c mount_invariant); [|done].
  split; [|done]. intros key m. cbn. by rewrite lookup_empty.
Qed.

(** X24. Whatever is typed into the phone input, the stored phone passes
    its rule right away, in every state: the length limit of the schema
    cannot fail on what [handlePhoneChange] stores; and the handler
    leaves the errors, the other values and the flags alone. *)
Theorem handlePhoneChange_valid (value : jsstring) s :
  field_messages Phone (formData (handlePhoneChange value s)) = []
  /\ phone (formData (handlePhoneChange value s)) = Some (formatPhoneNumber value)
  /\ errors (handlePhoneChange value s) = errors s
  /\ (forall key, key <> Phone ->
        get key (formData (handlePhoneChange value s)) = get key (formData s))
  /\ isSubmitting (handlePhoneChange value s) = isSubmitting s
  /\ isSubmitted (handlePhoneChange value s) = isSubmitted s.
Proof.
  split.
  { apply phone_formatted_valid. apply formatPhoneNumber_formatted. }
  repeat split. intros key Hne.
  exact (get_set_ne Phone key (formatPhoneNumber value) (formData s) Hne).
Qed.

(** X13. In every reachable state every message [errors] holds is a
    non-empty string, so that the truthiness tests of the source
    ([errors[name]] in [handleChange]) are true exactly for the keys
    [errors] has. *)
Theorem reachable_errors_truthy c :
  reachable c ->
  forall key, has_error (errors (state c)) key = true <-> is_Some (errors (state c) !! key).
Proof.
  intros Hr key. destruct (reachable_more_invariants c Hr) as [Hm _].
  unfold has_error. destruct (errors (state c) !! key) as [m|] eqn:E.
  - specialize (Hm key m E). destruct m; [done|]. split; [by eexists | done].
  - split; [done | by intros [? ?]].
Qed.

Lemma reachable_errors_truthy_witness :
  reachable after_failed_submit
  /\ has_error (errors (state after_failed_submit)) Urgency = true
  /\ is_Some (errors (state after_failed_submit) !! Urgency).
Proof.
  assert (reachable after_failed_submit) as Hr by (exists (take 5 session); reflexivity).
  split; [exact Hr|]. split; [reflexivity|].
  apply (reachable_errors_truthy after_failed_submit Hr Urgency). reflexivity.
Defined.

(** X14. The spinner never hangs: in every reachable state in which
    [isSubmitting] is set a timer is pending, and when it fires the
    component is submitted, with [isSubmitting] cleared and the form
    data and the errors as they were. *)
Theorem submitting_completes c :
  reachable c -> isSubmitting (state c) = true ->
  exists c', step c TimerFired = Some c'
    /\ isSubmitted (state c') = true
    /\ isSubmitting (state c') = false
    /\ formData (state c') = formData (state c)
    /\ errors (state c') = errors (state c).
Proof.
  intros Hr Hing. destruct (reachable_more_invariants c Hr) as [_ Hs].
  destruct (reachable_invariant c Hr) as (Ht & _).
  specialize (Hs Hing). cbn [step].
  destruct (timers c) as [|[ms resume] rest] eqn:Et; [done|].
  unfold timers_resume in Ht. rewrite Et in Ht.
  apply Forall_cons in Ht as [Hres _]. cbn [snd] in Hres. subst resume.
  eexists. split; [reflexivity|]. done.
Qed.

Lemma submitting_completes_witness :
  reachable (default mount (run (take 10 session) mount))
  /\ isSubmitting (state (default mount (run (take 10 session) mount))) = true
  /\ exists c', step (default mount (run (take 10 session) mount)) TimerFired = Some c'
       /\ isSubmitted (state c') = true.
Proof.
  assert (reachable (default mount (run (take 10 session) mount))) as Hr
    by (exists (take 10 session); reflexivity).
  split; [exact Hr|]. split; [reflexivity|].
  destruct (submitting_completes _ Hr eq_refl) as (c' & Hstep & Hsub & _).
  exists c'. split; [exact Hstep | exact Hsub].
Defined.

(** X15. The submitted state is terminal: from a reachable state with
    [isSubmitted] set, only timers can still fire, and whatever follows
    leaves the form data and the errors as they are and [isSubmitting]
    cleared. *)
Theorem submitted_is_frozen c :
  reachable c -> isSubmitted (state c) = true ->
  forall evs c', run evs c = Some c' ->
    Forall (fun ev => ev = TimerFired) evs
    /\ formData (state c') = formData (state c)
    /\ errors (state c') = errors (state c)
    /\ isSubmitting (state c') = false
    /\ isSubmitted (state c') = true.
Proof.
  intros Hr Hsub evs. pose proof (reachable_invariant c Hr) as Hinv. clear Hr.
  revert c Hsub Hinv. induction evs as [|ev evs IH]; intros c Hsub Hinv c'; cbn [run].
  - intros H. apply (inj Some) in H. subst c'.
    destruct Hinv as (_ & Hf & _). rewrite (Hf Hsub). done.
  - destruct (step c ev) as [c1|] eqn:E; [|done].
    pose proof (step_invariant c ev c1 Hinv E) as Hinv1.
    destruct ev as [key value| |]; cbn [step] in E.
    + unfold form_rendered in E. by rewrite Hsub in E.
    + unfold form_rendered in E. by rewrite Hsub in E.
    + destruct (timers c) as [|[ms resume] rest] eqn:Et; [done|].
      apply (inj Some) in E. subst c1.
      destruct Hinv as (Ht & _). unfold timers_resume in Ht. rewrite Et in Ht.
      apply Forall_cons in Ht as [Hres _]. cbn [snd] in Hres. subst resume.
      intros Hrun.
      destruct (IH (mkComponent (handleSubmit_resume (state c)) rest) eq_refl Hinv1 c' Hrun)
        as (Hall & Hd & He & Hing & Hed).
      split; [by constructor | done].
Qed.

Lemma submitted_is_frozen_witness :
  reachable after_double_submit
  /\ isSubmitted (state after_double_submit) = true
  /\ run [ChangeEvent Name (lit "Joe")] after_double_submit = None
  /\ run [SubmitEvent] after_double_submit = None
  /\ exists c', run [TimerFired] after_double_submit = Some c'
       /\ formData (state c') = formData (state after_double_submit)
       /\ isSubmitted (state c') = true.
Proof.
  assert (reachable after_double_submit) as Hr by (exists double_submit; reflexivity).
  split; [exact Hr|]. split; [reflexivity|]. split; [reflexivity|].
  split; [reflexivity|].
  destruct (run [TimerFired] after_double_submit) as [c'|] eqn:E;
    [|vm_compute in E; discriminate].
  exists c'. split; [reflexivity|].
  destruct (submitted_is_frozen _ Hr eq_refl [TimerFired] c' E) as (_ & Hd & _ & _ & Hs).
  split; [exact Hd | exact Hs].
Defined.

End ReachableExtras.

(** ** What the page offers and shows *)

Import Dom Render Ui.

Section PageFacts.
Implicit Types (data : FormData) (key : Field) (s : State) (c : Component).

#[local] Arguments shown_error : simpl never.
#[local] Arguments has_error : simpl never.
#[local] Arguments lit : simpl never.

Lemma jsx_and_shown (errs : FormErrors) key (k : jsstring -> Node) :
  jsx_and (errs !! key) k = match shown_error errs key with Some m => [k m] | None => [] end.
Proof.
  unfold jsx_and, shown_error. destruct (errs !! key) as [m|]; [|done].
  by destruct (truthy m).
Qed.

Lemma find_filter {A : Type} (P Q : A -> bool) (l : list A) :
  (forall x, P x = true -> Q x = true) ->
  List.find P l = List.find P (List.filter Q l).
Proof.
  intros HPQ. induction l as [|x l IH]; [done|]. simpl.
  destruct (P x) eqn:EP.
  - rewrite (HPQ x EP). simpl. by rewrite EP.
  - destruct (Q x); simpl; by rewrite ?EP.
Qed.

Lemma existsb_filter {A : Type} (P Q : A -> bool) (l : list A) :
  (forall x, P x = true -> Q x = true) ->
  existsb P l = existsb P (List.filter Q l).
Proof.
  intros HPQ. induction l as [|x l IH]; [done|]. simpl.
  destruct (P x) eqn:EP.
  - rewrite (HPQ x EP). simpl. by rewrite EP.
  - destruct (Q x); simpl; by rewrite ?EP.
Qed.

Lemma filter_named_error (o : option jsstring) (class : string) :
  List.filter has_any_name
    (flat_map elements (match o with Some m => [error_paragraph class m] | None => [] end))
  = [].
Proof. by destruct o. Qed.

Lemma filter_button_error (o : option jsstring) (class : string) :
  List.filter is_button
    (flat_map elements (match o with Some m => [error_paragraph class m] | None => [] end))
  = [].
Proof. by destruct o. Qed.

(** The named elements of the page are the eight controls, in the order
    of the form. *)
Lemma named_elements_Index s :
  isSubmitted s = false ->
  List.filter has_any_name (elements (Index s))
  = root (name_control s) ++ root (email_control s) ++ root (company_control s)
    ++ root (phone_control s) ++ root (companySize_control s)
    ++ root (automationGoal_control s) ++ root (currentWorkflow_control s)
    ++ root (urgency_control s).
Proof.
  intros Hs. unfold Index, render. rewrite Hs. unfold form_view.
  rewrite !jsx_and_shown.
  repeat (progress (rewrite ?List.filter_app, ?filter_named_error; cbn)).
  by destruct (isSubmitting s).
Qed.

(** The only button of the page is the submit button of the form. *)
Lemma buttons_Index s :
  isSubmitted s = false ->
  List.filter is_button (elements (Index s)) = root (submit_button s).
Proof.
  intros Hs. unfold Index, render. rewrite Hs. unfold form_view.
  rewrite !jsx_and_shown.
  repeat (progress (rewrite ?List.filter_app, ?filter_button_error; cbn)).
  by destruct (isSubmitting s).
Qed.

Lemma has_name_any (name : jsstring) (e : Element) :
  has_name name e = true -> has_any_name e = true.
Proof.
  unfold has_name, has_any_name, name_attr.
  destruct (attr_of "name" (attrs_of e)) as [[]|]; done.
Qed.

Lemma find_control_Index s (name : jsstring) :
  isSubmitted s = false ->
  find_control (Index s) name
  = List.find (has_name name)
      (root (name_control s) ++ root (email_control s) ++ root (company_control s)
       ++ root (phone_control s) ++ root (companySize_control s)
       ++ root (automationGoal_control s) ++ root (currentWorkflow_control s)
       ++ root (urgency_control s)).
Proof.
  intros Hs. unfold find_control.
  rewrite (find_filter (has_name name) has_any_name) by apply has_name_any.
  by rewrite named_elements_Index.
Qed.

Lemma find_control_submitted s (name : jsstring) :
  isSubmitted s = true -> find_control (Index s) name = None.
Proof. intros Hs. unfold find_control, Index, render. rewrite Hs. reflexivity. Qed.

Lemma field_of_name_Some (name : jsstring) key :
  field_of_name name = Some key -> name = lit (field_name key).
Proof.
  intros H. apply find_some in H as [_ H]. by apply bool_decide_eq_true in H.
Qed.

Lemma field_of_name_None (name : jsstring) key :
  field_of_name name = None -> bool_decide (lit (field_name key) = name) = false.
Proof.
  intros H. apply (find_none _ _ H key). destruct key; cbn; tauto.
Qed.

Lemma field_of_name_field_name key : field_of_name (lit (field_name key)) = Some key.
Proof. by destruct key. Qed.

Lemma fire_change_Index s (name value : jsstring) :
  fire_change (Index s) name value s
  = if isSubmitted s then None
    else match field_of_name name with
         | Some key => if offered key value then Some (onChange key value s) else None
         | None => None
         end.
Proof.
  unfold fire_change. destruct (isSubmitted s) eqn:Hs.
  - by rewrite find_control_submitted.
  - rewrite find_control_Index by done.
    destruct (field_of_name name) as [key|] eqn:E.
    + apply field_of_name_Some in E. subst name.
      destruct key; reflexivity.
    + pose proof (fun key => field_of_name_None name key E) as Hn.
      pose proof (Hn Name) as H1. pose proof (Hn Email) as H2.
      pose proof (Hn Company) as H3. pose proof (Hn Phone) as H4.
      pose proof (Hn CompanySize) as H5. pose proof (Hn AutomationGoal) as H6.
      pose proof (Hn CurrentWorkflow) as H7. pose proof (Hn Urgency) as H8.
      cbn [field_name] in *. cbn. unfold has_name. cbn.
      by rewrite H1, H2, H3, H4, H5, H6, H7, H8.
Qed.

(** X16. The wiring of the page.  While the form is rendered, each of
    the eight keys of FormData names a control of the page, whose
    [onChange] is [handlePhoneChange] for the phone and [handleChange]
    for the seven others, and no other name has a control; once
    [isSubmitted] is set the page has no control left.  So a change
    event that reaches a handler through the page runs
    [handlePhoneChange] on the phone and [handleChange] with the key of
    the control on the others, and on a select it carries one of the
    rendered options.  (Which texts the other controls can deliver is
    left open: the statement bounds the events of the page from above.) *)
Theorem fire_change_spec s (name value : jsstring) :
  (forall s', fire_change (Index s) name value s = Some s' ->
     isSubmitted s = false
     /\ exists key, name = lit (field_name key)
          /\ offered key value = true
          /\ s' = onChange key value s
          /\ s' = match key with
                  | Phone => handlePhoneChange value s
                  | _ => handleChange key value s
                  end)
  /\ (isSubmitted s = false ->
      (forall key, exists e,
         find_control (Index s) (lit (field_name key)) = Some e
         /\ attr_of "onChange" (attrs_of e)
            = Some (AHandler (match key with
                              | Phone => On_handlePhoneChange
                              | _ => On_handleChange
                              end)))
      /\ (field_of_name name = None -> find_control (Index s) name = None))
  /\ (isSubmitted s = true -> find_control (Index s) name = None).
Proof.
  split; [|split].
  - intros s'. rewrite fire_change_Index.
    destruct (isSubmitted s); [done|].
    destruct (field_of_name name) as [key|] eqn:E; [|done].
    destruct (offered key value) eqn:Eo; [|done].
    intros H. apply (inj Some) in H. subst s'.
    split; [done|]. exists key. split; [by apply field_of_name_Some|].
    split; [exact Eo|]. split; [done|]. by destruct key.
  - intros Hs. split.
    + intros key. rewrite find_control_Index by done.
      destruct key; eexists; (split; [reflexivity|reflexivity]).
    + intros E. rewrite find_control_Index by done.
      pose proof (fun key => field_of_name_None name key E) as Hn.
      pose proof (Hn Name) as H1. pose proof (Hn Email) as H2.
      pose proof (Hn Company) as H3. pose proof (Hn Phone) as H4.
      pose proof (Hn CompanySize) as H5. pose proof (Hn AutomationGoal) as H6.
      pose proof (Hn CurrentWorkflow) as H7. pose proof (Hn Urgency) as H8.
      cbn [field_name] in *. cbn. unfold has_name. cbn.
      by rewrite H1, H2, H3, H4, H5, H6, H7, H8.
  - apply find_control_submitted.
Qed.

Lemma fire_change_spec_witness :
  exists s',
    fire_change (Index initialState) (lit "phone") (lit "555-0100 x") initialState = Some s'
    /\ s' = handlePhoneChange (lit "555-0100 x") initialState
    /\ phone (formData s') = Some (lit "555-0100 ").
Proof.
  eexists. split; [reflexivity|].
  destruct (fire_change_spec initialState (lit "phone") (lit "555-0100 x")) as (H & _).
  destruct (H _ eq_refl) as (_ & key & Hname & _ & _ & Hs).
  destruct key; try discriminate Hname. split; [exact Hs|reflexivity].
Defined.

Lemma existsb_button_error (o : option jsstring) (class : string) :
  existsb is_enabled_submit_button
    (flat_map elements (match o with Some m => [error_paragraph class m] | None => [] end))
  = false.
Proof. by destruct o. Qed.

Lemma fire_submit_Index s :
  fire_submit (Index s) s
  = if isSubmitted s || isSubmitting s then None else Some (handleSubmit s).
Proof.
  unfold fire_submit, Index, render. destruct (isSubmitted s) eqn:Hs; [reflexivity|].
  unfold form_view. rewrite !jsx_and_shown.
  cbn [List.find elements flat_map app is_form tag_of attrs_of children_of fst snd attr_of
       hattr cls sattr String.eqb Ascii.eqb Bool.eqb andb orb].
  repeat (progress (rewrite ?existsb_app, ?existsb_button_error; cbn)).
  by destruct (isSubmitting s).
Qed.

(** X17. A click on the submit button runs [handleSubmit] exactly when
    the form is rendered and [isSubmitting] is not set; the button is
    disabled while a submission is under way, and there is no form once
    [isSubmitted] is set. *)
Theorem fire_submit_spec s :
  fire_submit (Index s) s
  = if isSubmitted s || isSubmitting s then None else Some (handleSubmit s).
Proof.
  unfold fire_submit, Index, render. destruct (isSubmitted s) eqn:Hs; [reflexivity|].
  unfold form_view. rewrite !jsx_and_shown.
  cbn [List.find elements flat_map app is_form tag_of attrs_of children_of fst snd attr_of
       hattr cls sattr String.eqb Ascii.eqb Bool.eqb andb orb].
  repeat (progress (rewrite ?existsb_app, ?existsb_button_error; cbn)).
  by destruct (isSubmitting s).
Qed.

(** Every step of the page is a step of the transition system. *)
Lemma ui_step_refines c (ev : UiEvent) c' :
  ui_step c ev = Some c' ->
  exists ev', event_of ev = Some ev' /\ step c ev' = Some c'.
Proof.
  destruct ev as [name value| |]; cbn [ui_step event_of].
  - rewrite fire_change_Index. destruct (isSubmitted (state c)) eqn:Hs; [done|].
    destruct (field_of_name name) as [key|]; [|done].
    destruct (offered key value); [|done].
    intros H. exists (ChangeEvent key value). split; [done|].
    cbn [step]. unfold form_rendered. by rewrite Hs.
  - rewrite fire_submit_Index. destruct (isSubmitted (state c)) eqn:Hs; [done|].
    destruct (isSubmitting (state c)); [done|]. cbn [orb].
    intros H. exists SubmitEvent. split; [done|].
    cbn [step]. unfold form_rendered. by rewrite Hs.
  - intros H. by exists TimerFired.
Qed.

(** X18. What the user can do on the page is within what the transition
    system allows: every state reached through the rendered controls,
    the submit button and the timers is a reachable state, so that the
    invariants of the reachable states hold on the page. *)
Theorem ui_reachable_reachable c : ui_reachable c -> reachable c.
Proof.
  intros [evs H]. unfold reachable.
  assert (forall c0, ui_run evs c0 = Some c -> exists evs', run evs' c0 = Some c) as Hgen;
    [|by apply Hgen].
  clear H. induction evs as [|ev evs IH]; intros c0; cbn [ui_run].
  - intros H. by exists [].
  - destruct (ui_step c0 ev) as [c1|] eqn:E; [|done].
    intros Hrun. destruct (ui_step_refines c0 ev c1 E) as (ev' & _ & Hstep).
    destruct (IH c1 Hrun) as [evs' Hevs'].
    exists (ev' :: evs'). cbn [run]. by rewrite Hstep.
Qed.

Lemma ui_reachable_reachable_witness :
  ui_reachable (ui_after 11)
  /\ reachable (ui_after 11)
  /\ isSubmitted (state (ui_after 11)) = true.
Proof.
  assert (ui_reachable (ui_after 11)) as H by (exists (take 11 ui_session); reflexivity).
  split; [exact H|]. split; [exact (ui_reachable_reachable _ H) | reflexivity].
Defined.

End PageFacts.

(** ** The page as a transition system *)

Section UiFacts.
Implicit Types (data : FormData) (key : Field) (s : State) (c : Component).

#[local] Arguments shown_error : simpl never.
#[local] Arguments has_error : simpl never.
#[local] Arguments lit : simpl never.

Lemma ui_step_single_flight c (ev : UiEvent) c' :
  single_flight c -> ui_step c ev = Some c' -> single_flight c'.
Proof.
  intros Hj. destruct ev as [name value| |]; cbn [ui_step].
  - rewrite fire_change_Index. destruct (isSubmitted (state c)) eqn:Hs; [done|].
    destruct (field_of_name name) as [key|]; [|done].
    destruct (offered key value); [|done].
    intros H. apply (inj Some) in H. subst c'.
    destruct (onChange_flags key value (state c)) as [Hing Hed].
    destruct Hj as [(Ht & Hi & He) | (Ht & Hi & _ & He)]; [left | right];
      cbn [state timers]; rewrite Hing, Hed, Hs.
    + done.
    + split; [done|]. split; [done|]. split; [done|].
      by apply onChange_no_error.
  - rewrite fire_submit_Index. destruct (isSubmitted (state c)) eqn:Hs; [done|].
    destruct (isSubmitting (state c)) eqn:Hi; [done|]. cbn [orb].
    destruct Hj as [(Ht & _ & _) | (_ & Hi' & _)]; [|congruence].
    destruct (success (validate (formData (state c)))) eqn:E.
    + rewrite (handleSubmit_valid _ E). intros H. apply (inj Some) in H. subst c'.
      right. cbn [state timers isSubmitting isSubmitted errors]. by rewrite Ht, Hs.
    + rewrite (handleSubmit_invalid _ E). intros H. apply (inj Some) in H. subst c'.
      left. cbn [state timers isSubmitting isSubmitted errors]. by rewrite Hs.
  - destruct Hj as [(Ht & _) | (Ht & _ & _ & He)]; rewrite Ht; [done|].
    intros H. apply (inj Some) in H. subst c'. left. done.
Qed.

Lemma ui_run_single_flight (evs : list UiEvent) : forall c c',
  single_flight c -> ui_run evs c = Some c' -> single_flight c'.
Proof.
  induction evs as [|ev evs IH]; intros c c' Hj; cbn [ui_run].
  - intros H. apply (inj Some) in H. by subst c'.
  - destruct (ui_step c ev) as [c1|] eqn:E; [|done].
    apply IH. by apply (ui_step_single_flight c ev).
Qed.

Lemma submit_disabled_Index s :
  submit_disabled (Index s) = negb (isSubmitted s) && isSubmitting s.
Proof.
  unfold submit_disabled. destruct (isSubmitted s) eqn:Hs.
  - unfold Index, render. rewrite Hs. reflexivity.
  - rewrite (existsb_filter _ is_button).
    + rewrite buttons_Index by done. cbn. by destruct (isSubmitting s).
    + intros e. unfold is_button. by intros [? _]%andb_true_iff.
Qed.

(** X19. On the page at most one submission is under way.  In every
    state the user can reach, either no timer is pending and
    [isSubmitting] is clear, or exactly one timer of 1200 ms is pending,
    [isSubmitting] is set, [isSubmitted] is not, and no error is shown.
    The submit button is disabled exactly while the timer is pending, and
    the submitted state is reached with no error left. *)
Theorem ui_single_flight c :
  ui_reachable c ->
  single_flight c
  /\ (submit_disabled (Index (state c)) = true <-> timers c <> [])
  /\ (isSubmitted (state c) = true -> errors (state c) = ∅ /\ timers c = []).
Proof.
  intros [evs Hrun].
  assert (single_flight c) as Hj.
  { apply (ui_run_single_flight evs mount c); [|done]. left. done. }
  split; [done|]. rewrite submit_disabled_Index.
  destruct Hj as [(Ht & Hi & He) | (Ht & Hi & Hs & He)]; rewrite Ht, Hi.
  - split; [|by intros Hsub; auto]. rewrite andb_false_r. done.
  - rewrite Hs. split; [done | congruence].
Qed.

Lemma ui_single_flight_witness :
  ui_reachable (ui_after 10)
  /\ timers (ui_after 10) = [(1200, handleSubmit_resume)]
  /\ submit_disabled (Index (state (ui_after 10))) = true
  /\ ui_step (ui_after 10) UiSubmit = None.
Proof.
  assert (ui_reachable (ui_after 10)) as H by (exists (take 10 ui_session); reflexivity).
  split; [exact H|]. split; [reflexivity|].
  split; [|reflexivity].
  apply (proj1 (proj2 (ui_single_flight _ H))). discriminate.
Defined.

Lemma onChange_formData key (value : jsstring) s :
  formData (onChange key value s)
  = set key (match key with Phone => formatPhoneNumber value | _ => value end) (formData s).
Proof.
  destruct key; try done; unfold onChange, handleChange; by destruct (has_error _ _).
Qed.

Lemma ui_step_selects c (ev : UiEvent) c' :
  single_flight c -> selects_offered (formData (state c)) -> ui_step c ev = Some c' ->
  selects_offered (formData (state c')).
Proof.
  intros Hj Hk. destruct ev as [name value| |]; cbn [ui_step].
  - rewrite fire_change_Index. destruct (isSubmitted (state c)) eqn:Hs; [done|].
    destruct (field_of_name name) as [key|]; [|done].
    destruct (offered key value) eqn:Ho; [|done].
    intros H. apply (inj Some) in H. subst c'. cbn [state].
    rewrite onChange_formData. destruct Hk as (H1 & H2 & H3).
    destruct key; cbn [offered] in Ho; try apply bool_decide_eq_true in Ho;
      unfold selects_offered; cbn; done.
  - rewrite fire_submit_Index. destruct (isSubmitted (state c)) eqn:Hs; [done|].
    destruct (isSubmitting (state c)) eqn:Hi; [done|]. cbn [orb].
    destruct (success (validate (formData (state c)))) eqn:E.
    + rewrite (handleSubmit_valid _ E). intros H. apply (inj Some) in H. by subst c'.
    + rewrite (handleSubmit_invalid _ E). intros H. apply (inj Some) in H. by subst c'.
  - destruct Hj as [(Ht & _) | (Ht & _)]; rewrite Ht; [done|].
    intros H. apply (inj Some) in H. by subst c'.
Qed.

Lemma ui_run_selects (evs : list UiEvent) : forall c c',
  single_flight c -> selects_offered (formData (state c)) -> ui_run evs c = Some c' ->
  selects_offered (formData (state c')).
Proof.
  induction evs as [|ev evs IH]; intros c c' Hj Hk; cbn [ui_run].
  - intros H. apply (inj Some) in H. by subst c'.
  - destruct (ui_step c ev) as [c1|] eqn:E; [|done].
    apply IH; [by apply (ui_step_single_flight c ev) | by apply (ui_step_selects c ev)].
Qed.

(** X20. Through the page the selects hold offered values only: in
    every state the user can reach, companySize, currentWorkflow and
    urgency are each the placeholder (the empty string) or one of the
    enumerated option values; when validation passes in such a state,
    each of the three is one of the enumerated values. *)
Theorem ui_selects_enumerated c :
  ui_reachable c ->
  selects_offered (formData (state c))
  /\ (success (validate (formData (state c))) = true ->
      companySize (formData (state c)) ∈ drop 1 companySizeOptions
      /\ currentWorkflow (formData (state c)) ∈ drop 1 workflowOptions
      /\ urgency (formData (state c)) ∈ drop 1 urgencyOptions).
Proof.
  intros [evs Hrun].
  assert (selects_offered (formData (state c))) as Hk.
  { apply (ui_run_selects evs mount c); [left; done | | done].
    repeat split; left. }
  split; [done|]. intros Hv.
  assert (forall key, field_messages key (formData (state c)) = []) as Hok.
  { intros key. apply field_messages_nil. by apply validate_success. }
  pose proof (Hok CompanySize) as H1. pose proof (Hok CurrentWorkflow) as H2.
  pose proof (Hok Urgency) as H3.
  rewrite field_messages_CompanySize in H1. rewrite field_messages_CurrentWorkflow in H2.
  rewrite field_messages_Urgency in H3. unfold select_rule in *.
  destruct Hk as (K1 & K2 & K3).
  repeat split.
  - destruct (companySize (formData (state c))); [done|].
    apply elem_of_cons in K1 as [K1|K1]; [discriminate | done].
  - destruct (currentWorkflow (formData (state c))); [done|].
    apply elem_of_cons in K2 as [K2|K2]; [discriminate | done].
  - destruct (urgency (formData (state c))); [done|].
    apply elem_of_cons in K3 as [K3|K3]; [discriminate | done].
Qed.

Lemma ui_selects_enumerated_witness :
  ui_reachable (ui_after 10)
  /\ success (validate (formData (state (ui_after 10)))) = true
  /\ companySize (formData (state (ui_after 10))) ∈ drop 1 companySizeOptions
  /\ ui_step (ui_after 10) (UiChange (lit "urgency") (lit "someday")) = None.
Proof.
  assert (ui_reachable (ui_after 10)) as H by (exists (take 10 ui_session); reflexivity).
  split; [exact H|]. split; [reflexivity|]. split; [|reflexivity].
  apply (proj2 (ui_selects_enumerated _ H)). reflexivity.
Defined.

(** The blocks of the rendered form: one per key, in the order of the
    form, each with the one control of that key and the error shown
    under it. *)
Lemma field_blocks_Index s :
  isSubmitted s = false ->
  field_blocks (Index s)
  = (fun key => ([lit (field_name key)], shown_under (errors s) key)) <$> all_fields.
Proof.
  intros Hs. unfold field_blocks, Index, render. rewrite Hs. unfold form_view.
  rewrite !jsx_and_shown. unfold shown_under, all_fields, submit_button.
  cbn [fmap list_fmap].
  generalize (shown_error (errors s) Name), (shown_error (errors s) Email),
    (shown_error (errors s) Company), (shown_error (errors s) CompanySize),
    (shown_error (errors s) AutomationGoal), (shown_error (errors s) CurrentWorkflow),
    (shown_error (errors s) Urgency), (isSubmitting s).
  intros [] [] [] [] [] [] [] []; vm_compute; reflexivity.
Qed.

(** X21. What the form shows.  While the form is rendered it consists of
    eight blocks, one per key of FormData in the order of the schema,
    each holding the one control named after its key; under a control
    stands the message [errors] holds for its key when that message is a
    non-empty string, and nothing otherwise; under the phone nothing is
    ever shown, whatever [errors] holds.  Once [isSubmitted] is set the
    page has no such block. *)
Theorem displayed_errors s :
  field_blocks (Index s)
  = if isSubmitted s then []
    else (fun key => ([lit (field_name key)], shown_under (errors s) key)) <$> all_fields.
Proof.
  destruct (isSubmitted s) eqn:Hs.
  - unfold field_blocks, Index, render. rewrite Hs. reflexivity.
  - by apply field_blocks_Index.
Qed.

Lemma shown_error_collect data key :
  shown_error (collect_fieldErrors (object_issues formSchema (fun key => get key data))) key
  = last (field_messages key data).
Proof.
  unfold shown_error.
  pose proof (collect_messages_nonempty data key) as Hne.
  rewrite collect_fieldErrors_lookup in *.
  destruct (last (field_messages key data)) as [m|]; [|done].
  specialize (Hne m eq_refl). by destruct m.
Qed.

(** X22. After a failed submit the form shows, under each control but
    the phone, the message of the last failing rule of its field, and
    nothing under the controls of the fields that are valid. *)
Theorem failed_submit_display s :
  isSubmitted s = false ->
  success (validate (formData s)) = false ->
  exists s', handleSubmit s = Returned s'
    /\ field_blocks (Index s')
       = (fun key => ([lit (field_name key)],
                      match key with
                      | Phone => []
                      | _ => option_list (last (field_messages key (formData s)))
                      end)) <$> all_fields.
Proof.
  intros Hs Hfail. rewrite (handleSubmit_invalid s Hfail). eexists. split; [reflexivity|].
  rewrite field_blocks_Index by done. cbn [errors]. unfold all_fields, shown_under.
  cbn [fmap list_fmap]. by rewrite !shown_error_collect.
Qed.

Lemma failed_submit_display_witness :
  isSubmitted (editing jane_incomplete) = false
  /\ success (validate jane_incomplete) = false
  /\ exists s', handleSubmit (editing jane_incomplete) = Returned s'
       /\ field_blocks (Index s')
          = [ ([lit "name"], [lit "Name is required"]); ([lit "email"], []);
              ([lit "company"], []); ([lit "phone"], []); ([lit "companySize"], []);
              ([lit "automationGoal"], []); ([lit "currentWorkflow"], []);
              ([lit "urgency"], [lit "Please select urgency"]) ].
Proof.
  split; [reflexivity|]. split; [reflexivity|].
  destruct (failed_submit_display (editing jane_incomplete)) as (s' & Hs' & Hb);
    [reflexivity | reflexivity |].
  exists s'. split; [exact Hs'|]. rewrite Hb. reflexivity.
Defined.

Lemma control_value_Index s key :
  isSubmitted s = false ->
  control_value (Index s) (lit (field_name key)) = Some (value_attr (get key (formData s))).
Proof.
  intros Hs. unfold control_value. rewrite find_control_Index by done.
  destruct key; reflexivity.
Qed.

(** X23. The inputs are controlled: after a change event the control
    shows what the handler stored, which is the text of the event for
    the seven controls of [handleChange] and the formatted text for the
    phone. *)
Theorem typed_value_shown c (name value : jsstring) c' :
  ui_step c (UiChange name value) = Some c' ->
  exists key, field_of_name name = Some key
    /\ control_value (Index (state c')) name
       = Some (AStr (match key with Phone => formatPhoneNumber value | _ => value end)).
Proof.
  cbn [ui_step]. rewrite fire_change_Index.
  destruct (isSubmitted (state c)) eqn:Hs; [done|].
  destruct (field_of_name name) as [key|] eqn:E; [|done].
  destruct (offered key value); [|done].
  intros H. apply (inj Some) in H. subst c'. exists key. split; [done|].
  apply field_of_name_Some in E. subst name. cbn [state].
  rewrite control_value_Index
    by (by rewrite (proj2 (onChange_flags key value (state c)))).
  by rewrite onChange_formData, get_set_eq.
Qed.

Lemma typed_value_shown_witness :
  exists c', ui_step mount (UiChange (lit "phone") (lit "call 555-0100 today")) = Some c'
    /\ control_value (Index (state c')) (lit "phone") = Some (AStr (lit " 555-0100 ")).
Proof.
  destruct (ui_step mount (UiChange (lit "phone") (lit "call 555-0100 today")))
    as [c'|] eqn:E; [|vm_compute in E; discriminate].
  exists c'. split; [reflexivity|].
  destruct (typed_value_shown _ _ _ _ E) as (key & Hk & Hv).
  vm_compute in Hk. apply (inj Some) in Hk. subst key. exact Hv.
Defined.

End UiFacts.

(** ** What a submit records, field by field *)

Section SubmitRecord.

#[local] Arguments lit : simpl never.
#[local] Arguments trim : simpl never.
#[local] Arguments Nat.ltb : simpl never.
#[local] Arguments defaultErrorMap_too_big : simpl never.
#[local] Arguments emailRegex_test : simpl never.

Lemma submit_accepted_validate s : submit_accepted s = success (validate (formData s)).
Proof.
  unfold submit_accepted. destruct (success (validate (formData s))) eqn:E.
  - by rewrite (handleSubmit_valid s E).
  - by rewrite (handleSubmit_invalid s E).
Qed.

(** A submit records, for every key, the last message of the key. *)
Lemma submit_error_last s key :
  submit_error s key = last (field_messages key (formData s)).
Proof.
  unfold submit_error, submitted_state.
  destruct (success (validate (formData s))) eqn:E.
  - rewrite (handleSubmit_valid s E). cbn [errors]. rewrite lookup_empty.
    pose proof (proj1 (validate_success _) E key) as E'.
    unfold field_messages. by rewrite E'.
  - rewrite (handleSubmit_invalid s E). cbn [errors].
    apply collect_fieldErrors_lookup.
Qed.

Lemma submit_returns s key (m : jsstring) :
  submit_error s key = Some m ->
  exists s', handleSubmit s = Returned s'
    /\ errors s' !! key = Some m
    /\ isSubmitting s' = false
    /\ isSubmitted s' = isSubmitted s
    /\ formData s' = formData s.
Proof.
  unfold submit_error, submitted_state.
  destruct (success (validate (formData s))) eqn:E.
  - rewrite (handleSubmit_valid s E). cbn [errors]. by rewrite lookup_empty.
  - rewrite (handleSubmit_invalid s E). cbn [errors]. intros H.
    eexists. split; [reflexivity|]. by cbn.
Qed.

Lemma submit_accepted_no_error s key :
  submit_accepted s = true -> submit_error s key = None.
Proof.
  rewrite submit_accepted_validate. intros E.
  unfold submit_error, submitted_state. rewrite (handleSubmit_valid s E). cbn [errors].
  apply lookup_empty.
Qed.

Lemma submit_accepted_iff s :
  submit_accepted s = true <-> forall key, submit_error s key = None.
Proof.
  split; [intros H key; by apply submit_accepted_no_error|].
  intros H. rewrite submit_accepted_validate. apply validate_success. intros key.
  apply field_messages_nil. specialize (H key). rewrite submit_error_last in H.
  destruct (field_messages key (formData s)) as [|m l] using rev_ind; [done|].
  by rewrite last_snoc in H.
Qed.

Lemma submit_error_trimmed_rules (msg : jsstring) (limit : nat) (v : jsstring) :
  1 <= limit ->
  last (trimmed_rules msg limit v)
  = if length (trim v) =? 0 then Some msg
    else if limit <? length (trim v) then Some (defaultErrorMap_too_big limit) else None.
Proof.
  intros Hl. rewrite (trimmed_rules_cases msg limit v Hl).
  destruct (length (trim v)) as [|n]; [done|].
  replace (S n <? 1) with false by (symmetry; apply Nat.ltb_ge; lia).
  cbn [Nat.eqb]. by destruct (limit <? S n).
Qed.

Lemma submit_error_email_rules (v : jsstring) :
  last (email_rules v)
  = if 255 <? length (trim v) then Some (defaultErrorMap_too_big 255)
    else if emailRegex_test (trim v) then None else Some (lit "Please enter a valid email").
Proof.
  unfold email_rules.
  by destruct (emailRegex_test (trim v)); destruct (255 <? length (trim v)).
Qed.

Lemma submit_error_select_rule (msg v : jsstring) :
  last (select_rule msg v) = match v with [] => Some msg | _ => None end.
Proof. by destruct v. Qed.

(** The messages of a key depend on the value of that key only. *)
Lemma field_messages_get key data data' :
  get key data = get key data' -> field_messages key data = field_messages key data'.
Proof. intros H. unfold field_messages, field_issues. by rewrite H. Qed.

Lemma field_messages_set_ne key key' (v : jsstring) data :
  key' <> key -> field_messages key' (set key v data) = field_messages key' data.
Proof. intros H. apply field_messages_get. by apply get_set_ne. Qed.

Lemma submit_error_set_ne key key' (v : jsstring) s :
  key' <> key ->
  submit_error (setFormData (set key v) s) key' = submit_error s key'.
Proof.
  intros H. rewrite !submit_error_last. unfold setFormData. cbn [formData].
  by rewrite field_messages_set_ne.
Qed.

(** When a change of one value leaves what is recorded for its key as it
    was, it leaves the whole outcome of the submit as it was. *)
Lemma submit_unchanged key (v : jsstring) s :
  submit_error (setFormData (set key v) s) key = submit_error s key ->
  (forall key', submit_error (setFormData (set key v) s) key' = submit_error s key')
  /\ submit_accepted (setFormData (set key v) s) = submit_accepted s.
Proof.
  intros H.
  assert (forall key', submit_error (setFormData (set key v) s) key' = submit_error s key') as Ha.
  { intros key'. destruct (decide (key' = key)) as [->|Hne]; [exact H|].
    by apply submit_error_set_ne. }
  split; [exact Ha|].
  apply Bool.eq_iff_eq_true. rewrite !submit_accepted_iff.
  split; intros Hk key'; [rewrite <- Ha|rewrite Ha]; apply Hk.
Qed.

End SubmitRecord.

(** ** The phone characters *)

Section PhoneCharacters.

(** The class of the regular expression of [formatPhoneNumber] holds the
    digits, plus, minus, the parentheses and the white space, and
    nothing else. *)
Lemma phone_class_characters (c : char16) : phone_class c = phone_character c.
Proof.
  apply Bool.eq_iff_eq_true. unfold phone_character. rewrite bool_decide_eq_true.
  unfold phone_class, is_digit, is_space, is_white_space, is_line_terminator, in_range, is_char.
  unfold phone_characters, ascii_digits, white_space_units. cbn [lit app N_of_ascii].
  rewrite !orb_true_iff, !andb_true_iff, !N.eqb_eq, !N.leb_le.
  rewrite !elem_of_cons, elem_of_nil.
  cbv [N_of_ascii N_of_digits N.add N.mul Pos.add Pos.mul Pos.succ].
  lia.
Qed.

Lemma filter_phone_characters (value : jsstring) :
  filter (fun c => Is_true (phone_class c)) value
  = filter (fun c => phone_character c = true) value.
Proof.
  induction value as [|c value IH]; [done|].
  rewrite !filter_cons. rewrite IH.
  destruct (decide (Is_true (phone_class c))) as [H|H];
    destruct (decide (phone_character c = true)) as [H'|H']; try done.
  - rewrite <- phone_class_characters in H'. by apply Is_true_true_1 in H.
  - rewrite <- phone_class_characters in H'. by apply Is_true_true_2 in H'.
Qed.

(** C6. For every input, [formatPhoneNumber] returns the subsequence of
    the input made of its digits, [+], [-], parentheses and white space,
    cut after twenty characters.  So the result is a subsequence of the
    input, every character of it is one of those (none is a letter or
    any other character), it is never longer than twenty, and every
    allowed character of the input is kept as long as there are at most
    twenty of them. *)
Theorem formatPhoneNumber_spec (value : jsstring) :
  formatPhoneNumber value = phone_subsequence value
  /\ formatPhoneNumber value `sublist_of` value
  /\ Forall (fun c => c ∈ phone_characters) (formatPhoneNumber value)
  /\ (forall c, c ∉ phone_characters -> c ∉ formatPhoneNumber value)
  /\ length (formatPhoneNumber value) <= 20
  /\ length (formatPhoneNumber value) <= length value
  /\ (forall c, length (filter (fun c => c ∈ phone_characters) value) <= 20 ->
        c ∈ value -> c ∈ phone_characters -> c ∈ formatPhoneNumber value)
  /\ (Forall (fun c => c ∈ phone_characters) value -> formatPhoneNumber value = take 20 value).
Proof.
  assert (formatPhoneNumber value = phone_subsequence value) as E.
  { unfold formatPhoneNumber, replace_outside_class, slice0, phone_subsequence.
    by rewrite filter_phone_characters. }
  assert (Forall (fun c => c ∈ phone_characters) (formatPhoneNumber value)) as Hall.
  { rewrite E. unfold phone_subsequence. apply Forall_take, Forall_forall.
    intros c [Hc _]%list_elem_of_filter. unfold phone_character in Hc.
    by apply bool_decide_eq_true in Hc. }
  split; [exact E|]. split; [|split; [exact Hall|split; [|split; [|split; [|split]]]]].
  - rewrite E. unfold phone_subsequence.
    etrans; [apply sublist_take|apply sublist_filter].
  - intros c Hc Hin. rewrite Forall_forall in Hall. apply Hc, Hall, Hin.
  - rewrite E. unfold phone_subsequence. rewrite length_take. lia.
  - rewrite E. unfold phone_subsequence. rewrite length_take.
    pose proof (length_filter (fun c => phone_character c = true) value). lia.
  - intros c Hlen Hin Hc. rewrite E. unfold phone_subsequence.
    assert (filter (fun c => phone_character c = true) value
            = filter (fun c => c ∈ phone_characters) value) as Ef.
    { apply list_filter_iff. intros x. unfold phone_character.
      by rewrite bool_decide_eq_true. }
    rewrite Ef. rewrite take_ge; [|exact Hlen]. apply list_elem_of_filter. split; assumption.
  - intros Hv. rewrite E. unfold phone_subsequence. f_equal. clear E Hall.
    induction Hv as [|c l Hc Hl IH]; [done|].
    rewrite filter_cons_True; [by rewrite IH|].
    unfold phone_character. by apply bool_decide_eq_true.
Qed.

Lemma formatPhoneNumber_spec_witness :
  formatPhoneNumber phone_with_remark = lit "+1 (555) 123-4567  8"
  /\ formatPhoneNumber (lit "+1 (555) 123-4567") = lit "+1 (555) 123-4567"
  /\ N_of_ascii "e" ∉ formatPhoneNumber phone_with_remark.
Proof.
  destruct (formatPhoneNumber_spec phone_with_remark) as (E1 & _ & _ & Hno & _).
  destruct (formatPhoneNumber_spec (lit "+1 (555) 123-4567")) as (_ & _ & _ & _ & _ & _ & _ & E2).
  split; [rewrite E1; vm_compute; reflexivity|]. split.
  - rewrite E2; [reflexivity|]. vm_compute. repeat constructor.
  - apply Hno. vm_compute. intros H. 
    repeat (apply elem_of_cons in H as [H|H]; [discriminate H|]). by apply elem_of_nil in H.
Defined.

End PhoneCharacters.

(** ** A change event on a field that holds an error *)

Section ChangeClearsError.

#[local] Arguments lit : simpl never.



End ChangeClearsError.

(** ** Trimming and padding *)

Section TrimPadding.

Lemma blank_forallb (v : jsstring) : blank v <-> forallb is_space v = true.
Proof.
  unfold blank. induction v as [|c v IH]; [done|].
  cbn [forallb]. rewrite Forall_cons, andb_true_iff, IH. done.
Qed.

Lemma blank_rev (v : jsstring) : blank v -> blank (rev v).
Proof.
  unfold blank. rewrite !Forall_forall. intros H c Hc. apply H.
  apply list_elem_of_In. apply in_rev. by apply list_elem_of_In.
Qed.

Lemma trimStart_blank_app (ws s : jsstring) : blank ws -> trimStart (ws ++ s) = trimStart s.
Proof.
  induction 1 as [|c ws Hc _ IH]; [done|]. cbn [app trimStart]. by rewrite Hc.
Qed.

Lemma trimStart_app (s t : jsstring) :
  trimStart s <> [] -> trimStart (s ++ t) = trimStart s ++ t.
Proof.
  induction s as [|c s IH]; [done|]. cbn [app trimStart].
  destruct (is_space c); [exact IH|done].
Qed.

Lemma trimStart_nil_blank (s : jsstring) : trimStart s = [] -> blank s.
Proof.
  induction s as [|c s IH]; [constructor|]. cbn [trimStart].
  destruct (is_space c) eqn:E; [|done]. intros H. constructor; [exact E|by apply IH].
Qed.

Lemma trimEnd_app_blank (s ws : jsstring) : blank ws -> trimEnd (s ++ ws) = trimEnd s.
Proof.
  intros H. unfold trimEnd. rewrite rev_app_distr.
  by rewrite trimStart_blank_app by by apply blank_rev.
Qed.

(** White space around a value does not change its trimmed form. *)
Lemma trim_padding (ws1 v ws2 : jsstring) :
  blank ws1 -> blank ws2 -> trim (ws1 ++ v ++ ws2) = trim v.
Proof.
  intros H1 H2. unfold trim. rewrite trimStart_blank_app by done.
  destruct (trimStart v) as [|c r] eqn:E.
  - rewrite trimStart_blank_app; [|by apply trimStart_nil_blank].
    assert (trimStart ws2 = []) as -> by by apply trimStart_all_space, blank_forallb.
    reflexivity.
  - rewrite trimStart_app by by rewrite E. rewrite E. by apply trimEnd_app_blank.
Qed.

Lemma trimStart_split (s : jsstring) : exists ws, blank ws /\ s = ws ++ trimStart s.
Proof.
  induction s as [|c s (ws & Hws & IH)]; [exists []; split; [constructor|done]|].
  cbn [trimStart]. destruct (is_space c) eqn:E.
  - exists (c :: ws). split; [by constructor|]. cbn [app]. by rewrite <- IH.
  - exists []. split; [constructor|done].
Qed.

(** A value is its trimmed form between two runs of white space. *)
Lemma trim_split (s : jsstring) :
  exists ws1 ws2, blank ws1 /\ blank ws2 /\ s = ws1 ++ trim s ++ ws2.
Proof.
  destruct (trimStart_split s) as (ws1 & H1 & E1).
  destruct (trimStart_split (rev (trimStart s))) as (ws2 & H2 & E2).
  exists ws1, (rev ws2). split; [done|]. split; [by apply blank_rev|].
  unfold trim, trimEnd. rewrite <- rev_app_distr, <- E2, rev_involutive. exact E1.
Qed.

Lemma trim_idempotent (s : jsstring) : trim (trim s) = trim s.
Proof.
  destruct (trim_split s) as (ws1 & ws2 & H1 & H2 & E).
  rewrite E at 2. by rewrite trim_padding.
Qed.

Lemma trim_blank (s : jsstring) : blank s -> trim s = [].
Proof. intros H. by apply trim_all_space, blank_forallb. Qed.

End TrimPadding.

(** ** The selects at submit time *)

Section SelectValues.

#[local] Arguments lit : simpl never.

Lemma select_field_messages key data (v : jsstring) :
  is_select key = true -> get key data = Some v ->
  field_messages key data = select_rule (select_message key) v.
Proof.
  destruct key; cbn [is_select get select_message]; try discriminate; intros _ Hv;
    apply (inj Some) in Hv; subst v.
  - apply field_messages_CompanySize.
  - apply field_messages_CurrentWorkflow.
  - apply field_messages_Urgency.
Qed.

Lemma select_submit_error s key (v : jsstring) :
  is_select key = true -> get key (formData s) = Some v ->
  submit_error s key = match v with [] => Some (select_message key) | _ => None end.
Proof.
  intros Hk Hv. rewrite submit_error_last, (select_field_messages key _ v Hk Hv).
  apply submit_error_select_rule.
Qed.

(** C1 (amended). At submit time companySize, currentWorkflow and
    urgency are accepted exactly when they are not the empty string; the
    value is neither trimmed nor compared with the option lists.  An
    empty value makes the submit fail with the message of its field
    ("Please select company size", "Please select an option", "Please
    select urgency"); a non-empty value leaves no error under its key,
    and replacing it by any other non-empty string changes nothing of
    what the submit records or of whether it is accepted. *)
Theorem select_accepts_nonempty s key (v : jsstring) :
  is_select key = true ->
  get key (formData s) = Some v ->
  submit_error s key = match v with [] => Some (select_message key) | _ => None end
  /\ (v = [] ->
      exists s', handleSubmit s = Returned s'
        /\ errors s' !! key = Some (select_message key)
        /\ isSubmitting s' = false
        /\ isSubmitted s' = isSubmitted s
        /\ formData s' = formData s)
  /\ (submit_accepted s = true -> v <> [])
  /\ (v <> [] -> forall v' : jsstring, v' <> [] ->
        (forall key', submit_error (setFormData (set key v') s) key' = submit_error s key')
        /\ submit_accepted (setFormData (set key v') s) = submit_accepted s).
Proof.
  intros Hk Hv. pose proof (select_submit_error s key v Hk Hv) as E.
  split; [exact E|]. split; [|split].
  - intros ->. by apply submit_returns.
  - intros Ha ->. by rewrite (submit_accepted_no_error s key Ha) in E.
  - intros Hne v' Hne'. apply submit_unchanged.
    rewrite E. rewrite (select_submit_error _ key v' Hk).
    + by destruct v, v'.
    + unfold setFormData. cbn [formData]. apply get_set_eq.
Qed.

Lemma select_accepts_nonempty_witness :
  submit_error (editing jane_off_list) CompanySize = None
  /\ submit_accepted (editing jane_off_list) = true
  /\ (exists s', handleSubmit (editing jane_unselected) = Returned s'
        /\ errors s' !! Urgency = Some (lit "Please select urgency"))
  /\ submit_error (editing (set CurrentWorkflow (lit " ") jane)) CurrentWorkflow = None
  /\ submit_accepted (setFormData (set CompanySize (lit "a dozen")) (editing jane))
     = submit_accepted (editing jane).
Proof.
  destruct (select_accepts_nonempty (editing jane) CompanySize (lit "11-50") eq_refl eq_refl)
    as (_ & _ & _ & Hsame).
  destruct (select_accepts_nonempty (editing jane_off_list) CompanySize (lit "a dozen")
              eq_refl eq_refl) as (Hnone & _).
  destruct (select_accepts_nonempty (editing jane_unselected) Urgency (lit "") eq_refl eq_refl)
    as (_ & Hempty & _).
  destruct (select_accepts_nonempty (editing (set CurrentWorkflow (lit " ") jane))
              CurrentWorkflow (lit " ") eq_refl eq_refl) as (Hblank & _).
  split; [exact Hnone|]. split; [reflexivity|]. split; [|split; [exact Hblank|]].
  - destruct (Hempty eq_refl) as (s' & E & Hm & _). exists s'. split; [exact E|exact Hm].
  - by apply Hsame.
Defined.

End SelectValues.

(** ** The shape of an accepted e-mail address *)

Section EmailShape.

Lemma elem_of_units (lo n : nat) (c : char16) :
  c ∈ (N.of_nat <$> seq lo n) <-> (N.of_nat lo <= c < N.of_nat (lo + n))%N.
Proof.
  rewrite list_elem_of_fmap. split.
  - intros (k & -> & Hk%elem_of_seq). lia.
  - intros H. exists (N.to_nat c). split; [lia|]. apply elem_of_seq. lia.
Qed.

Lemma letters_range (c : char16) :
  c ∈ ascii_letters <-> (65 <= c <= 90 \/ 97 <= c <= 122)%N.
Proof.
  change ascii_letters with ((N.of_nat <$> seq 65 26) ++ (N.of_nat <$> seq 97 26)).
  rewrite elem_of_app, !elem_of_units. lia.
Qed.

Lemma digits_range (c : char16) : c ∈ ascii_digits <-> (48 <= c <= 57)%N.
Proof.
  change ascii_digits with (N.of_nat <$> seq 48 10). rewrite elem_of_units. lia.
Qed.

Ltac class_iff :=
  unfold local_char, local_last, label_char, is_alnum, is_letter, is_digit,
    is_line_terminator, in_range, is_char;
  rewrite ?orb_true_iff, ?andb_true_iff, ?N.eqb_eq, ?N.leb_le;
  rewrite ?elem_of_app, ?letters_range, ?digits_range;
  cbn [lit]; rewrite ?elem_of_cons, ?elem_of_nil;
  cbv [N_of_ascii N_of_digits N.add N.mul Pos.add Pos.mul Pos.succ];
  lia.

Lemma is_letter_letters (c : char16) : is_letter c = true <-> c ∈ ascii_letters.
Proof. class_iff. Qed.

Lemma is_alnum_units (c : char16) : is_alnum c = true <-> c ∈ ascii_letters ++ ascii_digits.
Proof. class_iff. Qed.

Lemma local_char_units (c : char16) :
  local_char c = true <-> c ∈ ascii_letters ++ ascii_digits ++ lit "_'+-.".
Proof. class_iff. Qed.

Lemma local_last_units (c : char16) :
  local_last c = true <-> c ∈ ascii_letters ++ ascii_digits ++ lit "_+-".
Proof. class_iff. Qed.

Lemma label_char_units (c : char16) :
  label_char c = true <-> c ∈ ascii_letters ++ ascii_digits ++ lit "-".
Proof. class_iff. Qed.


Lemma forallb_class (f : char16 -> bool) (P : char16 -> Prop) :
  (forall c, f c = true <-> P c) -> forall l, forallb f l = true <-> Forall P l.
Proof.
  intros H l. induction l as [|c l IH]; cbn [forallb]; [split; [constructor|done]|].
  by rewrite andb_true_iff, Forall_cons, H, IH.
Qed.

Lemma forallb_pieces (f : jsstring -> bool) (P : jsstring -> Prop) :
  (forall p, f p = true <-> P p) -> forall l, forallb f l = true <-> Forall P l.
Proof.
  intros H l. induction l as [|c l IH]; cbn [forallb]; [split; [constructor|done]|].
  by rewrite andb_true_iff, Forall_cons, H, IH.
Qed.

Lemma Forall_rev_pieces (P : jsstring -> Prop) (l : list jsstring) :
  Forall P l -> Forall P (rev l).
Proof.
  rewrite !Forall_forall. intros H x Hx. apply H.
  apply list_elem_of_In, in_rev, list_elem_of_In. exact Hx.
Qed.

Lemma split_first_app (sep : ascii) (l d : jsstring) :
  N_of_ascii sep ∉ l -> split_first sep (l ++ N_of_ascii sep :: d) = Some (l, d).
Proof.
  induction l as [|c l IH]; intros H; cbn [app split_first].
  - unfold is_char. by rewrite N.eqb_refl.
  - destruct (is_char sep c) eqn:E.
    + apply is_char_eq in E. subst c. exfalso. apply H. left.
    + rewrite IH; [done|]. intros ?. apply H. by right.
Qed.

Lemma join_cons (sep : char16) (p q : jsstring) (ps : list jsstring) :
  join sep (p :: q :: ps) = p ++ sep :: join sep (q :: ps).
Proof. reflexivity. Qed.

(** Splitting and joining again gives the text back. *)
Lemma join_split_all (sep : ascii) (s : jsstring) :
  join (N_of_ascii sep) (split_all sep s) = s.
Proof.
  induction s as [|c s IH]; [done|]. cbn [split_all].
  pose proof (split_all_nonempty sep s) as Hne.
  destruct (split_all sep s) as [|p ps]; [done|].
  destruct (is_char sep c) eqn:E.
  - apply is_char_eq in E. subst c. by rewrite join_cons, IH.
  - destruct ps as [|q ps].
    + cbn [join] in *. by rewrite IH.
    + rewrite join_cons in *. cbn [app]. by rewrite IH.
Qed.

Lemma join_dotted (labels : list jsstring) (tld : jsstring) :
  join (N_of_ascii ".") (labels ++ [tld]) = dotted labels ++ tld.
Proof.
  induction labels as [|l labels IH]; [done|].
  change ((l :: labels) ++ [tld]) with (l :: (labels ++ [tld])).
  destruct (labels ++ [tld]) as [|q qs] eqn:E; [by destruct labels|].
  rewrite join_cons, IH. unfold dotted. cbn [fmap list_fmap concat].
  by rewrite <- !app_assoc.
Qed.

Lemma split_all_no_sep (sep : ascii) (t : jsstring) :
  N_of_ascii sep ∉ t -> split_all sep t = [t].
Proof.
  induction t as [|c t IH]; [done|]. intros H. cbn [split_all].
  rewrite IH by (intros ?; apply H; by right).
  destruct (is_char sep c) eqn:E; [|done].
  apply is_char_eq in E. subst. exfalso. apply H. left.
Qed.

Lemma split_all_piece (sep : ascii) (l rest : jsstring) :
  N_of_ascii sep ∉ l ->
  split_all sep (l ++ N_of_ascii sep :: rest) = l :: split_all sep rest.
Proof.
  induction l as [|c l IH]; intros H; cbn [app split_all].
  - pose proof (split_all_nonempty sep rest).
    destruct (split_all sep rest); [done|]. unfold is_char. by rewrite N.eqb_refl.
  - rewrite IH by (intros ?; apply H; by right).
    destruct (is_char sep c) eqn:E; [|done].
    apply is_char_eq in E. subst. exfalso. apply H. left.
Qed.

Lemma split_all_dotted (labels : list jsstring) (tld : jsstring) :
  Forall (fun l => N_of_ascii "." ∉ l) labels -> N_of_ascii "." ∉ tld ->
  split_all "." (dotted labels ++ tld) = labels ++ [tld].
Proof.
  induction 1 as [|l labels Hl _ IH]; intros Ht.
  - by apply split_all_no_sep.
  - unfold dotted. cbn [fmap list_fmap concat]. rewrite <- !app_assoc.
    change (lit "." ++ ?x) with (N_of_ascii "." :: x).
    rewrite split_all_piece by done. fold (dotted labels). by rewrite IH.
Qed.

Lemma dotdot_cons (c d : char16) (s : jsstring) :
  dotdot_on_first_line (c :: d :: s)
  = if is_char "." c && is_char "." d then true
    else if is_line_terminator c then false
    else dotdot_on_first_line (d :: s).
Proof. reflexivity. Qed.

Lemma dotdot_found (s : jsstring) :
  dotdot_on_first_line s = true -> exists a b : jsstring, s = a ++ lit ".." ++ b.
Proof.
  induction s as [|c s IH]; [done|]. destruct s as [|d s]; [done|].
  rewrite dotdot_cons. destruct (is_char "." c && is_char "." d) eqn:E.
  - intros _. apply andb_true_iff in E as [Ec Ed].
    apply is_char_eq in Ec, Ed. subst c d. by exists [], s.
  - destruct (is_line_terminator c); [done|]. intros H.
    destruct (IH H) as (a & b & E'). exists (c :: a), b. cbn [app]. by rewrite E'.
Qed.

Lemma dotdot_present (a b : jsstring) :
  Forall (fun c => is_line_terminator c = false) a ->
  dotdot_on_first_line (a ++ lit ".." ++ b) = true.
Proof.
  induction 1 as [|c a Hc _ IH]; [done|]. cbn [app].
  destruct (a ++ lit ".." ++ b) as [|d r] eqn:E; [by destruct a|].
  rewrite dotdot_cons, Hc, IH. by destruct (is_char "." c && is_char "." d).
Qed.

Lemma units_not_line_terminator (c : char16) :
  c ∈ ascii_letters ++ ascii_digits ++ lit "_'+-.@" -> is_line_terminator c = false.
Proof.
  intros H. apply not_true_iff_false. revert H. class_iff.
Qed.


Lemma match_local_shape (l : jsstring) : match_local l = true <-> local_shape l.
Proof.
  unfold match_local, local_shape. destruct (last l) as [c|].
  - rewrite andb_true_iff, (forallb_class local_char _ local_char_units), local_last_units.
    split.
    + intros [Hc Hl]. split; [exact Hl|]. by exists c.
    + intros [Hl (c' & Hc' & Hc)]. apply (inj Some) in Hc'. subst c'. done.
  - split; [done|]. by intros [_ (c & Hc & _)].
Qed.

Lemma match_label_shape (p : jsstring) : match_label p = true <-> label_shape p.
Proof.
  unfold match_label, label_shape. destruct p as [|c r].
  - split; [done|]. by intros [_ (c & Hc & _)].
  - rewrite andb_true_iff, (forallb_class label_char _ label_char_units), is_alnum_units.
    rewrite Forall_cons. cbn [head]. split.
    + intros [Hc Hr]. split; [split; [|exact Hr]|by exists c].
      apply label_char_units. unfold label_char. apply orb_true_iff. left.
      by apply is_alnum_units.
    + intros [[_ Hr] (c' & Hc' & Hc)]. apply (inj Some) in Hc'. subst c'. done.
Qed.

Lemma match_tld_shape (t : jsstring) : match_tld t = true <-> tld_shape t.
Proof.
  unfold match_tld, tld_shape.
  rewrite andb_true_iff, (forallb_class is_letter _ is_letter_letters), Nat.leb_le. tauto.
Qed.

Lemma local_shape_no_at (l : jsstring) : local_shape l -> N_of_ascii "@" ∉ l.
Proof.
  intros [Hl _] Hin. rewrite Forall_forall in Hl. specialize (Hl _ Hin).
  by apply local_char_units in Hl.
Qed.

Lemma label_shape_no_dot (p : jsstring) : label_shape p -> N_of_ascii "." ∉ p.
Proof.
  intros [Hl _] Hin. rewrite Forall_forall in Hl. specialize (Hl _ Hin).
  by apply label_char_units in Hl.
Qed.

Lemma tld_shape_no_dot (t : jsstring) : tld_shape t -> N_of_ascii "." ∉ t.
Proof.
  intros [Hl _] Hin. rewrite Forall_forall in Hl. specialize (Hl _ Hin).
  by apply is_letter_letters in Hl.
Qed.

(** No character of an address of the shape ends a line. *)
Lemma shape_one_line (l : jsstring) (labels : list jsstring) (tld : jsstring) :
  local_shape l -> Forall label_shape labels -> tld_shape tld ->
  Forall (fun c => is_line_terminator c = false) (l ++ lit "@" ++ dotted labels ++ tld).
Proof.
  intros [Hl _] Hlabels [Ht _].
  assert (forall c, local_char c = true -> is_line_terminator c = false) as Hlocal.
  { intros c Hc. apply units_not_line_terminator.
    apply local_char_units in Hc.
    change (lit "_'+-.@") with (lit "_'+-." ++ lit "@"). rewrite !elem_of_app in *. tauto. }
  assert (forall c, label_char c = true -> is_line_terminator c = false) as Hlabel.
  { intros c Hc. apply Hlocal. unfold local_char, label_char in *.
    apply orb_true_iff in Hc as [Hc|Hc]; rewrite Hc; by rewrite ?orb_true_r. }
  rewrite !Forall_app. split; [|split; [by repeat constructor|split]].
  - eapply Forall_impl; [exact Hl|]. intros c Hc. by apply Hlocal, local_char_units.
  - unfold dotted. apply Forall_concat, Forall_fmap.
    eapply Forall_impl; [exact Hlabels|]. intros p [Hp _]. cbn.
    rewrite Forall_app. split; [|by repeat constructor].
    eapply Forall_impl; [exact Hp|]. intros c Hc. by apply Hlabel, label_char_units.
  - eapply Forall_impl; [exact Ht|]. intros c Hc. apply Hlabel.
    unfold label_char, is_alnum. apply is_letter_letters in Hc. by rewrite Hc.
Qed.

(** The regular expression accepts exactly the addresses of the shape. *)
Lemma emailRegex_test_shape (s : jsstring) : emailRegex_test s = true <-> email_shape s.
Proof.
  split.
  - unfold emailRegex_test. intros H.
    apply andb_true_iff in H as [H Hbody]. apply andb_true_iff in H as [Hsd Hdd].
    apply negb_true_iff in Hsd, Hdd.
    destruct (split_first "@" s) as [[l d]|] eqn:E; [|done].
    apply split_first_spec in E. apply andb_true_iff in Hbody as [Hl Hd].
    apply match_local_shape in Hl.
    unfold match_domain in Hd.
    destruct (rev (split_all "." d)) as [|tld rlabels] eqn:Er; [done|].
    destruct rlabels as [|lab rlabels]; [done|].
    apply andb_true_iff in Hd as [Htld Hlabels].
    apply match_tld_shape in Htld.
    apply (forallb_pieces match_label _ match_label_shape) in Hlabels.
    apply (f_equal (@rev jsstring)) in Er. rewrite rev_involutive in Er.
    change (rev (tld :: lab :: rlabels)) with (rev (lab :: rlabels) ++ [tld]) in Er.
    pose proof (join_split_all "." d) as Hj. rewrite Er, join_dotted in Hj.
    assert (Forall label_shape (rev (lab :: rlabels))) as Hlabels'.
    { by apply Forall_rev_pieces. }
    assert (s = l ++ lit "@" ++ dotted (rev (lab :: rlabels)) ++ tld) as Es.
    { rewrite E, <- Hj. reflexivity. }
    exists l, (rev (lab :: rlabels)), tld.
    split; [exact Es|]. split; [exact Hl|]. split.
    { cbn [rev]. intros Hnil. by apply app_eq_nil in Hnil as [_ ?]. }
    split; [exact Hlabels'|]. split; [exact Htld|]. split.
    + destruct s as [|c s']; [done|]. cbn [head]. intros Hc. apply (inj Some) in Hc.
      subst c. by cbn in Hsd.
    + intros a b Hab.
      pose proof (shape_one_line l _ tld Hl Hlabels' Htld) as Hone.
      rewrite <- Es, Hab in Hone. apply Forall_app in Hone as [Ha _].
      rewrite Hab, (dotdot_present a b Ha) in Hdd. done.
  - intros (l & labels & tld & Es & Hl & Hne & Hlabels & Htld & Hhead & Hdots).
    unfold emailRegex_test. apply andb_true_iff. split; [apply andb_true_iff; split|].
    + apply negb_true_iff. destruct s as [|c s']; [done|]. cbn [starts_with_dot].
      apply not_true_iff_false. intros Hc. apply is_char_eq in Hc. subst c. by apply Hhead.
    + apply negb_true_iff, not_true_iff_false. intros Hd.
      destruct (dotdot_found s Hd) as (a & b & Hab). by apply (Hdots a b).
    + change (lit "@" ++ dotted labels ++ tld) with (N_of_ascii "@" :: dotted labels ++ tld) in Es.
      rewrite Es, (split_first_app "@" l _ (local_shape_no_at l Hl)).
      apply andb_true_iff. split; [by apply match_local_shape|].
      unfold match_domain. rewrite split_all_dotted.
      2:{ eapply Forall_impl; [exact Hlabels|]. apply label_shape_no_dot. }
      2:{ by apply tld_shape_no_dot. }
      rewrite rev_app_distr. cbn [rev app].
      destruct (rev labels) as [|lab rlabels] eqn:Er.
      { apply (f_equal (@rev jsstring)) in Er. rewrite rev_involutive in Er. done. }
      apply andb_true_iff. split; [by apply match_tld_shape|].
      apply (forallb_pieces match_label _ match_label_shape).
      rewrite <- Er. by apply Forall_rev_pieces.
Qed.

End EmailShape.

(** ** The e-mail rule at submit time *)

Section EmailRule.

#[local] Arguments lit : simpl never.
#[local] Arguments trim : simpl never.
#[local] Arguments Nat.ltb : simpl never.
#[local] Arguments defaultErrorMap_too_big : simpl never.
#[local] Arguments emailRegex_test : simpl never.

Lemma email_submit_error s :
  submit_error s Email
  = if 255 <? length (trim (email (formData s))) then Some (defaultErrorMap_too_big 255)
    else if emailRegex_test (trim (email (formData s))) then None
    else Some (lit "Please enter a valid email").
Proof. rewrite submit_error_last, field_messages_Email. apply submit_error_email_rules. Qed.

(** C8 (amended). The e-mail rule reads the trimmed value and accepts it
    exactly when it has the shape [local@label. ... .tld] of
    [email_shape] and at most 255 characters.  A value whose trimmed form
    has not that shape makes the submit fail, with "Please enter a valid
    email" under [email] (with the length message when it is longer than
    255 characters as well); so does every value without [@], the empty
    string among them.  A value longer than 255 characters after
    trimming makes the submit fail whatever its shape.  When the seven
    other fields pass, the submit is accepted exactly when the trimmed
    e-mail has the shape and at most 255 characters.  The shape is
    narrower than the well-formed addresses: [&] and the other printable
    characters are not allowed in the local part, which may not end with
    an apostrophe, and the domain needs a dot and a last piece of
    letters only. *)
Theorem email_rule_shape s :
  (email_shape (trim (email (formData s))) ->
   length (trim (email (formData s))) <= 255 ->
   submit_error s Email = None)
  /\ (email_shape (email (formData s)) ->
      length (email (formData s)) <= 255 ->
      submit_error s Email = None)
  /\ (~ email_shape (trim (email (formData s))) ->
      exists s', handleSubmit s = Returned s'
        /\ errors s' !! Email
           = Some (if 255 <? length (trim (email (formData s)))
                   then defaultErrorMap_too_big 255
                   else lit "Please enter a valid email")
        /\ isSubmitting s' = false
        /\ isSubmitted s' = isSubmitted s
        /\ formData s' = formData s)
  /\ (N_of_ascii "@" ∉ email (formData s) ->
      exists s', handleSubmit s = Returned s'
        /\ errors s' !! Email
           = Some (if 255 <? length (trim (email (formData s)))
                   then defaultErrorMap_too_big 255
                   else lit "Please enter a valid email"))
  /\ (email (formData s) = [] ->
      exists s', handleSubmit s = Returned s'
        /\ errors s' !! Email = Some (lit "Please enter a valid email"))
  /\ (255 < length (trim (email (formData s))) ->
      exists s', handleSubmit s = Returned s'
        /\ errors s' !! Email = Some (defaultErrorMap_too_big 255))
  /\ (submit_accepted s = true ->
      email_shape (trim (email (formData s))) /\ length (trim (email (formData s))) <= 255)
  /\ ((forall key, key <> Email -> submit_error s key = None) ->
      (submit_accepted s = true
       <-> email_shape (trim (email (formData s)))
           /\ length (trim (email (formData s))) <= 255)).
Proof.
  pose proof (email_submit_error s) as E.
  pose proof (emailRegex_test_shape (trim (email (formData s)))) as Hshape.
  assert (submit_error s Email = None
          <-> email_shape (trim (email (formData s)))
              /\ length (trim (email (formData s))) <= 255) as Hiff.
  { rewrite E, <- Hshape.
    destruct (255 <? length (trim (email (formData s)))) eqn:El.
    - apply Nat.ltb_lt in El. split; [done|]. intros [_ ?]. lia.
    - apply Nat.ltb_ge in El.
      destruct (emailRegex_test (trim (email (formData s)))); split; try done.
      by intros [? _]. }
  assert (~ email_shape (trim (email (formData s))) ->
      exists s', handleSubmit s = Returned s'
        /\ errors s' !! Email
           = Some (if 255 <? length (trim (email (formData s)))
                   then defaultErrorMap_too_big 255
                   else lit "Please enter a valid email")
        /\ isSubmitting s' = false
        /\ isSubmitted s' = isSubmitted s
        /\ formData s' = formData s) as Hreject.
  { intros Hno. apply submit_returns. rewrite E.
    destruct (255 <? length (trim (email (formData s)))); [done|].
    destruct (emailRegex_test (trim (email (formData s)))) eqn:Et; [|done].
    exfalso. by apply Hno, Hshape. }
  assert (N_of_ascii "@" ∉ email (formData s) -> ~ email_shape (trim (email (formData s))))
    as Hat.
  { intros Hno Hs. apply Hshape in Hs.
    rewrite emailRegex_test_needs_at in Hs; [done|].
    intros Hin. by apply Hno, trim_elem. }
  split; [intros H1 H2; by apply Hiff|].
  split.
  { intros H1 H2. apply Hiff.
    pose proof (proj2 (emailRegex_test_shape _) H1) as Ht.
    by rewrite (emailRegex_test_trimmed _ Ht). }
  split; [exact Hreject|].
  split; [|split; [|split; [|split]]].
  - intros Hno. destruct (Hreject (Hat Hno)) as (s' & H1 & H2 & _). by exists s'.
  - intros He. destruct Hreject as (s' & H1 & H2 & _).
    + apply Hat. rewrite He. apply not_elem_of_nil.
    + exists s'. split; [exact H1|]. rewrite H2, He. reflexivity.
  - intros Hlen. apply Nat.ltb_lt in Hlen. rewrite Hlen in E.
    destruct (submit_returns s Email _ E) as (s' & H1 & H2 & _). by exists s'.
  - intros Ha. by apply Hiff, submit_accepted_no_error.
  - intros Hothers. rewrite <- Hiff, submit_accepted_iff. split; [by intros H|].
    intros He key. destruct (decide (key = Email)) as [->|Hne]; [exact He|by apply Hothers].
Qed.

Lemma email_rule_shape_witness :
  email_shape (lit "jane@acme.com")
  /\ submit_error (editing (set Email padded_address jane)) Email = None
  /\ (exists s', handleSubmit (editing (set Email (lit "jane.acme.com") jane)) = Returned s'
        /\ errors s' !! Email = Some (lit "Please enter a valid email"))
  /\ (exists s', handleSubmit (editing (set Email (lit "") jane)) = Returned s'
        /\ errors s' !! Email = Some (lit "Please enter a valid email")).
Proof.
  assert (email_shape (lit "jane@acme.com")) as Hs.
  { exists (lit "jane"), [lit "acme"], (lit "com").
    split; [reflexivity|]. split.
    { split; [|exists (N_of_ascii "e"); split; [reflexivity|]];
        [apply Forall_forall; intros c Hc|];
        apply local_char_units || apply local_last_units; [|reflexivity].
      revert c Hc. apply Forall_forall. by repeat constructor. }
    split; [discriminate|]. split.
    { constructor; [|constructor]. apply match_label_shape. reflexivity. }
    split; [apply match_tld_shape; reflexivity|]. split; [discriminate|].
    intros a b Hab. pose proof (dotdot_present a b) as Hd. rewrite <- Hab in Hd.
    assert (Forall (fun c => is_line_terminator c = false) a) as Ha.
    { assert (Forall (fun c => is_line_terminator c = false) (lit "jane@acme.com")) as Hall
        by by repeat constructor.
      rewrite Hab in Hall. by apply Forall_app in Hall as [? _]. }
    by specialize (Hd Ha). }
  destruct (email_rule_shape (editing (set Email padded_address jane)))
    as (Hpass & _).
  destruct (email_rule_shape (editing (set Email (lit "jane.acme.com") jane)))
    as (_ & _ & _ & Hat & _).
  destruct (email_rule_shape (editing (set Email (lit "") jane)))
    as (_ & _ & _ & _ & Hempty & _).
  split; [exact Hs|]. split; [|split].
  - apply Hpass; [exact Hs|]. vm_compute. lia.
  - destruct Hat as (s' & E & Hm); [|by exists s'].
    vm_compute. intros H.
    repeat (apply elem_of_cons in H as [H|H]; [discriminate H|]). by apply elem_of_nil in H.
  - by apply Hempty.
Defined.

(** C8, as stated, fails: two addresses that are well formed (valid
    e-mail addresses of the HTML standard, which is what the [email]
    input of the form takes) and far shorter than 255 characters are
    turned down, each with "Please enter a valid email". *)
Lemma well_formed_email_rejected :
  html_valid_email ampersand_address = true
  /\ length ampersand_address <= 255
  /\ handleSubmit (editing (set Email ampersand_address jane))
     = Returned (mkState (set Email ampersand_address jane)
                   {[ Email := lit "Please enter a valid email" ]} false false)
  /\ html_valid_email apostrophe_address = true
  /\ length apostrophe_address <= 255
  /\ handleSubmit (editing (set Email apostrophe_address jane))
     = Returned (mkState (set Email apostrophe_address jane)
                   {[ Email := lit "Please enter a valid email" ]} false false)
  /\ success (validate (set Email ampersand_address jane)) = false
  /\ success (validate (set Email apostrophe_address jane)) = false.
Proof.
  split; [reflexivity|]. split; [vm_compute; lia|]. split; [reflexivity|].
  split; [reflexivity|]. split; [vm_compute; lia|]. split; [reflexivity|].
  split; reflexivity.
Qed.

End EmailRule.

(** ** The rules read the trimmed value *)

Section TrimmedValue.

#[local] Arguments lit : simpl never.
#[local] Arguments trim : simpl never.
#[local] Arguments Nat.ltb : simpl never.
#[local] Arguments defaultErrorMap_too_big : simpl never.
#[local] Arguments emailRegex_test : simpl never.

Lemma trimmed_field_messages key (msg : jsstring) (limit : nat) data (v : jsstring) :
  trimmed_field key = Some (msg, limit) -> get key data = Some v ->
  1 <= limit
  /\ field_messages key data
     = match key with Email => email_rules v | _ => trimmed_rules msg limit v end.
Proof.
  destruct key; cbn [trimmed_field get]; try discriminate; intros H Hv;
    apply (inj Some) in H; apply pair_equal_spec in H; destruct H as [<- <-];
    apply (inj Some) in Hv; subst v; (split; [lia|]).
  - apply field_messages_Name.
  - apply field_messages_Email.
  - apply field_messages_Company.
  - apply field_messages_AutomationGoal.
Qed.

Lemma trimmed_field_same_trim key (msg : jsstring) (limit : nat) s (v v' : jsstring) :
  trimmed_field key = Some (msg, limit) -> get key (formData s) = Some v ->
  trim v' = trim v ->
  submit_error (setFormData (set key v') s) key = submit_error s key.
Proof.
  intros Hk Hv Ht. rewrite !submit_error_last. unfold setFormData. cbn [formData].
  destruct (trimmed_field_messages key msg limit (formData s) v Hk Hv) as [_ ->].
  destruct (trimmed_field_messages key msg limit (set key v' (formData s)) v' Hk)
    as [_ ->]; [apply get_set_eq|].
  unfold email_rules, trimmed_rules. by rewrite Ht.
Qed.

(** C10. The rules of name, email, company and automationGoal read the
    trimmed value.  A submit treats a value, its trimmed form and the
    value with white space added around it alike; a value of white space
    only makes the submit fail with the message of its field ("Name is
    required" for the name); for name, company and automationGoal the
    submit records the message of the field when the trimmed value is
    empty, the length message when the trimmed value is longer than the
    limit, and nothing otherwise, so that a value whose trimmed length is
    within the limit passes whatever its untrimmed length (for the
    e-mail, when the trimmed value has the shape of an address as
    well); a trimmed value longer than the limit makes the submit fail
    for each of the four. *)
Theorem trimmed_value_validated s key (msg : jsstring) (limit : nat) (v : jsstring) :
  trimmed_field key = Some (msg, limit) ->
  get key (formData s) = Some v ->
  (forall v' : jsstring, trim v' = trim v ->
     (forall key', submit_error (setFormData (set key v') s) key' = submit_error s key')
     /\ submit_accepted (setFormData (set key v') s) = submit_accepted s)
  /\ ((forall key', submit_error (setFormData (set key (trim v)) s) key' = submit_error s key')
      /\ submit_accepted (setFormData (set key (trim v)) s) = submit_accepted s)
  /\ (forall ws1 ws2 : jsstring, blank ws1 -> blank ws2 ->
        (forall key', submit_error (setFormData (set key (ws1 ++ v ++ ws2)) s) key'
                      = submit_error s key')
        /\ submit_accepted (setFormData (set key (ws1 ++ v ++ ws2)) s) = submit_accepted s)
  /\ (blank v ->
      exists s', handleSubmit s = Returned s'
        /\ errors s' !! key = Some msg
        /\ isSubmitting s' = false
        /\ isSubmitted s' = isSubmitted s
        /\ formData s' = formData s)
  /\ (key <> Email ->
      submit_error s key
      = if length (trim v) =? 0 then Some msg
        else if limit <? length (trim v) then Some (defaultErrorMap_too_big limit)
        else None)
  /\ (key <> Email -> trim v <> [] -> length (trim v) <= limit -> submit_error s key = None)
  /\ (key = Email -> email_shape (trim v) -> length (trim v) <= limit ->
      submit_error s key = None)
  /\ (limit < length (trim v) ->
      exists s', handleSubmit s = Returned s'
        /\ errors s' !! key = Some (defaultErrorMap_too_big limit)
        /\ isSubmitting s' = false
        /\ isSubmitted s' = isSubmitted s
        /\ formData s' = formData s).
Proof.
  intros Hk Hv.
  assert (forall v' : jsstring, trim v' = trim v ->
     (forall key', submit_error (setFormData (set key v') s) key' = submit_error s key')
     /\ submit_accepted (setFormData (set key v') s) = submit_accepted s) as Hsame.
  { intros v' Ht. apply submit_unchanged.
    by apply (trimmed_field_same_trim key msg limit s v v'). }
  destruct (trimmed_field_messages key msg limit (formData s) v Hk Hv) as [Hlim Hm].
  split; [exact Hsame|]. split; [apply Hsame, trim_idempotent|].
  split; [intros ws1 ws2 H1 H2; by apply Hsame, trim_padding|].
  split; [|split; [|split; [|split]]].
  - intros Hb. apply submit_returns. rewrite submit_error_last, Hm.
    pose proof (trim_blank v Hb) as Ht.
    destruct key; try discriminate Hk.
    + rewrite submit_error_trimmed_rules by done. by rewrite Ht.
    + apply (inj Some) in Hk. apply pair_equal_spec in Hk. destruct Hk as [<- _].
      rewrite submit_error_email_rules. rewrite Ht. by rewrite emailRegex_test_empty.
    + rewrite submit_error_trimmed_rules by done. by rewrite Ht.
    + rewrite submit_error_trimmed_rules by done. by rewrite Ht.
  - intros Hne. rewrite submit_error_last, Hm.
    destruct key; try done; by apply submit_error_trimmed_rules.
  - intros Hne Ht Hlen. rewrite submit_error_last, Hm.
    assert (last (trimmed_rules msg limit v) = None) as Hpass.
    { rewrite submit_error_trimmed_rules by done.
      destruct (trim v) as [|c r] eqn:E; [done|]. cbn [length Nat.eqb].
      by replace (limit <? S (length r)) with false by (symmetry; apply Nat.ltb_ge; exact Hlen). }
    by destruct key.
  - intros -> Hs Hlen. rewrite submit_error_last, Hm, submit_error_email_rules.
    apply (inj Some) in Hk. apply pair_equal_spec in Hk. destruct Hk as [_ <-].
    replace (255 <? length (trim v)) with false by (symmetry; apply Nat.ltb_ge; exact Hlen).
    apply emailRegex_test_shape in Hs. by rewrite Hs.
  - intros Hlen. apply submit_returns. rewrite submit_error_last, Hm.
    assert ((limit <? length (trim v)) = true) as Hl by by apply Nat.ltb_lt.
    assert (last (trimmed_rules msg limit v) = Some (defaultErrorMap_too_big limit)) as Hbig.
    { rewrite submit_error_trimmed_rules by done. rewrite Hl.
      by replace (length (trim v) =? 0) with false by (symmetry; apply Nat.eqb_neq; lia). }
    destruct key; try done.
    apply (inj Some) in Hk. apply pair_equal_spec in Hk. destruct Hk as [_ <-].
    rewrite submit_error_email_rules. by rewrite Hl.
Qed.

Lemma trimmed_value_validated_witness :
  100 < length padded_both_ends
  /\ submit_error (editing (set Name padded_both_ends jane)) Name = None
  /\ (exists s', handleSubmit (editing (set Name (lit "   ") jane)) = Returned s'
        /\ errors s' !! Name = Some (lit "Name is required"))
  /\ submit_accepted (editing (set Email padded_address jane)) = submit_accepted (editing jane).
Proof.
  destruct (trimmed_value_validated (editing (set Name padded_both_ends jane)) Name
              (lit "Name is required") 100 padded_both_ends eq_refl eq_refl)
    as (_ & _ & _ & _ & _ & Hpass & _).
  destruct (trimmed_value_validated (editing (set Name (lit "   ") jane)) Name
              (lit "Name is required") 100 (lit "   ") eq_refl eq_refl)
    as (_ & _ & _ & Hblank & _).
  destruct (trimmed_value_validated (editing jane) Email
              (lit "Please enter a valid email") 255 (lit "jane@acme.com") eq_refl eq_refl)
    as (_ & _ & Hpad & _).
  split; [vm_compute; lia|]. split; [|split].
  - apply Hpass; [discriminate| |]; vm_compute; [discriminate|lia].
  - destruct Hblank as (s' & E & Hm & _); [vm_compute; repeat constructor|].
    exists s'. split; [exact E|exact Hm].
  - destruct (Hpad [N_of_ascii "009"] (lit "  ")) as [_ H];
      [vm_compute; repeat constructor|vm_compute; repeat constructor|].
    exact H.
Defined.

End TrimmedValue.
